(** * Metavoxel edit messages (MetavoxelMessages.cpp)

    A shallow embedding of the edit commands of the metavoxel engine and of
    the visitors they run, with the properties of the edits stated and proved
    over it.

    The translation unit is present in two revisions.  [MessagesA] embeds
    the one that carries the height-field and material edits, [MessagesB]
    the one that defines [UpdateSpannerVisitor] and [SetSpannerEdit].
    Definitions shared by both (the box-set and global-set visitors are
    textually identical) are embedded once.

    Numbers are IEEE-754 binary32 values ([float] in the source), taken from
    the parameterised specification of the Standard Library. *)

From Stdlib Require Import ZArith List Bool String.
From Stdlib Require Import Floats.SpecFloat.
From stdpp Require Import base option list gmap strings.

Set Warnings "-register-all".

Local Open Scope Z_scope.

(** ** binary32 arithmetic *)

Module F32.

Definition prec : Z := 24.
Definition emax : Z := 128.

Definition float : Type := spec_float.

Definition add : float -> float -> float := SFadd prec emax.
Definition sub : float -> float -> float := SFsub prec emax.
Definition mul : float -> float -> float := SFmul prec emax.
Definition div : float -> float -> float := SFdiv prec emax.

(** The four ordered comparisons of C++; each is false on a NaN. *)
Definition lt (a b : float) : bool := SFltb a b.
Definition le (a b : float) : bool := SFleb a b.
Definition gt (a b : float) : bool := SFltb b a.
Definition ge (a b : float) : bool := SFleb b a.

Definition of_Z (n : Z) : float := binary_normalize prec emax n 0 false.

Definition zero : float := S754_zero false.
Definition one : float := Eval cbv in of_Z 1.
Definition two : float := Eval cbv in of_Z 2.
(** [0.5f] *)
Definition half : float := Eval cbv in binary_normalize prec emax 1 (-1) false.
(** [1.1f], the binary32 nearest to 11/10: 0x3F8CCCCD. *)
Definition one_point_one : float := S754_finite false 9227469 (-23).

Definition opp : float -> float := SFopp.

Definition nan : float := S754_nan.

(** [qMax(a, b)] of Qt is [(a < b) ? b : a].  [glm::max(x, y)] and
    [glm::min(x, y)] (GLM is a library outside the repository) are taken
    in the same form, [(x < y) ? y : x] and [(y < x) ? y : x]; releases of
    GLM that write them [x > y ? x : y] and [x < y ? x : y] return the
    same value unless an operand is a NaN or both are zeros of different
    sign ([max_min_forms_agree] below).  No property below depends on the
    result for such operands. *)
Definition max (a b : float) : float := if lt a b then b else a.
Definition min (a b : float) : float := if lt b a then b else a.

(** [roundf]: the nearest integral value, halfway cases away from zero.
    Zeros, infinities, NaN and values without a fractional part are
    returned as they are. *)
Definition roundf (a : float) : float :=
  match a with
  | S754_finite s m e =>
      if 0 <=? e then a
      else
        let d := 2 ^ (- e) in
        let q := Z.pos m / d in
        let r := Z.pos m mod d in
        let n := if d <=? 2 * r then q + 1 else q in
        binary_normalize prec emax (cond_Zopp s n) 0 s
  | _ => a
  end.

(** Conversion of a [float] to [int]: the fractional part is discarded;
    the conversion is undefined when the truncated value is not an [int]
    (and on infinities and NaN), which is [None] here. *)
Definition to_int (a : float) : option Z :=
  match a with
  | S754_zero _ => Some 0
  | S754_finite s m e =>
      let n := cond_Zopp s (if 0 <=? e then Z.pos m * 2 ^ e
                            else Z.pos m / 2 ^ (- e)) in
      if (- 2 ^ 31 <=? n) && (n <? 2 ^ 31) then Some n else None
  | _ => None
  end.

End F32.

Abbreviation float := F32.float.

(** ** Vectors and boxes *)

Module vec3.
Record t : Type := mk { x : float; y : float; z : float }.

Definition splat (s : float) : t := mk s s s.
Definition map2 (f : float -> float -> float) (a b : t) : t :=
  mk (f (x a) (x b)) (f (y a) (y b)) (f (z a) (z b)).
Definition add : t -> t -> t := map2 F32.add.
Definition sub : t -> t -> t := map2 F32.sub.
Definition max : t -> t -> t := map2 F32.max.
Definition min : t -> t -> t := map2 F32.min.
Definition scale (a : t) (s : float) : t :=
  mk (F32.mul (x a) s) (F32.mul (y a) s) (F32.mul (z a) s).
End vec3.

Module Box.
Record t : Type := mk { minimum : vec3.t; maximum : vec3.t }.

(** Modelled from the spec: [Box::contains(const Box&)] is declared in
    MetavoxelUtil.h, which is not among the sources.  The region is
    "fully contained": both corners lie inside, componentwise. *)
Definition contains (b other : t) : bool :=
  F32.ge (vec3.x (minimum other)) (vec3.x (minimum b)) &&
  F32.le (vec3.x (maximum other)) (vec3.x (maximum b)) &&
  F32.ge (vec3.y (minimum other)) (vec3.y (minimum b)) &&
  F32.le (vec3.y (maximum other)) (vec3.y (maximum b)) &&
  F32.ge (vec3.z (minimum other)) (vec3.z (minimum b)) &&
  F32.le (vec3.z (maximum other)) (vec3.z (maximum b)).

(** Modelled from the spec: [Box::intersects(const Box&)] is declared in
    MetavoxelUtil.h, which is not among the sources.  Two boxes intersect
    when their extents overlap on every axis (touching counts). *)
Definition intersects (b other : t) : bool :=
  F32.ge (vec3.x (maximum other)) (vec3.x (minimum b)) &&
  F32.le (vec3.x (minimum other)) (vec3.x (maximum b)) &&
  F32.ge (vec3.y (maximum other)) (vec3.y (minimum b)) &&
  F32.le (vec3.y (minimum other)) (vec3.y (maximum b)) &&
  F32.ge (vec3.z (maximum other)) (vec3.z (minimum b)) &&
  F32.le (vec3.z (minimum other)) (vec3.z (maximum b)).

(** Modelled from the spec: [Box::getLongestSide()] is declared in
    MetavoxelUtil.h; the longest of the three side lengths. *)
Definition getLongestSide (b : t) : float :=
  let d := vec3.sub (maximum b) (minimum b) in
  F32.max (vec3.x d) (F32.max (vec3.y d) (vec3.z d)).
End Box.

(** ** Attributes, attribute values and shared objects *)

(** Payloads, attribute descriptors and spanners refer to each other: the
    payload of the spanners attribute is a set of spanners, an attribute
    carries its default payload, and a spanner lists the attributes it
    voxelizes.

    A payload is an inline value or a [SharedObjectSet].  An attribute is
    what its accessors return: the registered name, the LOD threshold
    multiplier and the default value.  A spanner is what the edits see
    through a [Spanner*]: the identity of the object (its address, which the
    pointer comparisons of the source compare) and what [getBounds],
    [getPlacementGranularity], [getVoxelizedAttributes] and [getAttributes]
    return.  AttributeRegistry.h and Spanner.h, which declare the two
    classes, are not among the sources. *)
Inductive Payload : Type :=
  | Inline (bits : Z)
  | ObjectSet (objects : list Spanner)
with Attribute : Type :=
  | mkAttribute (name : string) (lodThresholdMultiplier : float)
                (defaultValue : Payload)
with Spanner : Type :=
  | mkSpanner (address : positive) (bounds : Box.t)
              (placementGranularity : float)
              (voxelizedAttributes : list Attribute)
              (attributes : list Attribute).

Definition getName (a : Attribute) : string :=
  let 'mkAttribute n _ _ := a in n.
Definition getLODThresholdMultiplier (a : Attribute) : float :=
  let 'mkAttribute _ m _ := a in m.
Definition getDefaultValue (a : Attribute) : Payload :=
  let 'mkAttribute _ _ d := a in d.

Definition address (s : Spanner) : positive :=
  let 'mkSpanner a _ _ _ _ := s in a.
Definition getBounds (s : Spanner) : Box.t :=
  let 'mkSpanner _ b _ _ _ := s in b.
Definition getPlacementGranularity (s : Spanner) : float :=
  let 'mkSpanner _ _ g _ _ := s in g.
Definition getVoxelizedAttributes (s : Spanner) : list Attribute :=
  let 'mkSpanner _ _ _ v _ := s in v.
Definition getAttributes (s : Spanner) : list Attribute :=
  let 'mkSpanner _ _ _ _ a := s in a.

(** [getInlineValue<SharedObjectSet>()]: the payload read as a set of shared
    objects, in the order [foreach] walks it.  A payload of another type is
    not a set; the visitors below only read it from the spanners attribute. *)
Definition getInlineValue_SharedObjectSet (p : Payload) : list Spanner :=
  match p with
  | ObjectSet s => s
  | Inline _ => []
  end.

(** [AttributePointer]: a shared pointer to an attribute, possibly null. *)
Definition AttributePointer : Type := option Attribute.

(** [AttributeValue] / [OwnedAttributeValue]: an attribute pointer, null in a
    default-constructed value, and the payload. *)
Record AttributeValue : Type := mkAttributeValue {
  getAttribute : AttributePointer;
  getValue : Payload
}.

(** [OwnedAttributeValue()], the value an output slot holds until a visitor
    assigns it. *)
Definition unset : AttributeValue := mkAttributeValue None (Inline 0).

(** [AttributeValue(attribute)]: the attribute with its default payload (no
    payload for a null attribute). *)
Definition AttributeValue_of (a : AttributePointer) : AttributeValue :=
  mkAttributeValue a (from_option getDefaultValue (Inline 0) a).

(** ** Traversal context *)

Module MetavoxelInfo.
Inductive t : Type := mk {
  minimum : vec3.t;
  size : float;
  parentInfo : option t;
  inputValues : list AttributeValue;
  outputValues : list AttributeValue
}.

(** Modelled from the spec: [MetavoxelInfo::getBounds()] (MetavoxelData.h
    is not among the sources), the cube from the corner [minimum] with
    edge length [size]. *)
Definition getBounds (info : t) : Box.t :=
  Box.mk (minimum info) (vec3.add (minimum info) (vec3.splat (size info))).

(** [info.outputValues[i] = v].  The vector has one slot per output
    attribute of the visitor; an index past its end is outside the
    contract of [QVector::operator[]] and yields [None]. *)
Definition setOutputValue (i : nat) (v : AttributeValue) (info : t) : option t :=
  if decide (i < length (outputValues info))%nat
  then Some (mk (minimum info) (size info) (parentInfo info)
                (inputValues info) (<[i:=v]> (outputValues info)))
  else None.
End MetavoxelInfo.

(** The result of [MetavoxelVisitor::visit]. *)
Inductive VisitOrder : Type := DEFAULT_ORDER | STOP_RECURSION.

(** ** Box-set edit *)

Record BoxSetEdit : Type := mkBoxSetEdit {
  region : Box.t;
  granularity : float;
  value : AttributeValue
}.

(** [BoxSetEditVisitor::visit]. *)
Definition BoxSetEditVisitor_visit (_edit : BoxSetEdit) (info : MetavoxelInfo.t)
  : option (VisitOrder * MetavoxelInfo.t) :=
  (* find the intersection between volume and voxel *)
  let minimum := vec3.max (MetavoxelInfo.minimum info) (Box.minimum (region _edit)) in
  let maximum :=
    vec3.min (vec3.add (MetavoxelInfo.minimum info)
                       (vec3.splat (MetavoxelInfo.size info)))
             (Box.maximum (region _edit)) in
  let size := vec3.sub maximum minimum in
  if F32.le (vec3.x size) F32.zero || F32.le (vec3.y size) F32.zero
     || F32.le (vec3.z size) F32.zero
  then Some (STOP_RECURSION, info) (* disjoint *)
  else
    let volume :=
      F32.div (F32.mul (F32.mul (vec3.x size) (vec3.y size)) (vec3.z size))
              (F32.mul (F32.mul (MetavoxelInfo.size info) (MetavoxelInfo.size info))
                       (MetavoxelInfo.size info)) in
    if F32.ge volume F32.one then
      info' ← MetavoxelInfo.setOutputValue 0 (value _edit) info;
      Some (STOP_RECURSION, info') (* entirely contained *)
    else if F32.le (MetavoxelInfo.size info) (granularity _edit) then
      info' ← (if F32.ge volume F32.half
               then MetavoxelInfo.setOutputValue 0 (value _edit) info
               else Some info);
      Some (STOP_RECURSION, info') (* reached granularity limit *)
    else Some (DEFAULT_ORDER, info) (* subdivide *).

(** The quantities the case analysis of the box-set visitor is stated over:
    the extent of the intersection of the node's cube with the edit region,
    whether that extent is degenerate, and the fraction of the node's volume
    the intersection covers. *)
Definition intersectionExtent (e : BoxSetEdit) (info : MetavoxelInfo.t) : vec3.t :=
  vec3.sub
    (vec3.min (vec3.add (MetavoxelInfo.minimum info)
                        (vec3.splat (MetavoxelInfo.size info)))
              (Box.maximum (region e)))
    (vec3.max (MetavoxelInfo.minimum info) (Box.minimum (region e))).

Definition degenerate (ext : vec3.t) : bool :=
  F32.le (vec3.x ext) F32.zero || F32.le (vec3.y ext) F32.zero
  || F32.le (vec3.z ext) F32.zero.

Definition cube (s : float) : float := F32.mul (F32.mul s s) s.

Definition overlapVolume (e : BoxSetEdit) (info : MetavoxelInfo.t) : float :=
  let ext := intersectionExtent e info in
  F32.div (F32.mul (F32.mul (vec3.x ext) (vec3.y ext)) (vec3.z ext))
          (cube (MetavoxelInfo.size info)).

(** The node info with the edit's value in its first output slot. *)
Definition assigned (v : AttributeValue) (info : MetavoxelInfo.t) : MetavoxelInfo.t :=
  MetavoxelInfo.mk (MetavoxelInfo.minimum info) (MetavoxelInfo.size info)
    (MetavoxelInfo.parentInfo info) (MetavoxelInfo.inputValues info)
    (<[0%nat:=v]> (MetavoxelInfo.outputValues info)).


(** ** Global-set edit *)

Record GlobalSetEdit : Type := mkGlobalSetEdit {
  globalValue : AttributeValue
}.

(** [GlobalSetEditVisitor::visit]. *)
Definition GlobalSetEditVisitor_visit (_edit : GlobalSetEdit) (info : MetavoxelInfo.t)
  : option (VisitOrder * MetavoxelInfo.t) :=
  info' ← MetavoxelInfo.setOutputValue 0 (globalValue _edit) info;
  Some (STOP_RECURSION, info') (* entirely contained *).

(** ** What the translation unit takes from elsewhere *)

(** [AttributeRegistry::getInstance()->getSpannersAttribute()]. *)
Class AttributeRegistry : Type := {
  getSpannersAttribute : Attribute
}.

(** [logf] of the C library. *)
Class Libm : Type := {
  logf : float -> float
}.

(** [QColor] of Qt, in its 16-bit-per-channel representation. *)
Module QColor.
Inductive Spec : Type := Invalid | Rgb | Hsv | Cmyk | Hsl.
Record t : Type := mk {
  cspec : Spec; alpha : Z; red : Z; green : Z; blue : Z
}.

(** binary64, the [qreal] the accessors compute in. *)
Definition prec : Z := 53.
Definition emax : Z := 1024.
Definition qreal_of_Z (n : Z) : spec_float := binary_normalize prec emax n 0 false.
Definition qreal_half : spec_float :=
  Eval cbv in binary_normalize prec emax 1 (-1) false.
Definition qreal_one : spec_float := Eval cbv in qreal_of_Z 1.

Definition USHRT_MAX : Z := 65535.

(** [QColor(int r, int g, int b, int a)]: an RGB colour, each 8-bit
    channel widened by [* 0x101]. *)
Definition of_rgba (r g b a : Z) : t :=
  mk Rgb (a * 257) (r * 257) (g * 257) (b * 257).

(** [alphaF()]: [alpha / qreal(USHRT_MAX)]. *)
Definition alphaF (c : t) : spec_float :=
  SFdiv prec emax (qreal_of_Z (alpha c)) (qreal_of_Z USHRT_MAX).

(** [setAlphaF(1.0f)]: the alpha channel becomes [qRound(1.0 * USHRT_MAX)],
    the other channels and the colour spec are kept. *)
Definition setAlphaF_one (c : t) : t :=
  mk (cspec c) USHRT_MAX (red c) (green c) (blue c).
End QColor.

(** The virtual interface of [Spanner] (Spanner.h, not among the sources).
    [blendAttributeValues(info, force)] writes into [info] and says whether
    to keep subdividing; [paintHeight] and [setMaterial] return the spanner
    to store from now on, which is the receiver itself (same address) or a
    new instance.  The material is a shared object known by its address.
    A spanner is known here by its address and by the fields the edits
    read; what a call changes inside the receiver is outside this state,
    and the properties of the paint and material edits speak of which
    objects are stored, not of their inner state. *)
Class SpannerInterface : Type := {
  blendAttributeValues :
    Spanner -> MetavoxelInfo.t -> bool -> bool * MetavoxelInfo.t;
  paintHeight : Spanner -> vec3.t -> float -> float -> Spanner;
  setMaterial : Spanner -> Spanner -> positive -> QColor.t -> bool -> Spanner
}.

(** Pointer comparison of two spanners. *)
Definition same_instance (a b : Spanner) : bool :=
  Pos.eqb (address a) (address b).

(** ** Visitors *)

(** [MetavoxelVisitor]: the ordered input and output attributes and the
    virtual [visit]. *)
Record MetavoxelVisitor : Type := mkMetavoxelVisitor {
  getInputs : list AttributePointer;
  getOutputs : list AttributePointer;
  visit : MetavoxelInfo.t -> option (VisitOrder * MetavoxelInfo.t)
}.

(** [BoxSetEditVisitor::BoxSetEditVisitor]: no input, the attribute of the
    value as the one output. *)
Definition BoxSetEditVisitor (edit : BoxSetEdit) : MetavoxelVisitor :=
  mkMetavoxelVisitor [] [getAttribute (value edit)]
                     (BoxSetEditVisitor_visit edit).

(** [GlobalSetEditVisitor::GlobalSetEditVisitor]. *)
Definition GlobalSetEditVisitor (edit : GlobalSetEdit) : MetavoxelVisitor :=
  mkMetavoxelVisitor [] [getAttribute (globalValue edit)]
                     (GlobalSetEditVisitor_visit edit).

(** ** The update visitor of the spanner edits (revision B) *)

Record UpdateSpannerVisitor : Type := mkUpdateSpannerVisitor {
  _inputs : list AttributePointer;
  _outputs : list AttributePointer;
  _spanner : Spanner;
  _voxelizationSize : float;
  _steps : Z
}.

(** [UpdateSpannerVisitor::UpdateSpannerVisitor].  The initialiser of
    [_steps] converts the rounded [float] to [int]; the construction has no
    defined result when that conversion has none. *)
Definition UpdateSpannerVisitor_new `{AttributeRegistry} `{Libm}
    (attributes : list AttributePointer) (spanner : Spanner)
  : option UpdateSpannerVisitor :=
  steps ← F32.to_int
            (F32.roundf
               (F32.sub
                  (F32.div
                     (logf (getLODThresholdMultiplier getSpannersAttribute))
                     (logf F32.two))
                  F32.two));
  Some
    (mkUpdateSpannerVisitor
       (attributes ++ [Some getSpannersAttribute])
       attributes
       spanner
       (F32.div
          (F32.mul
             (F32.max (Box.getLongestSide (getBounds spanner))
                      (getPlacementGranularity spanner))
             F32.two)
          (getLODThresholdMultiplier getSpannersAttribute))
       steps).

(** The loop [for (int i = 0; i < _steps && parentInfo; i++)
    parentInfo = parentInfo->parentInfo;] entered with [parentInfo]
    pointing at [p] and the counter at [i]: the pointer it leaves with. *)
Fixpoint walkParents (steps i : Z) (p : MetavoxelInfo.t) {struct p}
  : option MetavoxelInfo.t :=
  if i <? steps then
    match MetavoxelInfo.parentInfo p with
    | Some q => walkParents steps (i + 1) q
    | None => None
    end
  else Some p.

(** The loop [for (int i = 0; i < _outputs.size(); i++)
    info.outputValues[i] = AttributeValue(_outputs.at(i));], from index [i]
    over the remaining outputs. *)
Fixpoint resetOutputs (outputs : list AttributePointer) (i : nat)
    (info : MetavoxelInfo.t) : option MetavoxelInfo.t :=
  match outputs with
  | [] => Some info
  | a :: rest =>
      info' ← MetavoxelInfo.setOutputValue i (AttributeValue_of a) info;
      resetOutputs rest (S i) info'
  end.

(** The [foreach] over a spanner set, blending each into [info] with
    [force = true]; the results of the calls are dropped. *)
Definition blendAll `{SpannerInterface} (objects : list Spanner)
    (info : MetavoxelInfo.t) : MetavoxelInfo.t :=
  foldl (fun acc object => snd (blendAttributeValues object acc true))
        info objects.

(** [UpdateSpannerVisitor::visit].  [info] is passed to
    [blendAttributeValues] by reference; the size compared with the
    voxelization size on the last line is the one the info holds after the
    blend loop. *)
Definition UpdateSpannerVisitor_visit `{SpannerInterface}
    (v : UpdateSpannerVisitor) (info : MetavoxelInfo.t)
  : option (VisitOrder * MetavoxelInfo.t) :=
  if negb (Box.intersects (MetavoxelInfo.getBounds info) (getBounds (_spanner v)))
  then Some (STOP_RECURSION, info)
  else
    let parentInfo :=
      p ← MetavoxelInfo.parentInfo info; walkParents (_steps v) 0 p in
    info1 ← resetOutputs (_outputs v) 0 info;
    info2 ← match parentInfo with
            | Some p =>
                set ← MetavoxelInfo.inputValues p !! length (_outputs v);
                Some (blendAll (getInlineValue_SharedObjectSet (getValue set)) info1)
            | None => Some info1
            end;
    Some (if F32.gt (MetavoxelInfo.size info2) (_voxelizationSize v)
          then DEFAULT_ORDER else STOP_RECURSION, info2).

Definition UpdateSpannerVisitor_visitor `{SpannerInterface}
    (v : UpdateSpannerVisitor) : MetavoxelVisitor :=
  mkMetavoxelVisitor (_inputs v) (_outputs v) (UpdateSpannerVisitor_visit v).

(** ** The set-spanner visitor (revision B) *)

(** [SetSpannerEditVisitor::visit], for the visitor built from [attributes]
    and [_spanner]; [blendAttributeValues] is called with its default
    [force = false]. *)
Definition SetSpannerEditVisitor_visit `{SpannerInterface} (_spanner : Spanner)
    (info : MetavoxelInfo.t) : option (VisitOrder * MetavoxelInfo.t) :=
  let '(more, info') := blendAttributeValues _spanner info false in
  Some (if more then DEFAULT_ORDER else STOP_RECURSION, info').

Definition SetSpannerEditVisitor `{SpannerInterface}
    (attributes : list AttributePointer) (_spanner : Spanner) : MetavoxelVisitor :=
  mkMetavoxelVisitor attributes attributes (SetSpannerEditVisitor_visit _spanner).

(** ** Metavoxel data *)

(** Modelled from the spec: the octree node (MetavoxelData.h is not among
    the sources).  A node holds one payload for its attribute and owns no
    children (a leaf) or eight. *)
Inductive MetavoxelNode : Type :=
  | mkNode (nodeValue : Payload) (children : list MetavoxelNode).

Definition CHILD_COUNT : nat := 8.

(** Whether the bounds of a spanner intersect a box. *)
Definition boundsIntersect (box : Box.t) (s : Spanner) : bool :=
  Box.intersects (getBounds s) box.

(** [spanner->getBounds()], under a name that [MetavoxelData::getBounds]
    does not hide. *)
Definition spannerBounds (s : Spanner) : Box.t := getBounds s.

Module MetavoxelData.

(** Modelled from the spec: [MetavoxelData] (MetavoxelData.h and
    MetavoxelData.cpp are not among the sources).  It owns the edge length
    of its bounding cube, one root node per populated attribute (keyed by
    the attribute's registered name) and, per attribute, the shared
    collection of spanners that the spanner edits add to and remove
    from. *)
Record t : Type := mk {
  _size : float;
  _roots : gmap string (Attribute * MetavoxelNode);
  _spanners : gmap string (list Spanner)
}.

(** Modelled from the spec: [getBounds()].  The bounds are the cube of
    edge [_size] aligned on the origin, which is its centre. *)
Definition getBounds (d : t) : Box.t :=
  let halfSize := F32.mul (_size d) F32.half in
  Box.mk (vec3.splat (F32.opp halfSize)) (vec3.splat halfSize).

Definition leaf (p : Payload) : MetavoxelNode := mkNode p [].

(** The root that replaces [root] when the cube doubles: child [i] of the
    new root covers octant [i]; what [root] held in that octant sits in
    its corner at the origin (the opposite index), the rest of it holds
    the attribute's default. *)
Definition expandRoot (a : Attribute) (root : MetavoxelNode) : MetavoxelNode :=
  let 'mkNode v cs := root in
  let old i := from_option id (leaf v) (cs !! i) in
  let newChild i :=
    mkNode (getDefaultValue a)
      ((fun j => if decide (j = CHILD_COUNT - 1 - i)%nat then old i
                 else leaf (getDefaultValue a)) <$> seq 0 CHILD_COUNT) in
  mkNode v (newChild <$> seq 0 CHILD_COUNT).

(** Modelled from the spec: [expand()].  The bounds grow by doubling; the
    stored values keep their place in space. *)
Definition expand (d : t) : t :=
  mk (F32.mul (_size d) F32.two)
     ((fun '(a, n) => (a, expandRoot a n)) <$> _roots d)
     (_spanners d).

(** The corner of child [i] of a node at [minimum] whose children have
    edge [halfSize]: bit 0 of [i] selects the upper half in x, bit 1 in y,
    bit 2 in z. *)
Definition childMinimum (minimum : vec3.t) (halfSize : float) (i : nat) : vec3.t :=
  vec3.add minimum
    (vec3.mk (if Nat.testbit i 0 then halfSize else F32.zero)
             (if Nat.testbit i 1 then halfSize else F32.zero)
             (if Nat.testbit i 2 then halfSize else F32.zero)).

(** The value a visitor reads for attribute [a] at a node: the stored one,
    or the attribute's default where nothing is stored. *)
Definition inputValue (a : AttributePointer) (n : option MetavoxelNode)
  : AttributeValue :=
  match n with
  | Some (mkNode v _) => mkAttributeValue a v
  | None => AttributeValue_of a
  end.

(** Child [i] of a stored node; a leaf hands its own value down. *)
Definition childNode (i : nat) (n : option MetavoxelNode) : option MetavoxelNode :=
  match n with
  | Some (mkNode v []) => Some (leaf v)
  | Some (mkNode _ cs) => cs !! i
  | None => None
  end.

(** What an output slot makes of the node it was offered when the visitor
    stops: an assigned slot replaces the node by a leaf, an unassigned
    slot leaves it as it is. *)
Definition accept (slot : AttributeValue) (old : option MetavoxelNode)
  : option MetavoxelNode :=
  match getAttribute slot with
  | Some _ => Some (leaf (getValue slot))
  | None => old
  end.

(** The node for an output after its eight children were visited. *)
Definition rebuild (slot : AttributeValue) (old : option MetavoxelNode)
    (a : AttributePointer) (kids : list (option MetavoxelNode)) : option MetavoxelNode :=
  let own :=
    match getAttribute slot, old with
    | Some _, _ => getValue slot
    | None, Some (mkNode v _) => v
    | None, None => getValue (AttributeValue_of a)
    end in
  Some (mkNode own
          ((fun k => from_option id (leaf (getValue (AttributeValue_of a))) k)
             <$> kids)).

(** Modelled from the spec: the traversal behind [guide].  A node info is
    built from the stored values, the visitor is called, and on
    [STOP_RECURSION] the output values become the node; on
    [DEFAULT_ORDER] the eight children are visited in index order at half
    the size, linked to this info as their parent.  [fuel] bounds the
    depth; the traversal has no result when it runs out or when the
    visitor has none. *)
Fixpoint guideNode (fuel : nat) (v : MetavoxelVisitor)
    (parent : option MetavoxelInfo.t) (minimum : vec3.t) (size : float)
    (ins outs : list (option MetavoxelNode)) {struct fuel}
  : option (list (option MetavoxelNode)) :=
  match fuel with
  | O => None
  | S fuel' =>
      let info :=
        MetavoxelInfo.mk minimum size parent
          (zip_with inputValue (getInputs v) ins)
          (replicate (length (getOutputs v)) unset) in
      '(order, info') ← visit v info;
      match order with
      | STOP_RECURSION =>
          Some (zip_with accept (MetavoxelInfo.outputValues info') outs)
      | DEFAULT_ORDER =>
          let halfSize := F32.mul size F32.half in
          results ← mapM (fun i =>
                            guideNode fuel' v (Some info')
                              (childMinimum minimum halfSize i) halfSize
                              (childNode i <$> ins) (childNode i <$> outs))
                         (seq 0 CHILD_COUNT);
          Some (imap (fun j '(slot, (old, a)) =>
                        rebuild slot old a
                          ((fun r : list (option MetavoxelNode) =>
                              mjoin (r !! j)) <$> results))
                     (zip (MetavoxelInfo.outputValues info')
                          (zip outs (getOutputs v))))
      end
  end.

Definition root (a : AttributePointer) (d : t) : option MetavoxelNode :=
  a' ← a; snd <$> (_roots d !! getName a').

Definition setRoot (d : t) (an : AttributePointer * option MetavoxelNode) : t :=
  match an with
  | (Some a, Some n) => mk (_size d) (<[getName a := (a, n)]> (_roots d)) (_spanners d)
  | _ => d
  end.

(** Modelled from the spec: [guide(visitor)], starting at the data's
    bounds; the roots of the output attributes are replaced by what the
    traversal returns. *)
Definition guide (fuel : nat) (v : MetavoxelVisitor) (d : t) : option t :=
  results ← guideNode fuel v None (Box.minimum (getBounds d)) (_size d)
              ((fun a => root a d) <$> getInputs v)
              ((fun a => root a d) <$> getOutputs v);
  Some (foldl setRoot d (zip (getOutputs v) results)).

(** Modelled from the spec: the query of the value of an attribute at a
    position: the payload of the leaf whose cube holds the position. *)
Fixpoint nodeValueAt (fuel : nat) (n : MetavoxelNode) (minimum : vec3.t)
    (size : float) (position : vec3.t) {struct fuel} : Payload :=
  match n, fuel with
  | mkNode v [], _ => v
  | mkNode v _, O => v
  | mkNode v cs, S fuel' =>
      let halfSize := F32.mul size F32.half in
      let upper c m := F32.ge c (F32.add m halfSize) in
      let i := (Nat.b2n (upper (vec3.x position) (vec3.x minimum))
                + 2 * Nat.b2n (upper (vec3.y position) (vec3.y minimum))
                + 4 * Nat.b2n (upper (vec3.z position) (vec3.z minimum)))%nat in
      match cs !! i with
      | Some c => nodeValueAt fuel' c (childMinimum minimum halfSize i)
                    halfSize position
      | None => v
      end
  end.

Definition getValueAt (fuel : nat) (a : Attribute) (d : t) (position : vec3.t)
  : Payload :=
  match root (Some a) d with
  | Some n => nodeValueAt fuel n (Box.minimum (getBounds d)) (_size d) position
  | None => getDefaultValue a
  end.

(** The spanner collection of an attribute (empty for a null pointer or
    an attribute that has none). *)
Definition spannersOf (a : AttributePointer) (d : t) : list Spanner :=
  from_option (fun a' => default [] (_spanners d !! getName a')) [] a.

Definition setSpanners (a : AttributePointer) (l : list Spanner) (d : t) : t :=
  match a with
  | Some a' => mk (_size d) (_roots d) (<[getName a' := l]> (_spanners d))
  | None => d
  end.

(** The loop [while (!data.getBounds().contains(box)) data.expand();] of
    the edits, run for at most [fuel] expansions. *)
Fixpoint expandToFit (fuel : nat) (box : Box.t) (d : t) : option t :=
  if Box.contains (getBounds d) box then Some d
  else match fuel with
       | O => None
       | S fuel' => expandToFit fuel' box (expand d)
       end.

(** Modelled from the spec: [insert(attribute, object)] adds the spanner
    to the attribute's shared collection (section 4.4); the bounds are to
    contain every inserted region (section 8), so they grow, by the same
    loop, until they contain the spanner's bounds. *)
Definition insert (fuel : nat) (a : AttributePointer) (object : Spanner) (d : t)
  : option t :=
  d1 ← expandToFit fuel (spannerBounds object) d;
  Some (setSpanners a (spannersOf a d1 ++ [object]) d1).

(** Modelled from the spec: [remove(attribute, object)] unlinks the
    spanner from the attribute's collection. *)
Definition remove (a : AttributePointer) (object : Spanner) (d : t) : t :=
  setSpanners a (filter (fun s => address s <> address object) (spannersOf a d)) d.

(** Modelled from the spec: [clear(attribute)] empties the attribute's
    spanner collection. *)
Definition clear (a : AttributePointer) (d : t) : t := setSpanners a [] d.

(** Modelled from the spec: [replace(attribute, oldObject, newObject)]
    puts the new instance where the old one was stored. *)
Definition replace (a : AttributePointer) (oldObject newObject : Spanner) (d : t) : t :=
  setSpanners a
    ((fun s => if same_instance s oldObject then newObject else s)
       <$> spannersOf a d) d.

(** Modelled from the spec: [getIntersecting(attribute, box, results)]
    collects the spanners of the attribute whose bounds intersect the
    box. *)
Definition getIntersecting (a : AttributePointer) (box : Box.t) (d : t) : list Spanner :=
  filter (fun s => Is_true (boundsIntersect box s)) (spannersOf a d).

(** The cube a snapshot covers when it is placed with its lower corner at
    [minimum]. *)
Definition placedBounds (minimum : vec3.t) (other : t) : Box.t :=
  Box.mk minimum (vec3.add minimum (vec3.splat (_size other))).

(** Modelled from the spec: [set(minimum, data, blend)] merges the roots
    of a secondary snapshot into the primary at an offset (section 4.6);
    how two values combine is defined by the attribute and is a parameter
    here.  The bounds are to contain every inserted region (section 8), so
    they grow, by the same loop, until they contain the placed
    snapshot. *)
Definition set
    (merge : vec3.t -> bool -> Attribute -> option MetavoxelNode ->
             MetavoxelNode -> MetavoxelNode)
    (fuel : nat) (minimum : vec3.t) (other : t) (blend : bool) (d : t)
  : option t :=
  d1 ← expandToFit fuel (placedBounds minimum other) d;
  Some (mk (_size d1)
          (map_fold (fun name '(a, n) roots =>
                       <[name := (a, merge minimum blend a (snd <$> roots !! name) n)]>
                         roots)
                    (_roots d1) (_roots other))
          (_spanners d1)).

End MetavoxelData.

(** ** The state an edit runs in *)

(** [WeakSharedObjectHash]: the non-owning table from ids to shared
    objects. *)
Abbreviation WeakSharedObjectHash := (gmap Z Spanner).

Module World.

(** The metavoxel data, the strong reference count of every live shared
    object (by address; an object whose count reaches zero is deleted and
    leaves the table), and what was written to [qDebug()]. *)
Record t : Type := mk {
  data : MetavoxelData.t;
  referenceCounts : gmap positive nat;
  debugLog : list (string * Z)
}.

Definition withData (d : MetavoxelData.t) (w : t) : t :=
  mk d (referenceCounts w) (debugLog w).

Definition alive (object : Spanner) (w : t) : bool :=
  bool_decide (is_Some (referenceCounts w !! address object)).

(** One more strong reference, as a [SharedObjectPointer] is constructed
    or stored.  A fresh object enters the table with its first owner. *)
Definition retain (object : Spanner) (w : t) : t :=
  mk (data w)
     (<[address object := S (default O (referenceCounts w !! address object))]>
        (referenceCounts w))
     (debugLog w).

(** One strong reference fewer, as a [SharedObjectPointer] is destroyed;
    the last one deletes the object. *)
Definition release (object : Spanner) (w : t) : t :=
  mk (data w)
     (match referenceCounts w !! address object with
      | Some (S (S n)) => <[address object := S n]> (referenceCounts w)
      | _ => delete (address object) (referenceCounts w)
      end)
     (debugLog w).

(** [SharedObjectPointer p = object;] from a raw pointer: defined only
    while the object is alive. *)
Definition acquire (object : Spanner) (w : t) : option t :=
  if alive object w then Some (retain object w) else None.

(** Use of a raw pointer to a spanner: defined only while it is alive. *)
Definition deref (object : Spanner) (w : t) : option Spanner :=
  if alive object w then Some object else None.

Definition qDebug (message : string) (n : Z) (w : t) : t :=
  mk (data w) (referenceCounts w) (debugLog w ++ [(message, n)]).

(** The operations of [MetavoxelData] on the state.  The collection owns
    a reference to each spanner it stores. *)
Definition insert (fuel : nat) (a : AttributePointer) (object : Spanner) (w : t)
  : option t :=
  d ← MetavoxelData.insert fuel a object (data w);
  Some (withData d (retain object w)).

Definition remove (a : AttributePointer) (object : Spanner) (w : t) : t :=
  let stored :=
    filter (fun s => address s = address object)
           (MetavoxelData.spannersOf a (data w)) in
  withData (MetavoxelData.remove a object (data w))
           (foldl (fun acc s => release s acc) w stored).

Definition clear (a : AttributePointer) (w : t) : t :=
  withData (MetavoxelData.clear a (data w))
           (foldl (fun acc s => release s acc) w
                  (MetavoxelData.spannersOf a (data w))).

Definition replace (a : AttributePointer) (oldObject newObject : Spanner) (w : t) : t :=
  let stored :=
    filter (fun s => address s = address oldObject)
           (MetavoxelData.spannersOf a (data w)) in
  withData (MetavoxelData.replace a oldObject newObject (data w))
           (foldl (fun acc s => release s (retain newObject acc)) w stored).

Definition expandToFit (fuel : nat) (box : Box.t) (w : t) : option t :=
  d ← MetavoxelData.expandToFit fuel box (data w); Some (withData d w).

Definition guide (fuel : nat) (v : MetavoxelVisitor) (w : t) : option t :=
  d ← MetavoxelData.guide fuel v (data w); Some (withData d w).

End World.

(** The attribute-defined combination [MetavoxelData::set] uses. *)
Class AttributeMerge : Type := {
  mergeNodes : vec3.t -> bool -> Attribute -> option MetavoxelNode ->
               MetavoxelNode -> MetavoxelNode
}.

(** ** Edits shared by both revisions *)

(** [BoxSetEdit::apply]. *)
Definition BoxSetEdit_apply (fuel : nat) (e : BoxSetEdit)
    (objects : WeakSharedObjectHash) (w : World.t) : option World.t :=
  (* expand to fit the entire edit *)
  w1 ← World.expandToFit fuel (region e) w;
  World.guide fuel (BoxSetEditVisitor e) w1.

(** [GlobalSetEdit::apply]. *)
Definition GlobalSetEdit_apply (fuel : nat) (e : GlobalSetEdit)
    (objects : WeakSharedObjectHash) (w : World.t) : option World.t :=
  World.guide fuel (GlobalSetEditVisitor e) w.

Record InsertSpannerEdit : Type := mkInsertSpannerEdit {
  insertAttribute : AttributePointer;
  insertSpanner : Spanner
}.

Record RemoveSpannerEdit : Type := mkRemoveSpannerEdit {
  removeAttribute : AttributePointer;
  id : Z
}.

Record ClearSpannersEdit : Type := mkClearSpannersEdit {
  clearAttribute : AttributePointer
}.

(** [ClearSpannersEdit::apply]. *)
Definition ClearSpannersEdit_apply (e : ClearSpannersEdit)
    (objects : WeakSharedObjectHash) (w : World.t) : option World.t :=
  Some (World.clear (clearAttribute e) w).

(** ** Revision A: lines 1-203 of the translation unit *)

Module MessagesA.
Section Edits.
Context `{AttributeRegistry} `{SpannerInterface} `{AttributeMerge}.

(** [InsertSpannerEdit::apply]. *)
Definition InsertSpannerEdit_apply (fuel : nat) (e : InsertSpannerEdit)
    (objects : WeakSharedObjectHash) (w : World.t) : option World.t :=
  World.insert fuel (insertAttribute e) (insertSpanner e) w.

(** [RemoveSpannerEdit::apply]. *)
Definition RemoveSpannerEdit_apply (e : RemoveSpannerEdit)
    (objects : WeakSharedObjectHash) (w : World.t) : option World.t :=
  match objects !! id e with
  | Some object => Some (World.remove (removeAttribute e) object w)
  | None => Some w
  end.

Record SetDataEdit : Type := mkSetDataEdit {
  setMinimum : vec3.t;
  setData : MetavoxelData.t;
  blend : bool
}.

(** [SetDataEdit::apply]. *)
Definition SetDataEdit_apply (fuel : nat) (e : SetDataEdit)
    (objects : WeakSharedObjectHash) (w : World.t) : option World.t :=
  d ← MetavoxelData.set mergeNodes fuel (setMinimum e) (setData e) (blend e)
        (World.data w);
  Some (World.withData d w).

Record PaintHeightfieldHeightEdit : Type := mkPaintHeightfieldHeightEdit {
  position : vec3.t;
  radius : float;
  height : float
}.

(** [PaintHeightfieldHeightEdit::apply].  The references the [results]
    vector holds are taken and dropped within the call. *)
Definition PaintHeightfieldHeightEdit_apply (e : PaintHeightfieldHeightEdit)
    (objects : WeakSharedObjectHash) (w : World.t) : option World.t :=
  (* increase the extents slightly to include neighboring tiles *)
  let RADIUS_EXTENSION := F32.one_point_one in
  let extents := vec3.scale (vec3.splat (radius e)) RADIUS_EXTENSION in
  let results :=
    MetavoxelData.getIntersecting (Some getSpannersAttribute)
      (Box.mk (vec3.sub (position e) extents) (vec3.add (position e) extents))
      (World.data w) in
  Some (foldl
          (fun acc spanner =>
             let newSpanner := paintHeight spanner (position e) (radius e) (height e) in
             if negb (same_instance newSpanner spanner)
             then World.replace (Some getSpannersAttribute) spanner newSpanner acc
             else acc)
          w results).

(** [MaterialEdit] with the members [HeightfieldMaterialSpannerEdit]
    adds. *)
Record HeightfieldMaterialSpannerEdit : Type := mkHeightfieldMaterialSpannerEdit {
  material : positive;
  averageColor : QColor.t;
  materialSpanner : Spanner;
  paint : bool
}.

(** The local [color] of [HeightfieldMaterialSpannerEdit::apply] once the
    transparency requirements are applied. *)
Definition HeightfieldMaterialSpannerEdit_color
    (e : HeightfieldMaterialSpannerEdit) : QColor.t :=
  let color := averageColor e in
  if paint e then QColor.setAlphaF_one color
  else if SFltb (QColor.alphaF color) QColor.qreal_half
       then QColor.of_rgba 0 0 0 0
       else color.

(** [HeightfieldMaterialSpannerEdit::apply]. *)
Definition HeightfieldMaterialSpannerEdit_apply (e : HeightfieldMaterialSpannerEdit)
    (objects : WeakSharedObjectHash) (w : World.t) : option World.t :=
  (* make sure the color meets our transparency requirements *)
  let color := HeightfieldMaterialSpannerEdit_color e in
  let results :=
    MetavoxelData.getIntersecting (Some getSpannersAttribute)
      (getBounds (materialSpanner e)) (World.data w) in
  Some (foldl
          (fun acc result =>
             let newResult :=
               setMaterial result (materialSpanner e) (material e) color (paint e) in
             if negb (same_instance newResult result)
             then World.replace (Some getSpannersAttribute) result newResult acc
             else acc)
          w results).

(** The edits of this revision; [OtherEdit] is a [MetavoxelEdit] that does
    not override [apply]. *)
Inductive MetavoxelEdit : Type :=
  | BoxSet (e : BoxSetEdit)
  | GlobalSet (e : GlobalSetEdit)
  | InsertSpanner (e : InsertSpannerEdit)
  | RemoveSpanner (e : RemoveSpannerEdit)
  | ClearSpanners (e : ClearSpannersEdit)
  | SetData (e : SetDataEdit)
  | PaintHeightfieldHeight (e : PaintHeightfieldHeightEdit)
  | HeightfieldMaterialSpanner (e : HeightfieldMaterialSpannerEdit)
  | OtherEdit.

(** [MetavoxelEditMessage::apply]: the virtual call on the edit. *)
Definition MetavoxelEditMessage_apply (fuel : nat) (edit : MetavoxelEdit)
    (objects : WeakSharedObjectHash) (w : World.t) : option World.t :=
  match edit with
  | BoxSet e => BoxSetEdit_apply fuel e objects w
  | GlobalSet e => GlobalSetEdit_apply fuel e objects w
  | InsertSpanner e => InsertSpannerEdit_apply fuel e objects w
  | RemoveSpanner e => RemoveSpannerEdit_apply e objects w
  | ClearSpanners e => ClearSpannersEdit_apply e objects w
  | SetData e => SetDataEdit_apply fuel e objects w
  | PaintHeightfieldHeight e => PaintHeightfieldHeightEdit_apply e objects w
  | HeightfieldMaterialSpanner e => HeightfieldMaterialSpannerEdit_apply e objects w
  | OtherEdit => Some w (* nothing by default *)
  end.

End Edits.
End MessagesA.

(** ** Revision B: lines 204-425 of the translation unit *)

Module MessagesB.
Section Edits.
Context `{AttributeRegistry} `{Libm} `{SpannerInterface}.

(** [InsertSpannerEdit::apply]. *)
Definition InsertSpannerEdit_apply (fuel : nat) (e : InsertSpannerEdit)
    (objects : WeakSharedObjectHash) (w : World.t) : option World.t :=
  w1 ← World.insert fuel (insertAttribute e) (insertSpanner e) w;
  let spanner := insertSpanner e in
  visitor ← UpdateSpannerVisitor_new (Some <$> getVoxelizedAttributes spanner) spanner;
  World.guide fuel (UpdateSpannerVisitor_visitor visitor) w1.

(** [RemoveSpannerEdit::apply]. *)
Definition RemoveSpannerEdit_apply (fuel : nat) (e : RemoveSpannerEdit)
    (objects : WeakSharedObjectHash) (w : World.t) : option World.t :=
  match objects !! id e with
  | None => Some (World.qDebug "Missing object to remove" (id e) w)
  | Some object =>
      (* keep a strong reference to the object *)
      w1 ← World.acquire object w;
      let w2 := World.remove (removeAttribute e) object w1 in
      spanner ← World.deref object w2;
      visitor ← UpdateSpannerVisitor_new
                  (Some <$> getVoxelizedAttributes spanner) spanner;
      w3 ← World.guide fuel (UpdateSpannerVisitor_visitor visitor) w2;
      (* the strong reference goes out of scope *)
      Some (World.release object w3)
  end.

Record SetSpannerEdit : Type := mkSetSpannerEdit {
  setSpanner : Spanner
}.

(** [SetSpannerEdit::apply]. *)
Definition SetSpannerEdit_apply (fuel : nat) (e : SetSpannerEdit)
    (objects : WeakSharedObjectHash) (w : World.t) : option World.t :=
  let spanner := setSpanner e in
  (* expand to fit the entire spanner *)
  w1 ← World.expandToFit fuel (getBounds spanner) w;
  World.guide fuel
    (SetSpannerEditVisitor (Some <$> getAttributes spanner) spanner) w1.

Inductive MetavoxelEdit : Type :=
  | BoxSet (e : BoxSetEdit)
  | GlobalSet (e : GlobalSetEdit)
  | InsertSpanner (e : InsertSpannerEdit)
  | RemoveSpanner (e : RemoveSpannerEdit)
  | ClearSpanners (e : ClearSpannersEdit)
  | SetSpanner (e : SetSpannerEdit).

(** [MetavoxelEditMessage::apply]: the virtual call on the edit. *)
Definition MetavoxelEditMessage_apply (fuel : nat) (edit : MetavoxelEdit)
    (objects : WeakSharedObjectHash) (w : World.t) : option World.t :=
  match edit with
  | BoxSet e => BoxSetEdit_apply fuel e objects w
  | GlobalSet e => GlobalSetEdit_apply fuel e objects w
  | InsertSpanner e => InsertSpannerEdit_apply fuel e objects w
  | RemoveSpanner e => RemoveSpannerEdit_apply fuel e objects w
  | ClearSpanners e => ClearSpannersEdit_apply e objects w
  | SetSpanner e => SetSpannerEdit_apply fuel e objects w
  end.

End Edits.
End MessagesB.

(** ** Quantities the properties are stated over *)

(** The info reached from [info] by following [n] [parentInfo] links, if the
    chain is that long. *)
Fixpoint ancestor (n : nat) (info : MetavoxelInfo.t) : option MetavoxelInfo.t :=
  match n with
  | O => Some info
  | S k => p ← MetavoxelInfo.parentInfo info; ancestor k p
  end.

(** The number of [parentInfo] links between [info] and the root info. *)
Fixpoint depth (info : MetavoxelInfo.t) : nat :=
  match MetavoxelInfo.parentInfo info with
  | Some p => S (depth p)
  | None => O
  end.

(** The node info with every output slot holding the default value of the
    visitor's output attribute. *)
Definition withDefaults (outputs : list AttributePointer) (info : MetavoxelInfo.t)
  : MetavoxelInfo.t :=
  MetavoxelInfo.mk (MetavoxelInfo.minimum info) (MetavoxelInfo.size info)
    (MetavoxelInfo.parentInfo info) (MetavoxelInfo.inputValues info)
    (AttributeValue_of <$> outputs).

(** The subdivision decision of the update visitor. *)
Definition subdivideWhileLarger (v : UpdateSpannerVisitor) (info : MetavoxelInfo.t)
  : VisitOrder :=
  if F32.gt (MetavoxelInfo.size info) (_voxelizationSize v)
  then DEFAULT_ORDER else STOP_RECURSION.

#[global] Instance spec_float_eq_dec : EqDecision spec_float.
Proof. solve_decision. Defined.

(** The binary32 value [2^k], for an exponent in the normal range
    [-126 <= k <= 127]. *)
Definition pow2 (k : Z) : float := S754_finite false 8388608 (k - 23).

(** The cube of edge [2^k] centred on the origin. *)
Definition originCube (k : Z) : Box.t :=
  Box.mk (vec3.splat (F32.opp (pow2 (k - 1)))) (vec3.splat (pow2 (k - 1))).

(** The region an edit asks the bounds to contain before it traverses. *)
Definition regionOfA (edit : MessagesA.MetavoxelEdit) : option Box.t :=
  match edit with
  | MessagesA.BoxSet e => Some (region e)
  | MessagesA.InsertSpanner e => Some (getBounds (insertSpanner e))
  | MessagesA.SetData e =>
      Some (MetavoxelData.placedBounds (MessagesA.setMinimum e) (MessagesA.setData e))
  | _ => None
  end.

Definition regionOfB (edit : MessagesB.MetavoxelEdit) : option Box.t :=
  match edit with
  | MessagesB.BoxSet e => Some (region e)
  | MessagesB.InsertSpanner e => Some (getBounds (insertSpanner e))
  | MessagesB.SetSpanner e => Some (getBounds (MessagesB.setSpanner e))
  | _ => None
  end.

(** What it means for the bounds of [d'] to have grown from those of [d], a
    cube of edge [2^k], by doubling only, just far enough for [target]: the
    edge is the old one doubled [n] times, the bounds are again a
    power-of-two cube centred on the origin, they contain the old bounds,
    they contain the target region, and no cube met on the way did. *)
Definition grownByDoubling (k : Z) (target : option Box.t)
    (d d' : MetavoxelData.t) : Prop :=
  exists n : nat,
    MetavoxelData._size d' =
      Nat.iter n (fun s => F32.mul s F32.two) (MetavoxelData._size d) /\
    k + Z.of_nat n <= 127 /\
    MetavoxelData._size d' = pow2 (k + Z.of_nat n) /\
    MetavoxelData.getBounds d' = originCube (k + Z.of_nat n) /\
    Box.contains (MetavoxelData.getBounds d') (MetavoxelData.getBounds d) = true /\
    forall box, target = Some box ->
      Box.contains (MetavoxelData.getBounds d') box = true /\
      forall j : nat, (j < n)%nat ->
        Box.contains (originCube (k + Z.of_nat j)) box = false.

Definition is_nan (a : float) : bool :=
  match a with
  | S754_nan => true
  | _ => false
  end.

(** The cube without bounds, which the bounds of a data of infinite edge
    are. *)
Definition infiniteCube : Box.t :=
  Box.mk (vec3.splat (S754_infinity true)) (vec3.splat (S754_infinity false)).

(** Some coordinate of the box is a NaN. *)
Definition hasNaN (box : Box.t) : bool :=
  is_nan (vec3.x (Box.minimum box)) || is_nan (vec3.y (Box.minimum box))
  || is_nan (vec3.z (Box.minimum box)) || is_nan (vec3.x (Box.maximum box))
  || is_nan (vec3.y (Box.maximum box)) || is_nan (vec3.z (Box.maximum box)).

(** The region, if there is one, lies within the largest cube of finite
    edge, [2^127]. *)
Definition fitsFinite (target : option Box.t) : bool :=
  match target with
  | Some box => Box.contains (originCube 127) box
  | None => true
  end.

(** What the bounds of [d'] are when the region does not fit into any
    cube of finite edge: the edge was doubled from [2^k] until the
    doubling of [2^127] gave infinity, no cube on the way held the region,
    and the bounds are the cube without bounds, which holds the old bounds
    and the region. *)
Definition overflown (k : Z) (target : option Box.t)
    (d d' : MetavoxelData.t) : Prop :=
  MetavoxelData._size d' =
    Nat.iter (Z.to_nat (128 - k)) (fun s => F32.mul s F32.two)
             (MetavoxelData._size d) /\
  MetavoxelData._size d' = S754_infinity false /\
  MetavoxelData.getBounds d' = infiniteCube /\
  Box.contains (MetavoxelData.getBounds d') (MetavoxelData.getBounds d) = true /\
  forall box, target = Some box ->
    hasNaN box = false /\
    Box.contains (MetavoxelData.getBounds d') box = true /\
    forall j, k <= j <= 127 -> Box.contains (originCube j) box = false.

(** The bounds an edit leaves. *)
Definition boundsAfter (k : Z) (target : option Box.t)
    (d d' : MetavoxelData.t) : Prop :=
  if fitsFinite target then grownByDoubling k target d d'
  else overflown k target d d'.

(** The edits of revision A that run a traversal. *)
Definition traversesA (edit : MessagesA.MetavoxelEdit) : bool :=
  match edit with
  | MessagesA.BoxSet _ | MessagesA.GlobalSet _ => true
  | _ => false
  end.

(** One round of the loop of the paint and material edits, seen on the
    collection alone: [r] is a query result, [fresh r] what the spanner
    returned for it. *)
Definition replaceStep (fresh : Spanner -> Spanner) (c : list Spanner)
    (r : Spanner) : list Spanner :=
  if negb (same_instance (fresh r) r)
  then (fun s => if same_instance s r then fresh r else s) <$> c
  else c.

(** The entry stored for [s] once the results [done] were gone through:
    the new instance if [s] is among them and returned one, [s] itself
    otherwise. *)
Definition entryAfter (fresh : Spanner -> Spanner) (done : list Spanner)
    (s : Spanner) : Spanner :=
  if decide (Exists (fun r => address r = address s) done)
  then (if negb (same_instance (fresh s) s) then fresh s else s)
  else s.

(** The box [PaintHeightfieldHeightEdit::apply] queries. *)
Definition paintBox (e : MessagesA.PaintHeightfieldHeightEdit) : Box.t :=
  let extents :=
    vec3.scale (vec3.splat (MessagesA.radius e)) F32.one_point_one in
  Box.mk (vec3.sub (MessagesA.position e) extents)
         (vec3.add (MessagesA.position e) extents).

(** The base-2 logarithm as the constructor of the update visitor computes
    it. *)
Definition log2f `{Libm} (a : float) : float := F32.div (logf a) (logf F32.two).

(** The spanner set an info holds in the input slot of the spanners
    attribute, which follows the [n] inputs that are also outputs. *)
Definition spannerSet (n : nat) (p : MetavoxelInfo.t) : option (list Spanner) :=
  set ← MetavoxelInfo.inputValues p !! n;
  Some (getInlineValue_SharedObjectSet (getValue set)).

(** ** Concrete inputs *)

Module Examples.
(** Small binary32 constants and a unit cube at the origin. *)
Definition f (n : Z) : float := F32.of_Z n.
Definition origin : vec3.t := vec3.splat F32.zero.
Definition colorAttribute : Attribute :=
  mkAttribute "color" (f 1) (Inline 0).
Definition red : AttributeValue :=
  mkAttributeValue (Some colorAttribute) (Inline 255).
Definition unitNode : MetavoxelInfo.t :=
  MetavoxelInfo.mk origin (f 1) None [] [unset].
(** A region covering the half [x <= 0.5] of the unit cube, painted at a
    granularity equal to the node size. *)
Definition halfRegion : Box.t :=
  Box.mk origin (vec3.mk F32.half (f 1) (f 1)).
Definition halfEdit : BoxSetEdit := mkBoxSetEdit halfRegion (f 1) red.
(** The same with the region a quarter wide. *)
Definition quarterRegion : Box.t :=
  Box.mk origin (vec3.mk (F32.mul F32.half F32.half) (f 1) (f 1)).
Definition quarterEdit : BoxSetEdit := mkBoxSetEdit quarterRegion (f 1) red.

(** A registry whose spanners attribute has LOD threshold multiplier 8. *)
Definition spannersAttribute : Attribute :=
  mkAttribute "spanners" (f 8) (ObjectSet []).
Definition registry : AttributeRegistry :=
  {| getSpannersAttribute := spannersAttribute |}.

(** [logf] on the two arguments the examples need, correctly rounded:
    [logf(2) = 0x3F317218] and [logf(8) = 0x40051592]. *)
Definition libm : Libm :=
  {| logf := fun a =>
       if SFeqb a (f 2) then S754_finite false 11629080 (-24)
       else if SFeqb a (f 8) then S754_finite false 8721810 (-22)
       else F32.nan |}.

(** Spanners whose blending appends them to the set in the first output
    slot, so that the output shows what was blended and in which order;
    painting or setting a material yields a new instance for a spanner at
    an even address and the receiver itself at an odd one. *)
Definition record (s : Spanner) (v : AttributeValue) : AttributeValue :=
  mkAttributeValue (getAttribute v)
    (ObjectSet (getInlineValue_SharedObjectSet (getValue v) ++ [s])).
Definition successor (s : Spanner) : Spanner :=
  match address s with
  | xO _ => mkSpanner (address s + 100) (getBounds s) (getPlacementGranularity s)
              (getVoxelizedAttributes s) (getAttributes s)
  | _ => s
  end.
Definition spanners : SpannerInterface :=
  {| blendAttributeValues := fun s info force =>
       (false,
        MetavoxelInfo.mk (MetavoxelInfo.minimum info) (MetavoxelInfo.size info)
          (MetavoxelInfo.parentInfo info) (MetavoxelInfo.inputValues info)
          (match MetavoxelInfo.outputValues info with
           | v :: rest => record s v :: rest
           | [] => []
           end));
     paintHeight := fun s _ _ _ => successor s;
     setMaterial := fun s _ _ _ _ => successor s |}.

Definition unitBox : Box.t := Box.mk origin (vec3.splat (f 1)).
Definition spanner (a : positive) : Spanner :=
  mkSpanner a unitBox (f 1) [colorAttribute] [colorAttribute].

(** A chain of three infos over the unit cube: the root holds the spanner
    set [{2}], its child the set [{1}], and the grandchild none. *)
Definition setValue (l : list Spanner) : AttributeValue :=
  mkAttributeValue (Some spannersAttribute) (ObjectSet l).
Definition colorInput : AttributeValue := AttributeValue_of (Some colorAttribute).
Definition rootInfo : MetavoxelInfo.t :=
  MetavoxelInfo.mk origin (f 1) None [colorInput; setValue [spanner 2]] [unset].
Definition childInfo : MetavoxelInfo.t :=
  MetavoxelInfo.mk origin F32.half (Some rootInfo)
    [colorInput; setValue [spanner 1]] [unset].
Definition grandchildInfo : MetavoxelInfo.t :=
  MetavoxelInfo.mk origin (F32.mul F32.half F32.half) (Some childInfo)
    [colorInput; setValue []] [unset].

(** The update visitor of [spanner 5] with one ancestor step. *)
Definition updateVisitor : UpdateSpannerVisitor :=
  mkUpdateSpannerVisitor [Some colorAttribute; Some spannersAttribute]
    [Some colorAttribute] (spanner 5) (F32.mul (f 2) F32.half) 1.

(** A world of edge 1 that stores the spanners 5 and 6, each owned by the
    collection alone, and an object table that knows spanner 5 as id 7. *)
Definition data0 : MetavoxelData.t :=
  MetavoxelData.mk (f 1) ∅ {[ "spanners"%string := [spanner 5; spanner 6] ]}.
Definition world0 : World.t :=
  World.mk data0 {[ 5%positive := 1%nat; 6%positive := 1%nat ]} [].
Definition objects0 : WeakSharedObjectHash := {[ 7 := spanner 5 ]}.
Definition insert9 : InsertSpannerEdit :=
  mkInsertSpannerEdit (Some spannersAttribute) (spanner 9).
Definition remove7 : RemoveSpannerEdit :=
  mkRemoveSpannerEdit (Some spannersAttribute) 7.
Definition remove8 : RemoveSpannerEdit :=
  mkRemoveSpannerEdit (Some spannersAttribute) 8.
(** A material edit that does not paint, with an average colour of alpha
    0.4 ([qRound(0.4 * 65535) = 26214]) and of alpha 0.6 (39321). *)
Definition orange (alpha : Z) : QColor.t :=
  QColor.mk QColor.Rgb alpha (255 * 257) (128 * 257) 0.
Definition materialEdit (alpha : Z) (paint : bool)
  : MessagesA.HeightfieldMaterialSpannerEdit :=
  MessagesA.mkHeightfieldMaterialSpannerEdit 77 (orange alpha) (spanner 9) paint.

(** A world whose colour root is subdivided, the eight children holding
    the values 0 to 7, and the edit that sets red everywhere. *)
Definition paintedWorld : World.t :=
  World.mk
    (MetavoxelData.mk (f 1)
       {[ "color"%string :=
            (colorAttribute,
             mkNode (Inline 0)
               ((fun i => MetavoxelData.leaf (Inline (Z.of_nat i))) <$> seq 0 8)) ]}
       ∅)
    ∅ [].
Definition globalRed : GlobalSetEdit := mkGlobalSetEdit red.

(** Painting a height around the centre of the unit cube. *)
Definition paintEdit : MessagesA.PaintHeightfieldHeightEdit :=
  MessagesA.mkPaintHeightfieldHeightEdit (vec3.splat F32.half) (f 1) (f 1).

(** A box-set edit over the cube [[0, 3]^3], which a world of edge 1 has
    to double three times to contain. *)
Definition farEdit : BoxSetEdit :=
  mkBoxSetEdit (Box.mk origin (vec3.splat (f 3))) (f 8) red.
Definition merge : AttributeMerge :=
  {| mergeNodes := fun _ _ _ _ n => n |}.

(** The update visitor built for [spanner 9] under [registry] and
    [libm]. *)
Definition insertVisitor : UpdateSpannerVisitor :=
  mkUpdateSpannerVisitor [Some colorAttribute; Some spannersAttribute]
    [Some colorAttribute] (spanner 9) (F32.mul F32.half F32.half) 1.
End Examples.

(** ** The order of the binary32 comparisons *)

(** [SFcompare] orders the values that are not NaN by sign, then exponent,
    then mantissa.  [orderKey] is the position of a value in that order. *)
Definition orderKey (a : float) : option (Z * Z * Z) :=
  match a with
  | S754_nan => None
  | S754_infinity true => Some (-2, 0, 0)
  | S754_finite true m e => Some (-1, - e, - Z.pos m)
  | S754_zero _ => Some (0, 0, 0)
  | S754_finite false m e => Some (1, e, Z.pos m)
  | S754_infinity false => Some (2, 0, 0)
  end.

Definition keyLt (a b : Z * Z * Z) : Prop :=
  let '(a1, a2, a3) := a in
  let '(b1, b2, b3) := b in
  a1 < b1 \/ (a1 = b1 /\ (a2 < b2 \/ (a2 = b2 /\ a3 < b3))).

Definition keyLe (a b : Z * Z * Z) : Prop := keyLt a b \/ a = b.

(** ** Network packets (NetworkPacket.cpp) *)

Module NetworkPacket.

(** [SharedNodePointer]: a shared pointer to the sending node, null or the
    address of the node.  [QByteArray]: the bytes of the packet. *)
Definition SharedNodePointer : Type := option positive.
Definition QByteArray : Type := list Byte.byte.

(** [QByteArray::size()]. *)
Definition size (b : QByteArray) : Z := Z.of_nat (length b).

(** The members [_sendingNode] and [_byteArray] (NetworkPacket.h declares
    them; [getSendingNode] and [getByteArray] return them). *)
Record t : Type := mk {
  getSendingNode : SharedNodePointer;
  getByteArray : QByteArray
}.

(** A packet whose members were default-constructed and not assigned. *)
Definition unassigned : t := mk None [].

Section Limit.
(** [MAX_PACKET_SIZE], a constant of the networking library. *)
Variable MAX_PACKET_SIZE : Z.

(** [NetworkPacket::copyContents], on the packet [this] and the debug log. *)
Definition copyContents (sendingNode : SharedNodePointer) (packet : QByteArray)
    (st : t * list (string * Z)) : t * list (string * Z) :=
  let '(this, log) := st in
  if negb (size packet =? 0) && (size packet <=? MAX_PACKET_SIZE)
  then (mk sendingNode packet, log)
  else (this,
        log ++ [(">>> NetworkPacket::copyContents() unexpected length = %d"%string,
                 size packet)]).

(** [NetworkPacket::NetworkPacket(const NetworkPacket&)]. *)
Definition copy_construct (packet : t) (log : list (string * Z))
  : t * list (string * Z) :=
  copyContents (getSendingNode packet) (getByteArray packet) (unassigned, log).

(** [NetworkPacket::NetworkPacket(const SharedNodePointer&, const
    QByteArray&)]. *)
Definition construct (sendingNode : SharedNodePointer) (packet : QByteArray)
    (log : list (string * Z)) : t * list (string * Z) :=
  copyContents sendingNode packet (unassigned, log).

(** [NetworkPacket::operator=(NetworkPacket const&)], on the packet
    assigned to. *)
Definition assign (this other : t) (log : list (string * Z))
  : t * list (string * Z) :=
  copyContents (getSendingNode other) (getByteArray other) (this, log).

(** The move constructor and the move assignment, compiled under
    [HAS_MOVE_SEMANTICS], have the bodies of their copying
    counterparts. *)
Definition move_construct (packet : t) (log : list (string * Z))
  : t * list (string * Z) :=
  copyContents (getSendingNode packet) (getByteArray packet) (unassigned, log).

Definition move_assign (this other : t) (log : list (string * Z))
  : t * list (string * Z) :=
  copyContents (getSendingNode other) (getByteArray other) (this, log).

(** What every packet satisfies: it is unassigned, or it holds between one
    and [MAX_PACKET_SIZE] bytes. *)
Definition wellFormed (p : t) : Prop :=
  p = unassigned \/ 0 < size (getByteArray p) <= MAX_PACKET_SIZE.

End Limit.
End NetworkPacket.

(** ** Quantities the further properties are stated over *)

(** The edit with another granularity. *)
Definition withGranularity (g : float) (e : BoxSetEdit) : BoxSetEdit :=
  mkBoxSetEdit (region e) g (value e).

(** On one axis: the node from [m] with edge [s] lies within [[lo, hi]],
    and the upper corner [m + s] is exact, so that [(m + s) - m] is [s]
    again. *)
Definition axisInside (lo hi m s : float) : bool :=
  F32.le lo m && F32.le (F32.add m s) hi.
Definition axisExact (m s : float) : Prop := F32.sub (F32.add m s) m = s.

(** The node lies within the region on every axis. *)
Definition nodeInside (r : Box.t) (info : MetavoxelInfo.t) : bool :=
  let m := MetavoxelInfo.minimum info in
  let s := MetavoxelInfo.size info in
  axisInside (vec3.x (Box.minimum r)) (vec3.x (Box.maximum r)) (vec3.x m) s &&
  axisInside (vec3.y (Box.minimum r)) (vec3.y (Box.maximum r)) (vec3.y m) s &&
  axisInside (vec3.z (Box.minimum r)) (vec3.z (Box.maximum r)) (vec3.z m) s.

(** The upper corner of the node is exact on every axis. *)
Definition cornerExact (info : MetavoxelInfo.t) : Prop :=
  let m := MetavoxelInfo.minimum info in
  let s := MetavoxelInfo.size info in
  axisExact (vec3.x m) s /\ axisExact (vec3.y m) s /\ axisExact (vec3.z m) s.

(** [n] is the integer nearest to the value of [x], which for a finite
    [x] is [(-1)^s * m * 2^e]: [|n| - 1/2 <= |x| < |n| + 1/2], with the
    sign of [x].  Halfway between two integers it is the one farther from
    zero. *)
Definition nearestInteger (x : float) (n : Z) : Prop :=
  match x with
  | S754_zero _ => n = 0
  | S754_finite s m e =>
      (if s then n <= 0 else 0 <= n) /\
      (2 * Z.abs n - 1) * 2 ^ Z.max 0 (- e) <= 2 * (Z.pos m * 2 ^ Z.max 0 e)
        < (2 * Z.abs n + 1) * 2 ^ Z.max 0 (- e)
  | _ => False
  end.

(** [larger] is one of [a] and [b], and neither is greater, NaNs apart. *)
Definition largerOf (a b larger : float) : Prop :=
  (larger = a \/ larger = b) /\
  (is_nan a = false -> is_nan b = false ->
   F32.le a larger = true /\ F32.le b larger = true).

(** The value whose rounding is the step count of the update visitor. *)
Definition stepsValue `{AttributeRegistry} `{Libm} : float :=
  F32.sub (log2f (getLODThresholdMultiplier getSpannersAttribute)) F32.two.

(** The blending of every spanner leaves the size of the node info as it
    found it. *)
Definition keepsSize `{SpannerInterface} : Prop :=
  forall s info force,
    MetavoxelInfo.size (snd (blendAttributeValues s info force)) =
    MetavoxelInfo.size info.

(** The collection of an attribute stores the same objects, in the same
    order, in both worlds, and the reference counts, the log and the edge
    of the bounds agree. *)
Definition sameObjects (a : AttributePointer) (w w' : World.t) : Prop :=
  address <$> MetavoxelData.spannersOf a (World.data w') =
    address <$> MetavoxelData.spannersOf a (World.data w) /\
  World.referenceCounts w' = World.referenceCounts w /\
  World.debugLog w' = World.debugLog w /\
  MetavoxelData._size (World.data w') = MetavoxelData._size (World.data w).

(** The update visitor with another step count. *)
Definition withSteps (n : Z) (v : UpdateSpannerVisitor) : UpdateSpannerVisitor :=
  mkUpdateSpannerVisitor (_inputs v) (_outputs v) (_spanner v)
    (_voxelizationSize v) n.

(** The material edit with another average colour. *)
Definition withAverageColor (c : QColor.t)
    (e : MessagesA.HeightfieldMaterialSpannerEdit)
  : MessagesA.HeightfieldMaterialSpannerEdit :=
  MessagesA.mkHeightfieldMaterialSpannerEdit (MessagesA.material e) c
    (MessagesA.materialSpanner e) (MessagesA.paint e).

(** ** More concrete inputs *)

Module MoreExamples.
(** A two-byte packet from the node at address 3, and a three-byte one from
    the node at address 4. *)
Definition twoBytes : NetworkPacket.t :=
  NetworkPacket.mk (Some 3%positive) [Byte.x01; Byte.x02].
Definition threeBytes : NetworkPacket.t :=
  NetworkPacket.mk (Some 4%positive) [Byte.x0a; Byte.x0b; Byte.x0c].

(** The node of edge 1/2 at [(-1/2, 0, 1/2)], with one output slot, and an
    edit over [[-1, 1]^3] at granularity 1/4. *)
Definition halfNode : MetavoxelInfo.t :=
  MetavoxelInfo.mk (vec3.mk (F32.opp F32.half) F32.zero F32.half) F32.half
    None [] [unset].
Definition wideEdit : BoxSetEdit :=
  mkBoxSetEdit
    (Box.mk (vec3.splat (F32.of_Z (-1))) (vec3.splat (F32.of_Z 1)))
    (F32.mul F32.half F32.half) Examples.red.

(** Spanners whose blending doubles the size the node info holds and
    writes nothing else. *)
Definition growing : SpannerInterface :=
  {| blendAttributeValues := fun _ info _ =>
       (false,
        MetavoxelInfo.mk (MetavoxelInfo.minimum info)
          (F32.mul (MetavoxelInfo.size info) F32.two)
          (MetavoxelInfo.parentInfo info) (MetavoxelInfo.inputValues info)
          (MetavoxelInfo.outputValues info));
     paintHeight := fun s _ _ _ => s;
     setMaterial := fun s _ _ _ _ => s |}.

(** A registry whose spanners attribute has LOD threshold multiplier 6,
    and [logf] on 2 and 6, correctly rounded: [logf(6) = 0x3FE55860].  The
    base-2 logarithm computed from them is about 2.585. *)
Definition registry6 : AttributeRegistry :=
  {| getSpannersAttribute :=
       mkAttribute "spanners" (Examples.f 6) (ObjectSet []) |}.
Definition libm6 : Libm :=
  {| logf := fun a =>
       if SFeqb a (Examples.f 2) then S754_finite false 11629080 (-24)
       else if SFeqb a (Examples.f 6) then S754_finite false 15030368 (-23)
       else F32.nan |}.
(** The update visitor built for [Examples.spanner 9] under them. *)
Definition visitor6 : UpdateSpannerVisitor :=
  mkUpdateSpannerVisitor
    [Some Examples.colorAttribute;
     Some (mkAttribute "spanners" (Examples.f 6) (ObjectSet []))]
    [Some Examples.colorAttribute] (Examples.spanner 9)
    (F32.div F32.two (Examples.f 6)) 1.

(** A spanner whose bounds reach [2^127] on every axis, beyond the largest
    cube of finite edge, which reaches [2^126]; and one whose bounds have
    a NaN. *)
Definition hugeSpanner : Spanner :=
  mkSpanner 9 (Box.mk Examples.origin (vec3.splat (pow2 127))) (Examples.f 1)
    [Examples.colorAttribute] [Examples.colorAttribute].
Definition nanSpanner : Spanner :=
  mkSpanner 9 (Box.mk Examples.origin (vec3.mk (Examples.f 1) F32.nan (Examples.f 1)))
    (Examples.f 1) [Examples.colorAttribute] [Examples.colorAttribute].

(** A world of edge 1 that stores the spanners 5 and 7, which
    [Examples.spanners] paints in place. *)
Definition oddWorld : World.t :=
  World.mk
    (MetavoxelData.mk (Examples.f 1) ∅
       {[ "spanners"%string := [Examples.spanner 5; Examples.spanner 7] ]})
    {[ 5%positive := 1%nat; 7%positive := 1%nat ]} [].
End MoreExamples.

(** * Properties *)

(** ** Arithmetic helpers on concrete values *)

(** [roundf] rounds halfway cases away from zero, keeps the sign of a zero
    result, and the conversion to [int] truncates. *)
Example roundf_examples :
  F32.roundf (F32.div (F32.of_Z 5) F32.two) = F32.of_Z 3 /\
  F32.roundf (F32.div (F32.of_Z (-5)) F32.two) = F32.of_Z (-3) /\
  F32.roundf (F32.div (F32.of_Z 9) (F32.of_Z 4)) = F32.of_Z 2 /\
  F32.roundf (F32.div (F32.of_Z (-1)) (F32.of_Z 4)) = S754_zero true /\
  F32.to_int (F32.div (F32.of_Z (-7)) F32.two) = Some (-3) /\
  F32.to_int (S754_infinity true) = None.
Proof. repeat split; reflexivity. Qed.

Lemma forallb_Z_range (P : Z -> bool) (lo : Z) (n : nat) :
  forallb P ((fun i => lo + Z.of_nat i) <$> seq 0 n) = true ->
  forall k, lo <= k < lo + Z.of_nat n -> P k = true.
Proof.
  intros Hall k Hk. rewrite forallb_forall in Hall. apply Hall.
  apply in_map_iff. exists (Z.to_nat (k - lo)). split; [lia|].
  apply in_seq. lia.
Qed.

(** ** The order of the comparisons *)

Ltac order_cases :=
  repeat match goal with
         | |- context [Z.compare ?x ?y] => destruct (Z.compare_spec x y)
         | |- context [Pos.compare_cont Eq ?x ?y] =>
             change (Pos.compare_cont Eq x y) with (Pos.compare x y);
             destruct (Pos.compare_spec x y)
         end.

(** [a < b] and [a <= b], as the comparisons compute them, are the strict
    and the weak order of the keys. *)
Lemma SFltb_key a b :
  SFltb a b = true <->
  exists ka kb, orderKey a = Some ka /\ orderKey b = Some kb /\ keyLt ka kb.
Proof.
  unfold SFltb, SFcompare.
  destruct a as [[]|[]| |[] ma ea]; destruct b as [[]|[]| |[] mb eb];
    cbn [orderKey]; order_cases;
    (split;
     [ intros Hc;
       first [ discriminate Hc
             | eexists _, _; split; [reflexivity|]; split; [reflexivity|];
               unfold keyLt; lia ]
     | intros (ka & kb & Ha & Hb & Hlt);
       first [ discriminate Ha | discriminate Hb
             | injection Ha as <-; injection Hb as <-;
               unfold keyLt in Hlt; first [ reflexivity | lia ] ] ]).
Qed.

Lemma SFleb_key a b :
  SFleb a b = true <->
  exists ka kb, orderKey a = Some ka /\ orderKey b = Some kb /\ keyLe ka kb.
Proof.
  unfold SFleb, SFcompare.
  destruct a as [[]|[]| |[] ma ea]; destruct b as [[]|[]| |[] mb eb];
    cbn [orderKey]; order_cases;
    (split;
     [ intros Hc;
       first [ discriminate Hc
             | eexists _, _; split; [reflexivity|]; split; [reflexivity|];
               unfold keyLe, keyLt;
               first [ right; repeat f_equal; lia | left; lia ] ]
     | intros (ka & kb & Ha & Hb & Hle);
       first [ discriminate Ha | discriminate Hb
             | injection Ha as <-; injection Hb as <-;
               first [ reflexivity
                     | exfalso; destruct Hle as [Hlt|Heq];
                       [ unfold keyLt in Hlt; lia
                       | injection Heq; intros; lia ] ] ] ]).
Qed.

Lemma SFleb_trans a b c :
  SFleb a b = true -> SFleb b c = true -> SFleb a c = true.
Proof.
  rewrite !SFleb_key.
  intros (ka & kb & Ha & Hb & Hab) (kb' & kc & Hb' & Hc & Hbc).
  rewrite Hb in Hb'. injection Hb' as <-.
  exists ka, kc. split; [exact Ha|]. split; [exact Hc|].
  destruct ka as [[a1 a2] a3], kb as [[b1 b2] b3], kc as [[c1 c2] c3].
  unfold keyLe, keyLt in *.
  destruct Hab as [Hab|[= -> -> ->]]; destruct Hbc as [Hbc|[= <- <- <-]];
    first [ right; reflexivity | left; lia ].
Qed.

Lemma SFltb_SFleb_trans a b c :
  SFltb a b = true -> SFleb b c = true -> SFltb a c = true.
Proof.
  rewrite !SFltb_key, SFleb_key.
  intros (ka & kb & Ha & Hb & Hab) (kb' & kc & Hb' & Hc & Hbc).
  rewrite Hb in Hb'. injection Hb' as <-.
  exists ka, kc. split; [exact Ha|]. split; [exact Hc|].
  destruct ka as [[a1 a2] a3], kb as [[b1 b2] b3], kc as [[c1 c2] c3].
  unfold keyLe, keyLt in *.
  destruct Hbc as [Hbc|[= <- <- <-]]; lia.
Qed.

(** [b <= a] excludes [a < b]. *)
Lemma SFleb_not_SFltb a b : SFleb b a = true -> SFltb a b = false.
Proof.
  intros Hle. destruct (SFltb a b) eqn:Hlt; [|reflexivity]. exfalso.
  apply SFleb_key in Hle as (kb & ka & Hb & Ha & Hle).
  apply SFltb_key in Hlt as (ka' & kb' & Ha' & Hb' & Hlt).
  rewrite Ha in Ha'. injection Ha' as <-. rewrite Hb in Hb'. injection Hb' as <-.
  destruct ka as [[a1 a2] a3], kb as [[b1 b2] b3].
  unfold keyLe, keyLt in *. destruct Hle as [Hle|[= -> -> ->]]; lia.
Qed.

(** [a < b] excludes [b <= a]. *)
Lemma SFltb_not_SFleb a b : SFltb a b = true -> SFleb b a = false.
Proof.
  intros Hlt. destruct (SFleb b a) eqn:Hle; [|reflexivity].
  rewrite (SFleb_not_SFltb a b Hle) in Hlt. discriminate.
Qed.

(** Two values with the same key are the same value, or both are zeros. *)
Lemma orderKey_inj a b k :
  orderKey a = Some k -> orderKey b = Some k ->
  a = b \/ (exists s t, a = S754_zero s /\ b = S754_zero t).
Proof.
  destruct a as [sa|[]| |[] ma ea]; destruct b as [sb|[]| |[] mb eb];
    cbn [orderKey]; intros Ha Hb; rewrite <- Ha in Hb; try discriminate;
    try (left; reflexivity).
  - right. exists sa, sb. split; reflexivity.
  - injection Hb as He Hm. left. f_equal; lia.
  - injection Hb as He Hm. left. f_equal; lia.
Qed.

(** The two ways of writing a maximum and a minimum, [(x < y) ? y : x] and
    [x > y ? x : y], respectively [(y < x) ? y : x] and [x < y ? x : y],
    give the same value on operands that are no NaN and not both zero. *)
Lemma max_min_forms_agree a b :
  is_nan a = false -> is_nan b = false ->
  (forall s t, ~ (a = S754_zero s /\ b = S754_zero t)) ->
  F32.max a b = (if F32.gt a b then a else b) /\
  F32.min a b = (if F32.lt a b then a else b).
Proof.
  intros Ha Hb Hzero. unfold F32.max, F32.min, F32.gt, F32.lt.
  destruct (orderKey a) as [ka|] eqn:Hka;
    [|destruct a as [[]|[]| |[] ? ?]; simpl in *; discriminate].
  destruct (orderKey b) as [kb|] eqn:Hkb;
    [|destruct b as [[]|[]| |[] ? ?]; simpl in *; discriminate].
  assert (Hlt : forall x y kx ky, orderKey x = Some kx -> orderKey y = Some ky ->
            (SFltb x y = true <-> keyLt kx ky)).
  { intros x y kx ky Hx Hy. rewrite SFltb_key. split.
    - intros (kx' & ky' & Hx' & Hy' & Hk). congruence.
    - intros Hk. exists kx, ky. split; [exact Hx|split; [exact Hy|exact Hk]]. }
  pose proof (Hlt a b ka kb Hka Hkb) as Hab.
  pose proof (Hlt b a kb ka Hkb Hka) as Hba.
  assert (Hcases : keyLt ka kb \/ keyLt kb ka \/ ka = kb).
  { destruct ka as [[a1 a2] a3], kb as [[b1 b2] b3]. unfold keyLt.
    assert (Hc : (a1 < b1 \/ (a1 = b1 /\ (a2 < b2 \/ (a2 = b2 /\ a3 < b3)))) \/
                 (b1 < a1 \/ (b1 = a1 /\ (b2 < a2 \/ (b2 = a2 /\ b3 < a3)))) \/
                 (a1 = b1 /\ a2 = b2 /\ a3 = b3)) by lia.
    destruct Hc as [Hc|[Hc|(-> & -> & ->)]];
      [left; exact Hc|right; left; exact Hc|right; right; reflexivity]. }
  assert (Hasym : keyLt ka kb -> ~ keyLt kb ka).
  { destruct ka as [[a1 a2] a3], kb as [[b1 b2] b3]. unfold keyLt. lia. }
  assert (Hirr : ka = kb -> ~ keyLt ka kb /\ ~ keyLt kb ka).
  { intros <-. destruct ka as [[a1 a2] a3]. unfold keyLt. lia. }
  destruct Hcases as [Hk|[Hk|Hk]].
  - pose proof (proj2 Hab Hk) as Hab1.
    destruct (SFltb b a) eqn:Hba1;
      [exfalso; apply (Hasym Hk); apply Hba; reflexivity|].
    rewrite Hab1. split; reflexivity.
  - pose proof (proj2 Hba Hk) as Hba1.
    destruct (SFltb a b) eqn:Hab1;
      [exfalso; apply (Hasym (proj1 Hab eq_refl) Hk)|].
    rewrite Hba1. split; reflexivity.
  - destruct (Hirr Hk) as [Hn1 Hn2]. subst kb.
    destruct (SFltb a b) eqn:Hab1; [exfalso; apply Hn1; apply Hab; reflexivity|].
    destruct (SFltb b a) eqn:Hba1; [exfalso; apply Hn2; apply Hba; reflexivity|].
    destruct (orderKey_inj a b ka Hka Hkb) as [->|(s & t & -> & ->)];
      [split; reflexivity|].
    exfalso. apply (Hzero s t). split; reflexivity.
Qed.

(** ** Rounding to the nearest integer *)

Lemma digits2_pos_bounds p :
  2 ^ (Z.pos (digits2_pos p) - 1) <= Z.pos p < 2 ^ Z.pos (digits2_pos p).
Proof.
  induction p as [p IH|p IH|]; simpl digits2_pos.
  - rewrite Pos2Z.inj_succ.
    replace (Z.succ (Z.pos (digits2_pos p)) - 1)
      with (Z.succ (Z.pos (digits2_pos p) - 1)) by lia.
    rewrite !Z.pow_succ_r by lia. lia.
  - rewrite Pos2Z.inj_succ.
    replace (Z.succ (Z.pos (digits2_pos p)) - 1)
      with (Z.succ (Z.pos (digits2_pos p) - 1)) by lia.
    rewrite !Z.pow_succ_r by lia. lia.
  - simpl. lia.
Qed.

Lemma iter_xO_digits k : forall p,
  digits2_pos (Pos.iter xO p k) = (digits2_pos p + k)%positive.
Proof.
  induction k as [|k IH] using Pos.peano_ind; intros p.
  - simpl. lia.
  - rewrite Pos.iter_succ. simpl. rewrite IH. lia.
Qed.

Lemma iter_xO_value k : forall p,
  Z.pos (Pos.iter xO p k) = Z.pos p * 2 ^ Z.pos k.
Proof.
  induction k as [|k IH] using Pos.peano_ind; intros p.
  - simpl. lia.
  - rewrite Pos.iter_succ.
    rewrite Pos2Z.inj_xO, IH, Pos2Z.inj_succ, Z.pow_succ_r by lia. lia.
Qed.

(** A mantissa of 24 digits within the exponent range is not rounded. *)
Lemma binary_round_aux_exact (s : bool) (mz : positive) (ez : Z) :
  Z.pos (digits2_pos mz) = 24 -> -149 <= ez <= 104 ->
  binary_round_aux F32.prec F32.emax s (Z.pos mz) ez loc_Exact = S754_finite s mz ez.
Proof.
  intros Hd He.
  unfold binary_round_aux, shr_fexp, fexp, emin, F32.prec, F32.emax.
  simpl Zdigits2. rewrite Hd.
  replace (Z.max (24 + ez - 24) (3 - 128 - 24) - ez) with 0 by lia.
  simpl shr. cbv beta iota zeta. simpl shr_m. simpl loc_of_shr_record.
  simpl round_nearest_even. simpl Zdigits2. rewrite Hd.
  replace (Z.max (24 + ez - 24) (3 - 128 - 24) - ez) with 0 by lia.
  simpl shr. cbv beta iota zeta. simpl shr_m.
  destruct (ez <=? 128 - 24) eqn:Hle; [reflexivity|].
  apply Z.leb_gt in Hle. lia.
Qed.

(** An integer of at most 24 bits is a binary32 value, and comes back from
    the conversion to [int]. *)
Lemma to_int_normalize (s : bool) (p : positive) :
  Z.pos p < 2 ^ 24 ->
  F32.to_int (binary_normalize F32.prec F32.emax (cond_Zopp s (Z.pos p)) 0 s)
  = Some (cond_Zopp s (Z.pos p)).
Proof.
  intros Hp.
  pose proof (digits2_pos_bounds p) as Hd.
  assert (Hd24 : Z.pos (digits2_pos p) <= 24).
  { destruct (Z_le_gt_dec (Z.pos (digits2_pos p)) 24) as [|Hgt]; [assumption|].
    assert (2 ^ 24 <= 2 ^ (Z.pos (digits2_pos p) - 1))
      by (apply Z.pow_le_mono_r; lia).
    lia. }
  assert (Hz : binary_normalize F32.prec F32.emax (cond_Zopp s (Z.pos p)) 0 s
               = binary_round F32.prec F32.emax s p 0).
  { destruct s; reflexivity. }
  rewrite Hz. clear Hz.
  unfold binary_round, shl_align, fexp, emin. rewrite Z.add_0_r, Z.sub_0_r.
  replace (Z.max (Z.pos (digits2_pos p) - F32.prec) (3 - F32.emax - F32.prec))
    with (Z.pos (digits2_pos p) - 24) by (unfold F32.prec, F32.emax; lia).
  assert (Hrange : -2 ^ 31 <= cond_Zopp s (Z.pos p) < 2 ^ 31).
  { destruct s; simpl; lia. }
  assert (Hcheck : (- 2 ^ 31 <=? cond_Zopp s (Z.pos p)) &&
                   (cond_Zopp s (Z.pos p) <? 2 ^ 31) = true).
  { apply andb_true_iff. split; [apply Z.leb_le|apply Z.ltb_lt]; lia. }
  destruct (Z.pos (digits2_pos p) - 24) as [|q|q] eqn:Hq; try lia.
  - rewrite binary_round_aux_exact by lia.
    unfold F32.to_int. change (0 <=? 0) with true. cbv iota.
    rewrite Z.pow_0_r, Z.mul_1_r, Hcheck. reflexivity.
  - rewrite binary_round_aux_exact
      by (try rewrite iter_xO_digits; lia).
    unfold F32.to_int. change (0 <=? Z.neg q) with false. cbv iota.
    change (- Z.neg q) with (Z.pos q).
    rewrite iter_xO_value, Z.div_mul by (apply Z.pow_nonzero; lia).
    rewrite Hcheck. reflexivity.
Qed.

Lemma valid_mantissa (s : bool) (m : positive) (e : Z) :
  valid_binary F32.prec F32.emax (S754_finite s m e) = true -> Z.pos m < 2 ^ 24.
Proof.
  unfold valid_binary, bounded, canonical_mantissa, fexp, emin, F32.prec, F32.emax.
  intros Hv. apply andb_true_iff in Hv as [Hc _]. apply Z.eqb_eq in Hc.
  pose proof (digits2_pos_bounds m) as [_ Hd].
  assert (Z.pos (digits2_pos m) <= 24) by lia.
  assert (2 ^ Z.pos (digits2_pos m) <= 2 ^ 24) by (apply Z.pow_le_mono_r; lia).
  lia.
Qed.

(** [roundf] followed by the conversion to [int] yields the nearest
    integer, the one away from zero at a tie, exactly when that is an
    [int]. *)
Lemma to_int_roundf (x : float) (n : Z) :
  valid_binary F32.prec F32.emax x = true ->
  F32.to_int (F32.roundf x) = Some n <->
  nearestInteger x n /\ - 2 ^ 31 <= n < 2 ^ 31.
Proof.
  intros Hvalid. destruct x as [sz|si| |s m e]; simpl F32.roundf.
  - simpl. split; [intros [= <-]; lia | intros [-> _]; reflexivity].
  - simpl. split; [discriminate | intros [[] _]].
  - simpl. split; [discriminate | intros [[] _]].
  - pose proof (valid_mantissa s m e Hvalid) as Hm.
    unfold nearestInteger.
    destruct (0 <=? e) eqn:He.
    + pose proof He as Heb. apply Z.leb_le in He.
      replace (Z.max 0 (- e)) with 0 by lia. replace (Z.max 0 e) with e by lia.
      rewrite Z.pow_0_r. unfold F32.to_int. rewrite Heb.
      assert (Hpos : 0 < 2 ^ e) by (apply Z.pow_pos_nonneg; lia).
      destruct (_ && _) eqn:Hr.
      * apply andb_true_iff in Hr as [Hlo Hhi].
        apply Z.leb_le in Hlo. apply Z.ltb_lt in Hhi.
        split.
        -- intros [= <-]. destruct s; simpl cond_Zopp in *; nia.
        -- intros [[Hs Hn] _]. f_equal. destruct s; simpl cond_Zopp in *; nia.
      * split; [discriminate|]. intros [[Hs Hn] Hrange]. exfalso.
        apply andb_false_iff in Hr as [Hr|Hr];
          [apply Z.leb_gt in Hr|apply Z.ltb_ge in Hr];
          destruct s; simpl cond_Zopp in *; nia.
    + apply Z.leb_gt in He.
      replace (Z.max 0 (- e)) with (- e) by lia. replace (Z.max 0 e) with 0 by lia.
      rewrite Z.pow_0_r, Z.mul_1_r. cbv zeta.
      set (d := 2 ^ (- e)).
      assert (Hd : 2 <= d).
      { unfold d. replace (- e) with (Z.succ (- e - 1)) by lia.
        rewrite Z.pow_succ_r by lia.
        assert (0 < 2 ^ (- e - 1)) by (apply Z.pow_pos_nonneg; lia). lia. }
      pose proof (Z.div_mod (Z.pos m) d ltac:(lia)) as Hdm.
      pose proof (Z.mod_pos_bound (Z.pos m) d ltac:(lia)) as Hr.
      set (q := Z.pos m / d) in *. set (r := Z.pos m mod d) in *.
      assert (Hq : 0 <= q) by (unfold q; apply Z.div_pos; lia).
      assert (Hq24 : q + 1 < 2 ^ 24) by nia.
      set (nn := if d <=? 2 * r then q + 1 else q).
      assert (Hnn : 0 <= nn < 2 ^ 24) by (unfold nn; destruct (d <=? 2 * r); lia).
      assert (Hnear : (2 * nn - 1) * d <= 2 * Z.pos m < (2 * nn + 1) * d).
      { unfold nn. destruct (d <=? 2 * r) eqn:Hc;
          [apply Z.leb_le in Hc|apply Z.leb_gt in Hc]; nia. }
      assert (Hval : F32.to_int
                       (binary_normalize F32.prec F32.emax (cond_Zopp s nn) 0 s)
                     = Some (cond_Zopp s nn)).
      { destruct nn as [|p|p] eqn:Hp; [destruct s; reflexivity| |lia].
        apply to_int_normalize. lia. }
      rewrite Hval. split.
      * intros [= <-]. split; [split|].
        -- destruct s; simpl; lia.
        -- replace (Z.abs (cond_Zopp s nn)) with nn by (destruct s; simpl; lia).
           exact Hnear.
        -- destruct s; simpl; lia.
      * intros [[Hs Hn] _]. f_equal.
        assert (Z.abs n = nn) by nia.
        destruct s; simpl; lia.
Qed.

(** The conversion of an integral binary32 value that is an integer
    minus two, over the integers a base-2 logarithm of a binary32 value
    can be. *)
Lemma to_int_of_Z_minus_two j :
  -149 <= j <= 128 ->
  F32.to_int (F32.roundf (F32.sub (F32.of_Z j) F32.two)) = Some (j - 2).
Proof.
  intros Hj.
  assert (Hall : forallb
            (fun j => bool_decide
               (F32.to_int (F32.roundf (F32.sub (F32.of_Z j) F32.two))
                = Some (j - 2)))
            ((fun i => -149 + Z.of_nat i) <$> seq 0 278) = true)
    by (vm_compute; reflexivity).
  pose proof (forallb_Z_range _ _ _ Hall j ltac:(lia)) as Hb.
  apply bool_decide_eq_true in Hb. exact Hb.
Qed.

(** [F32.max] is the larger of its operands. *)
Lemma max_largerOf a b : largerOf a b (F32.max a b).
Proof.
  unfold largerOf, F32.max, F32.lt, F32.le.
  destruct (SFltb a b) eqn:Hlt.
  - split; [right; reflexivity|]. intros Ha Hb.
    apply SFltb_key in Hlt as (ka & kb & Hka & Hkb & Hk).
    split; apply SFleb_key.
    + exists ka, kb. split; [exact Hka|]. split; [exact Hkb|]. left. exact Hk.
    + exists kb, kb. split; [exact Hkb|]. split; [exact Hkb|]. right. reflexivity.
  - split; [left; reflexivity|]. intros Ha Hb.
    destruct (orderKey a) as [ka|] eqn:Hka;
      [|destruct a as [[]|[]| |[] ? ?]; simpl in *; discriminate].
    destruct (orderKey b) as [kb|] eqn:Hkb;
      [|destruct b as [[]|[]| |[] ? ?]; simpl in *; discriminate].
    split; apply SFleb_key.
    + exists ka, ka. split; [exact Hka|]. split; [exact Hka|]. right. reflexivity.
    + exists kb, ka. split; [exact Hkb|]. split; [exact Hka|].
      assert (Hn : ~ keyLt ka kb).
      { intros Hk.
        assert (Htrue : SFltb a b = true)
          by (apply SFltb_key; exists ka, kb;
              split; [exact Hka|split; [exact Hkb|exact Hk]]).
        rewrite Htrue in Hlt. discriminate. }
      destruct ka as [[a1 a2] a3], kb as [[b1 b2] b3].
      unfold keyLe, keyLt in *.
      assert (Hcases : (b1 < a1 \/ (b1 = a1 /\ (b2 < a2 \/ (b2 = a2 /\ b3 < a3)))) \/
                       (b1 = a1 /\ b2 = a2 /\ b3 = a3)) by lia.
      destruct Hcases as [Hl|(-> & -> & ->)]; [left; exact Hl|right; reflexivity].
Qed.

(** ** Box-set visitor *)

Lemma setOutputValue_in_range i v info :
  (i < length (MetavoxelInfo.outputValues info))%nat ->
  MetavoxelInfo.setOutputValue i v info =
  Some (MetavoxelInfo.mk (MetavoxelInfo.minimum info) (MetavoxelInfo.size info)
          (MetavoxelInfo.parentInfo info) (MetavoxelInfo.inputValues info)
          (<[i:=v]> (MetavoxelInfo.outputValues info))).
Proof.
  intros Hlt. unfold MetavoxelInfo.setOutputValue.
  destruct (decide _) as [_|Hn]; [reflexivity | contradiction].
Qed.

(** C1.  [BoxSetEditVisitor::visit] follows the case analysis of the box-set
    policy.  With [ext] the extent of the intersection of the node with the
    region and [vol] the fraction of the node's volume it covers: a degenerate
    extent (a component [<= 0]) stops with nothing written; otherwise
    [vol >= 1] assigns the value and stops; otherwise, on a node no larger
    than the granularity, the value is assigned exactly when [vol >= 0.5] and
    the traversal stops either way; otherwise the node is subdivided with
    nothing written. *)
Theorem BoxSetEditVisitor_visit_cases (e : BoxSetEdit) (info : MetavoxelInfo.t) :
  (0 < length (MetavoxelInfo.outputValues info))%nat ->
  let ext := intersectionExtent e info in
  let vol := overlapVolume e info in
  let visit := BoxSetEditVisitor_visit e info in
  (degenerate ext = true -> visit = Some (STOP_RECURSION, info)) /\
  (degenerate ext = false -> F32.ge vol F32.one = true ->
     visit = Some (STOP_RECURSION, assigned (value e) info)) /\
  (degenerate ext = false -> F32.ge vol F32.one = false ->
   F32.le (MetavoxelInfo.size info) (granularity e) = true ->
     (F32.ge vol F32.half = true ->
        visit = Some (STOP_RECURSION, assigned (value e) info)) /\
     (F32.ge vol F32.half = false -> visit = Some (STOP_RECURSION, info))) /\
  (degenerate ext = false -> F32.ge vol F32.one = false ->
   F32.le (MetavoxelInfo.size info) (granularity e) = false ->
     visit = Some (DEFAULT_ORDER, info)).
Proof.
  intros Hout ext vol visit.
  pose proof (setOutputValue_in_range 0 (value e) info Hout) as Hset.
  subst visit. unfold BoxSetEditVisitor_visit.
  fold (intersectionExtent e info). fold ext.
  change (F32.le (vec3.x ext) F32.zero || F32.le (vec3.y ext) F32.zero
          || F32.le (vec3.z ext) F32.zero) with (degenerate ext).
  fold (cube (MetavoxelInfo.size info)).
  change (F32.div (F32.mul (F32.mul (vec3.x ext) (vec3.y ext)) (vec3.z ext))
            (cube (MetavoxelInfo.size info))) with vol.
  split; [|split; [|split]].
  - intros ->. reflexivity.
  - intros -> ->. rewrite Hset. reflexivity.
  - intros -> -> ->. split; intros ->; [rewrite Hset|]; reflexivity.
  - intros -> -> ->. reflexivity.
Qed.

(** The tie: a region covering exactly half of a node at the granularity
    limit has [vol = 0.5] and the value is assigned. *)
Lemma BoxSetEditVisitor_visit_cases_witness :
  overlapVolume Examples.halfEdit Examples.unitNode = F32.half /\
  BoxSetEditVisitor_visit Examples.halfEdit Examples.unitNode =
  Some (STOP_RECURSION, assigned Examples.red Examples.unitNode).
Proof.
  split; [reflexivity|].
  refine (proj1 (proj1 (proj2 (proj2
    (BoxSetEditVisitor_visit_cases Examples.halfEdit Examples.unitNode _)))
    _ _ _) _); try reflexivity.
  simpl. lia.
Defined.

(** Covering a quarter of the same node leaves it unchanged. *)
Example BoxSetEditVisitor_visit_quarter :
  BoxSetEditVisitor_visit Examples.quarterEdit Examples.unitNode =
  Some (STOP_RECURSION, Examples.unitNode).
Proof. reflexivity. Qed.

(** ** Global-set edit *)

Lemma nodeValueAt_leaf fuel v minimum size position :
  MetavoxelData.nodeValueAt fuel (MetavoxelData.leaf v) minimum size position = v.
Proof. destruct fuel; reflexivity. Qed.

Lemma GlobalSetEdit_apply_root (e : GlobalSetEdit) (a : Attribute)
    (objects : WeakSharedObjectHash) (w : World.t) (fuel : nat) :
  getAttribute (globalValue e) = Some a ->
  GlobalSetEdit_apply (S fuel) e objects w =
  Some (World.withData
          (MetavoxelData.setRoot (World.data w)
             (Some a, Some (MetavoxelData.leaf (getValue (globalValue e)))))
          w).
Proof.
  intros Hattr.
  unfold GlobalSetEdit_apply, World.guide, MetavoxelData.guide.
  simpl. unfold GlobalSetEditVisitor_visit, MetavoxelInfo.setOutputValue.
  simpl. rewrite Hattr. simpl.
  unfold MetavoxelData.accept. rewrite Hattr. reflexivity.
Qed.

(** C9.  [GlobalSetEditVisitor::visit] writes the edit's value to the output
    and returns [STOP_RECURSION] at every node info, without looking at it;
    so the edit, which any positive traversal depth suffices for (the root
    is the only node visited), replaces the root of the value's attribute by
    a single leaf, and the value found afterwards at any position is the one
    set, whatever was stored before. *)
Theorem GlobalSetEdit_sets_everywhere
    (e : GlobalSetEdit) (a : Attribute) (objects : WeakSharedObjectHash)
    (w : World.t) (fuel : nat) :
  getAttribute (globalValue e) = Some a ->
  (0 < fuel)%nat ->
  (forall info, (0 < length (MetavoxelInfo.outputValues info))%nat ->
     GlobalSetEditVisitor_visit e info =
     Some (STOP_RECURSION, assigned (globalValue e) info)) /\
  exists w', GlobalSetEdit_apply fuel e objects w = Some w' /\
    MetavoxelData.root (Some a) (World.data w') =
      Some (MetavoxelData.leaf (getValue (globalValue e))) /\
    forall depth position,
      MetavoxelData.getValueAt depth a (World.data w') position =
      getValue (globalValue e).
Proof.
  intros Hattr Hfuel. split.
  - intros info Hout. unfold GlobalSetEditVisitor_visit.
    rewrite (setOutputValue_in_range 0 _ info Hout). reflexivity.
  - destruct fuel as [|fuel]; [lia|].
    eexists. split; [apply (GlobalSetEdit_apply_root e a objects w fuel Hattr)|].
    assert (Hroot : MetavoxelData.root (Some a)
              (World.data
                 (World.withData
                    (MetavoxelData.setRoot (World.data w)
                       (Some a, Some (MetavoxelData.leaf (getValue (globalValue e)))))
                    w)) = Some (MetavoxelData.leaf (getValue (globalValue e)))).
    { unfold MetavoxelData.root. simpl. rewrite lookup_insert_eq. reflexivity. }
    split; [exact Hroot|].
    intros depth position. unfold MetavoxelData.getValueAt.
    rewrite Hroot. apply nodeValueAt_leaf.
Qed.

(** Red everywhere over a world whose colour root was subdivided. *)
Lemma GlobalSetEdit_sets_everywhere_witness :
  MetavoxelData.getValueAt 1 Examples.colorAttribute
    (World.data Examples.paintedWorld) (vec3.splat F32.half) = Inline 7 /\
  exists w',
    GlobalSetEdit_apply 1 Examples.globalRed ∅ Examples.paintedWorld = Some w' /\
    MetavoxelData.root (Some Examples.colorAttribute) (World.data w') =
      Some (MetavoxelData.leaf (Inline 255)) /\
    forall depth position,
      MetavoxelData.getValueAt depth Examples.colorAttribute (World.data w') position
      = Inline 255.
Proof.
  split; [reflexivity|].
  apply (proj2 (GlobalSetEdit_sets_everywhere Examples.globalRed
                  Examples.colorAttribute ∅ Examples.paintedWorld 1
                  eq_refl ltac:(lia))).
Defined.

(** ** Update visitor *)

(** Induction over the chain of [parentInfo] links. *)
Lemma MetavoxelInfo_chain_ind (P : MetavoxelInfo.t -> Prop)
    (Hroot : forall info, MetavoxelInfo.parentInfo info = None -> P info)
    (Hstep : forall info p, MetavoxelInfo.parentInfo info = Some p -> P p -> P info) :
  forall info, P info.
Proof.
  fix F 1. intros [m s [p|] ins outs].
  - apply (Hstep (MetavoxelInfo.mk m s (Some p) ins outs) p eq_refl). apply F.
  - apply Hroot. reflexivity.
Qed.

Lemma walkParents_unfold steps i p :
  walkParents steps i p =
  if i <? steps then
    match MetavoxelInfo.parentInfo p with
    | Some q => walkParents steps (i + 1) q
    | None => None
    end
  else Some p.
Proof. destruct p; reflexivity. Qed.

(** The loop leaves the pointer [steps - i] links above where it entered, or
    null if the chain ends before. *)
Lemma walkParents_ancestor steps p :
  forall i, walkParents steps i p = ancestor (Z.to_nat (steps - i)) p.
Proof.
  induction p as [p Hp | p q Hq IH] using MetavoxelInfo_chain_ind; intros i;
    rewrite walkParents_unfold; destruct (Z.ltb_spec i steps) as [Hlt|Hge].
  - replace (Z.to_nat (steps - i)) with (S (Z.to_nat (steps - (i + 1)))) by lia.
    simpl. rewrite Hp. reflexivity.
  - replace (Z.to_nat (steps - i)) with O by lia. reflexivity.
  - replace (Z.to_nat (steps - i)) with (S (Z.to_nat (steps - (i + 1)))) by lia.
    simpl. rewrite Hq. simpl. apply IH.
  - replace (Z.to_nat (steps - i)) with O by lia. reflexivity.
Qed.

Lemma ancestor_None_depth info :
  forall n, ancestor n info = None <-> (depth info < n)%nat.
Proof.
  induction info as [p Hp | p q Hq IH] using MetavoxelInfo_chain_ind; intros n.
  - destruct n as [|n]; simpl.
    + split; [discriminate | lia].
    + rewrite Hp. simpl. destruct p; simpl in *. subst. simpl. split; [lia | reflexivity].
  - destruct n as [|n]; simpl.
    + split; [discriminate | lia].
    + rewrite Hq. simpl. rewrite IH.
      destruct p; simpl in *. subst. simpl. lia.
Qed.

Lemma resetOutputs_spec outputs :
  forall done rest m s p ins,
    length rest = length outputs ->
    resetOutputs outputs (length done) (MetavoxelInfo.mk m s p ins (done ++ rest)) =
    Some (MetavoxelInfo.mk m s p ins (done ++ (AttributeValue_of <$> outputs))).
Proof.
  induction outputs as [|a outputs IH]; intros done rest m s p ins Hlen.
  - destruct rest; [reflexivity | discriminate].
  - destruct rest as [|r rest]; [discriminate|].
    simpl. unfold MetavoxelInfo.setOutputValue. simpl.
    destruct (decide _) as [_|Hn]; [|rewrite length_app in Hn; simpl in Hn; lia].
    simpl. rewrite insert_app_r_alt by lia.
    replace (length done - length done)%nat with O by lia. simpl.
    specialize (IH (done ++ [AttributeValue_of a]) rest m s p ins).
    rewrite length_app in IH. simpl in IH.
    replace (length done + 1)%nat with (S (length done)) in IH by lia.
    rewrite <- !app_assoc in IH. simpl in IH. apply IH.
    simpl in Hlen. lia.
Qed.

(** Started on a node whose output vector has one slot per output attribute,
    the reset loop leaves every slot at its attribute's default. *)
Lemma resetOutputs_all outputs info :
  length (MetavoxelInfo.outputValues info) = length outputs ->
  resetOutputs outputs 0 info = Some (withDefaults outputs info).
Proof.
  intros Hlen. destruct info as [m s p ins outs]. simpl in Hlen.
  apply (resetOutputs_spec outputs [] outs m s p ins Hlen).
Qed.

(** The ancestor whose spanner set the update visitor reads: the pointer the
    loop leaves with is [1 + max(steps, 0)] links above the visited node. *)
Lemma UpdateSpannerVisitor_ancestor (v : UpdateSpannerVisitor) (info : MetavoxelInfo.t) :
  (p ← MetavoxelInfo.parentInfo info; walkParents (_steps v) 0 p) =
  ancestor (S (Z.to_nat (_steps v))) info.
Proof.
  simpl. destruct (MetavoxelInfo.parentInfo info) as [p|]; simpl; [|reflexivity].
  rewrite walkParents_ancestor. f_equal. f_equal. lia.
Qed.

(** The visit of a node that intersects the spanner, in one equation. *)
Lemma UpdateSpannerVisitor_visit_intersecting `{SpannerInterface}
    (v : UpdateSpannerVisitor) (info : MetavoxelInfo.t) :
  Box.intersects (MetavoxelInfo.getBounds info) (getBounds (_spanner v)) = true ->
  length (MetavoxelInfo.outputValues info) = length (_outputs v) ->
  UpdateSpannerVisitor_visit v info =
  match ancestor (S (Z.to_nat (_steps v))) info with
  | Some p =>
      set ← spannerSet (length (_outputs v)) p;
      let blended := blendAll set (withDefaults (_outputs v) info) in
      Some (subdivideWhileLarger v blended, blended)
  | None => Some (subdivideWhileLarger v info, withDefaults (_outputs v) info)
  end.
Proof.
  intros Hint Hlen. unfold UpdateSpannerVisitor_visit.
  rewrite Hint. simpl negb. cbv iota.
  rewrite UpdateSpannerVisitor_ancestor.
  rewrite (resetOutputs_all _ _ Hlen).
  destruct (ancestor (S (Z.to_nat (_steps v))) info) as [p|]; [|reflexivity].
  simpl. unfold spannerSet.
  destruct (MetavoxelInfo.inputValues p !! length (_outputs v)); reflexivity.
Qed.

(** C2 (as amended).  On a node whose bounds do not intersect the spanner's,
    [UpdateSpannerVisitor::visit] stops at once and writes nothing.  On any
    other node it resets the outputs to their defaults and reads the spanner
    set of the info [1 + max(steps, 0)] [parentInfo] links above the visited
    node (the walk starts at the node's parent and follows [steps] further
    links); every spanner of that set is blended, in order, into the node,
    and nothing is blended when the chain of links ends before; subdivision
    is requested exactly when the size the node info holds after the
    blending, which receives the info by reference, is greater than the
    voxelization size. *)
Theorem UpdateSpannerVisitor_visit_blends `{SpannerInterface}
    (v : UpdateSpannerVisitor) (info : MetavoxelInfo.t) :
  (Box.intersects (MetavoxelInfo.getBounds info) (getBounds (_spanner v)) = false ->
     UpdateSpannerVisitor_visit v info = Some (STOP_RECURSION, info)) /\
  (Box.intersects (MetavoxelInfo.getBounds info) (getBounds (_spanner v)) = true ->
   length (MetavoxelInfo.outputValues info) = length (_outputs v) ->
   let order (result : MetavoxelInfo.t) :=
     if F32.gt (MetavoxelInfo.size result) (_voxelizationSize v)
     then DEFAULT_ORDER else STOP_RECURSION in
   UpdateSpannerVisitor_visit v info =
   match ancestor (S (Z.to_nat (_steps v))) info with
   | Some p =>
       set ← spannerSet (length (_outputs v)) p;
       let blended :=
         foldl (fun acc object => snd (blendAttributeValues object acc true))
               (withDefaults (_outputs v) info) set in
       Some (order blended, blended)
   | None => Some (order info, withDefaults (_outputs v) info)
   end).
Proof.
  split.
  - intros Hint. unfold UpdateSpannerVisitor_visit. rewrite Hint. reflexivity.
  - intros Hint Hlen order.
    apply (UpdateSpannerVisitor_visit_intersecting v info Hint Hlen).
Qed.

(** With one ancestor step, the visit of the grandchild of the root blends
    the set of the root. *)
Lemma UpdateSpannerVisitor_visit_blends_witness :
  UpdateSpannerVisitor_visit (H := Examples.spanners)
    Examples.updateVisitor Examples.grandchildInfo =
  Some (STOP_RECURSION,
        MetavoxelInfo.mk Examples.origin (F32.mul F32.half F32.half)
          (Some Examples.childInfo)
          [Examples.colorInput; Examples.setValue []]
          [mkAttributeValue (Some Examples.colorAttribute)
             (ObjectSet [Examples.spanner 2])]).
Proof.
  apply (proj2 (UpdateSpannerVisitor_visit_blends (H := Examples.spanners)
                  Examples.updateVisitor Examples.grandchildInfo)
           eq_refl eq_refl).
Defined.

(** The info exactly [steps] links above the visited node is not the one
    read: with [steps = 1] the grandchild of the root has the child of the
    root one link up, holding the set [{1}], but what is blended is the set
    [{2}] of the root; and on the child of the root, which has the root one
    link up, nothing is blended. *)
Lemma UpdateSpannerVisitor_walk_counterexample :
  _steps Examples.updateVisitor = 1 /\
  (s ← ancestor 1 Examples.grandchildInfo; spannerSet 1 s)
    = Some [Examples.spanner 1] /\
  (snd <$> UpdateSpannerVisitor_visit (H := Examples.spanners)
             Examples.updateVisitor Examples.grandchildInfo)
    = Some (foldl (fun acc object =>
                     snd (blendAttributeValues (SpannerInterface := Examples.spanners)
                            object acc true))
                  (withDefaults [Some Examples.colorAttribute] Examples.grandchildInfo)
                  [Examples.spanner 2]) /\
  (snd <$> UpdateSpannerVisitor_visit (H := Examples.spanners)
             Examples.updateVisitor Examples.grandchildInfo)
    <> Some (foldl (fun acc object =>
                     snd (blendAttributeValues (SpannerInterface := Examples.spanners)
                            object acc true))
                  (withDefaults [Some Examples.colorAttribute] Examples.grandchildInfo)
                  [Examples.spanner 1]) /\
  (s ← ancestor 1 Examples.childInfo; spannerSet 1 s)
    = Some [Examples.spanner 2] /\
  (snd <$> UpdateSpannerVisitor_visit (H := Examples.spanners)
             Examples.updateVisitor Examples.childInfo)
    = Some (withDefaults [Some Examples.colorAttribute] Examples.childInfo).
Proof.
  repeat split; try reflexivity.
  vm_compute. intros Heq. discriminate Heq.
Qed.

(** C10.  On a node that intersects the spanner but has at most [steps]
    [parentInfo] links above it, so that the ancestor walk ends on a null
    pointer, [UpdateSpannerVisitor::visit] blends nothing: whatever the
    spanners do when blended, the node leaves with every output slot at the
    default value of its output attribute, and subdivision is still
    requested exactly when the node's size is greater than the voxelization
    size. *)
Theorem UpdateSpannerVisitor_visit_short_chain `{SpannerInterface}
    (v : UpdateSpannerVisitor) (info : MetavoxelInfo.t) :
  Box.intersects (MetavoxelInfo.getBounds info) (getBounds (_spanner v)) = true ->
  length (MetavoxelInfo.outputValues info) = length (_outputs v) ->
  (depth info <= Z.to_nat (_steps v))%nat ->
  (p ← MetavoxelInfo.parentInfo info; walkParents (_steps v) 0 p) = None /\
  UpdateSpannerVisitor_visit v info =
  Some (if F32.gt (MetavoxelInfo.size info) (_voxelizationSize v)
        then DEFAULT_ORDER else STOP_RECURSION,
        MetavoxelInfo.mk (MetavoxelInfo.minimum info) (MetavoxelInfo.size info)
          (MetavoxelInfo.parentInfo info) (MetavoxelInfo.inputValues info)
          (AttributeValue_of <$> _outputs v)).
Proof.
  intros Hint Hlen Hdepth.
  assert (Hnone : ancestor (S (Z.to_nat (_steps v))) info = None).
  { apply ancestor_None_depth. lia. }
  split.
  - rewrite UpdateSpannerVisitor_ancestor. exact Hnone.
  - rewrite (UpdateSpannerVisitor_visit_intersecting v info Hint Hlen).
    rewrite Hnone. reflexivity.
Qed.

(** The child of the root under one ancestor step; nothing is blended
    although the root holds a spanner. *)
Lemma UpdateSpannerVisitor_visit_short_chain_witness :
  UpdateSpannerVisitor_visit (H := Examples.spanners)
    Examples.updateVisitor Examples.childInfo =
  Some (STOP_RECURSION,
        MetavoxelInfo.mk Examples.origin F32.half (Some Examples.rootInfo)
          [Examples.colorInput; Examples.setValue [Examples.spanner 1]]
          [AttributeValue_of (Some Examples.colorAttribute)]).
Proof.
  apply (proj2 (UpdateSpannerVisitor_visit_short_chain (H := Examples.spanners)
                  Examples.updateVisitor Examples.childInfo
                  eq_refl eq_refl ltac:(vm_compute; lia))).
Defined.

(** ** Insert-spanner edit *)

(** C5.  [InsertSpannerEdit::apply] inserts the spanner and then runs the
    update visitor of the inserted spanner.  The voxelization size of that
    visitor is the larger of the spanner's longest bounds side and its
    placement granularity, times two, divided by the LOD threshold
    multiplier of the spanners attribute.  Its step count is the integer
    nearest to [logf(multiplier) / logf(2) - 2], the one away from zero
    when that value lies halfway between two integers; the visitor exists
    exactly when that integer is an [int]; and where the logarithm
    computed is an integer [j] the step count is [j - 2]. *)
Theorem InsertSpannerEdit_update_visitor
    `{AttributeRegistry} `{Libm} `{SpannerInterface}
    (fuel : nat) (e : InsertSpannerEdit) (objects : WeakSharedObjectHash)
    (w : World.t) :
  let spanner := insertSpanner e in
  let multiplier := getLODThresholdMultiplier getSpannersAttribute in
  let attributes := Some <$> getVoxelizedAttributes spanner in
  valid_binary F32.prec F32.emax stepsValue = true ->
  (forall v,
     UpdateSpannerVisitor_new attributes spanner = Some v ->
     MessagesB.InsertSpannerEdit_apply fuel e objects w =
       (w1 ← World.insert fuel (insertAttribute e) spanner w;
        World.guide fuel (UpdateSpannerVisitor_visitor v) w1) /\
     _spanner v = spanner /\
     (exists larger,
        largerOf (Box.getLongestSide (getBounds spanner))
                 (getPlacementGranularity spanner) larger /\
        _voxelizationSize v = F32.div (F32.mul larger F32.two) multiplier) /\
     nearestInteger stepsValue (_steps v) /\
     - 2 ^ 31 <= _steps v < 2 ^ 31) /\
  (forall n,
     nearestInteger stepsValue n -> - 2 ^ 31 <= n < 2 ^ 31 ->
     exists v,
       UpdateSpannerVisitor_new attributes spanner = Some v /\ _steps v = n) /\
  (forall j v,
     log2f multiplier = F32.of_Z j -> -149 <= j <= 128 ->
     UpdateSpannerVisitor_new attributes spanner = Some v ->
     _steps v = j - 2).
Proof.
  intros spanner multiplier attributes Hvalid.
  assert (Hnew : forall v,
            UpdateSpannerVisitor_new attributes spanner = Some v ->
            F32.to_int (F32.roundf stepsValue) = Some (_steps v) /\
            _spanner v = spanner /\
            _voxelizationSize v =
              F32.div
                (F32.mul (F32.max (Box.getLongestSide (getBounds spanner))
                                  (getPlacementGranularity spanner)) F32.two)
                multiplier).
  { intros v. unfold UpdateSpannerVisitor_new, stepsValue, log2f.
    destruct (F32.to_int _) as [steps|]; [|discriminate].
    simpl. intros [= <-]. simpl. repeat split; reflexivity. }
  split; [|split].
  - intros v Hv. destruct (Hnew v Hv) as (Hsteps & Hspanner & Hsize).
    apply (to_int_roundf _ _ Hvalid) in Hsteps as [Hnear Hrange].
    split; [|split; [exact Hspanner|split; [|split; [exact Hnear|exact Hrange]]]].
    + unfold MessagesB.InsertSpannerEdit_apply. fold spanner. fold attributes.
      rewrite Hv. destruct (World.insert fuel _ spanner w); reflexivity.
    + eexists. split; [apply max_largerOf|exact Hsize].
  - intros n Hnear Hrange.
    pose proof (proj2 (to_int_roundf _ n Hvalid) (conj Hnear Hrange)) as Hsteps.
    unfold UpdateSpannerVisitor_new. unfold stepsValue, log2f in Hsteps.
    rewrite Hsteps. simpl. eexists. split; reflexivity.
  - intros j v Hlog Hj Hv. destruct (Hnew v Hv) as (Hsteps & _).
    unfold stepsValue in Hsteps. fold multiplier in Hsteps.
    rewrite Hlog, (to_int_of_Z_minus_two j Hj) in Hsteps.
    injection Hsteps as <-. reflexivity.
Qed.

(** Under a multiplier of 6 the value rounded is about 0.585 and the step
    count is 1, where truncation would give 0; under a multiplier of 8
    the logarithm computed is 3 and the step count is [3 - 2]. *)
Lemma InsertSpannerEdit_update_visitor_witness :
  (nearestInteger (stepsValue (H := MoreExamples.registry6) (H0 := MoreExamples.libm6))
     (_steps MoreExamples.visitor6) /\
   _steps MoreExamples.visitor6 = 1 /\
   F32.to_int (stepsValue (H := MoreExamples.registry6) (H0 := MoreExamples.libm6))
     = Some 0) /\
  _steps Examples.insertVisitor = 3 - 2 /\
  _voxelizationSize Examples.insertVisitor = F32.mul F32.half F32.half.
Proof.
  split; [split; [|split; reflexivity]|split; [|reflexivity]].
  - apply (proj1 (InsertSpannerEdit_update_visitor
                    (H := MoreExamples.registry6) (H0 := MoreExamples.libm6)
                    (H1 := Examples.spanners)
                    O Examples.insert9 ∅ Examples.world0 eq_refl)
             MoreExamples.visitor6 eq_refl).
  - apply (proj2 (proj2 (InsertSpannerEdit_update_visitor
                    (H := Examples.registry) (H0 := Examples.libm)
                    (H1 := Examples.spanners)
                    O Examples.insert9 ∅ Examples.world0 eq_refl))
             3 Examples.insertVisitor eq_refl ltac:(lia) eq_refl).
Defined.

(** ** Remove-spanner edit *)

(** The traversal rewrites roots only: the size of the bounds and the
    spanner collections are those it started from. *)
Lemma setRoot_preserves d an :
  MetavoxelData._size (MetavoxelData.setRoot d an) = MetavoxelData._size d /\
  MetavoxelData._spanners (MetavoxelData.setRoot d an) = MetavoxelData._spanners d.
Proof. destruct an as [[a|] [n|]]; split; reflexivity. Qed.

Lemma foldl_setRoot_preserves l :
  forall d,
    MetavoxelData._size (foldl MetavoxelData.setRoot d l) = MetavoxelData._size d /\
    MetavoxelData._spanners (foldl MetavoxelData.setRoot d l) = MetavoxelData._spanners d.
Proof.
  induction l as [|an l IH]; intros d; simpl; [split; reflexivity|].
  destruct (IH (MetavoxelData.setRoot d an)) as [Hs Hc].
  destruct (setRoot_preserves d an) as [Hs' Hc'].
  split; congruence.
Qed.

Lemma guide_preserves fuel v d d' :
  MetavoxelData.guide fuel v d = Some d' ->
  MetavoxelData._size d' = MetavoxelData._size d /\
  MetavoxelData._spanners d' = MetavoxelData._spanners d.
Proof.
  unfold MetavoxelData.guide. intros Hg.
  destruct (MetavoxelData.guideNode _ _ _ _ _ _ _) as [results|]; [|discriminate].
  simpl in Hg. injection Hg as <-. apply foldl_setRoot_preserves.
Qed.

Lemma World_guide_preserves fuel v w w' :
  World.guide fuel v w = Some w' ->
  MetavoxelData._size (World.data w') = MetavoxelData._size (World.data w) /\
  MetavoxelData._spanners (World.data w') = MetavoxelData._spanners (World.data w) /\
  World.referenceCounts w' = World.referenceCounts w /\
  World.debugLog w' = World.debugLog w.
Proof.
  unfold World.guide. intros Hg.
  destruct (MetavoxelData.guide fuel v (World.data w)) as [d|] eqn:Hd; [|discriminate].
  simpl in Hg. injection Hg as <-. simpl.
  destruct (guide_preserves _ _ _ _ Hd) as [Hs Hc]. repeat split; assumption.
Qed.

(** No spanner at the address of [object] is left in the collection that
    [remove] was called on, so none is found by a later query. *)
Lemma getIntersecting_remove a object box d s :
  s ∈ MetavoxelData.getIntersecting a box (MetavoxelData.remove a object d) ->
  address s <> address object.
Proof.
  unfold MetavoxelData.getIntersecting, MetavoxelData.remove.
  rewrite list_elem_of_filter. intros [_ Hin].
  destruct a as [a|]; simpl in *.
  - rewrite lookup_insert_eq in Hin. simpl in Hin.
    apply list_elem_of_filter in Hin. tauto.
  - inversion Hin.
Qed.

Lemma getIntersecting_spanners a box d d' :
  MetavoxelData._spanners d' = MetavoxelData._spanners d ->
  MetavoxelData.getIntersecting a box d' = MetavoxelData.getIntersecting a box d.
Proof.
  intros Heq. unfold MetavoxelData.getIntersecting, MetavoxelData.spannersOf.
  rewrite Heq. reflexivity.
Qed.

(** Releasing [k] references to an object that has more than [k] leaves it
    alive with [k] fewer. *)
Lemma release_many object l :
  forall w c,
    Forall (fun s => address s = address object) l ->
    World.referenceCounts w !! address object = Some c ->
    (length l < c)%nat ->
    World.referenceCounts (foldl (fun acc s => World.release s acc) w l)
      !! address object = Some (c - length l)%nat.
Proof.
  induction l as [|s l IH]; intros w c Hall Hc Hlt; simpl.
  - rewrite Hc. f_equal. lia.
  - inversion Hall as [|? ? Hs Hl]; subst. simpl in Hlt.
    rewrite (IH (World.release s w) (c - 1)%nat Hl).
    + f_equal. lia.
    + unfold World.release. simpl. rewrite Hs, Hc.
      destruct c as [|[|c]]; try lia.
      rewrite lookup_insert_eq. f_equal; lia.
    + lia.
Qed.

Lemma Forall_filter_address object (l : list Spanner) :
  Forall (fun s => address s = address object)
         (filter (fun s => address s = address object) l).
Proof.
  apply Forall_forall. intros s Hin. apply list_elem_of_filter in Hin. tauto.
Qed.

(** With its own reference taken first, the object outlives its removal
    from the collection, provided the collection held no more references
    than the object's count. *)
Lemma alive_after_remove a object w c :
  World.referenceCounts w !! address object = Some c ->
  (length (filter (fun s => address s = address object)
                  (MetavoxelData.spannersOf a (World.data w))) <= c)%nat ->
  World.alive object (World.remove a object (World.retain object w)) = true.
Proof.
  intros Hc Hstored. unfold World.alive, World.remove. simpl.
  rewrite (release_many object _ (World.retain object w) (S c)).
  - apply bool_decide_eq_true. eexists. reflexivity.
  - apply Forall_filter_address.
  - unfold World.retain. simpl. rewrite lookup_insert_eq, Hc. reflexivity.
  - lia.
Qed.

(** C3 (as amended).  For an id the object table does not hold,
    [RemoveSpannerEdit::apply] is a no-op that always returns: the metavoxel
    data and the reference counts are left exactly as they were.  The
    revision that runs the update visitor writes "Missing object to remove"
    and the id to the debug log before returning; the other revision
    returns silently. *)
Theorem RemoveSpannerEdit_absent_id `{AttributeRegistry} `{Libm} `{SpannerInterface}
    (fuel : nat) (e : RemoveSpannerEdit) (objects : WeakSharedObjectHash)
    (w : World.t) :
  objects !! id e = None ->
  MessagesA.RemoveSpannerEdit_apply e objects w = Some w /\
  exists w',
    MessagesB.RemoveSpannerEdit_apply fuel e objects w = Some w' /\
    World.data w' = World.data w /\
    World.referenceCounts w' = World.referenceCounts w /\
    World.debugLog w' =
      World.debugLog w ++ [("Missing object to remove"%string, id e)].
Proof.
  intros Habsent.
  unfold MessagesA.RemoveSpannerEdit_apply, MessagesB.RemoveSpannerEdit_apply.
  rewrite Habsent. split; [reflexivity|].
  eexists. split; [reflexivity|]. repeat split; reflexivity.
Qed.

Lemma RemoveSpannerEdit_absent_id_witness :
  MessagesA.RemoveSpannerEdit_apply Examples.remove8 Examples.objects0 Examples.world0
    = Some Examples.world0 /\
  exists w',
    MessagesB.RemoveSpannerEdit_apply
      (H := Examples.registry) (H0 := Examples.libm) (H1 := Examples.spanners)
      3 Examples.remove8 Examples.objects0 Examples.world0 = Some w' /\
    World.data w' = World.data Examples.world0 /\
    World.referenceCounts w' = World.referenceCounts Examples.world0 /\
    World.debugLog w' =
      World.debugLog Examples.world0 ++ [("Missing object to remove"%string, 8)].
Proof.
  apply (RemoveSpannerEdit_absent_id
           (H := Examples.registry) (H0 := Examples.libm) (H1 := Examples.spanners)
           3 Examples.remove8 Examples.objects0 Examples.world0).
  reflexivity.
Defined.

(** The revision without the update visitor does not log: removing the
    unknown id 8 returns the world as it was, its debug log still empty. *)
Lemma RemoveSpannerEdit_silent_counterexample :
  Examples.objects0 !! id Examples.remove8 = None /\
  exists w',
    MessagesA.RemoveSpannerEdit_apply Examples.remove8 Examples.objects0
      Examples.world0 = Some w' /\
    World.debugLog w' = [].
Proof.
  split; [reflexivity|]. exists Examples.world0. split; reflexivity.
Qed.

(** C6 (as amended).  For an id the object table holds, the object being
    alive and the collection holding no more references to it than its
    count:

    - the revision with the update visitor takes a strong reference first,
      which keeps the object alive when the collection lets go of it, then
      runs the update visitor of the removed spanner over its voxelized
      attributes, and drops the reference after that pass;
    - the other revision only calls [remove] on the data;
    - after either, no query of the attribute's spanners returns the
      removed object, whatever box is asked for. *)
Theorem RemoveSpannerEdit_present_id `{AttributeRegistry} `{Libm} `{SpannerInterface}
    (fuel : nat) (e : RemoveSpannerEdit) (objects : WeakSharedObjectHash)
    (w : World.t) (object : Spanner) (c : nat) :
  objects !! id e = Some object ->
  World.referenceCounts w !! address object = Some c ->
  (length (filter (fun s => address s = address object)
             (MetavoxelData.spannersOf (removeAttribute e) (World.data w))) <= c)%nat ->
  let held := World.retain object w in
  let unlinked := World.remove (removeAttribute e) object held in
  World.acquire object w = Some held /\
  World.deref object unlinked = Some object /\
  MessagesB.RemoveSpannerEdit_apply fuel e objects w =
    (visitor ← UpdateSpannerVisitor_new
                 (Some <$> getVoxelizedAttributes object) object;
     w3 ← World.guide fuel (UpdateSpannerVisitor_visitor visitor) unlinked;
     Some (World.release object w3)) /\
  (forall w' box s,
     MessagesB.RemoveSpannerEdit_apply fuel e objects w = Some w' ->
     s ∈ MetavoxelData.getIntersecting (removeAttribute e) box (World.data w') ->
     address s <> address object) /\
  MessagesA.RemoveSpannerEdit_apply e objects w =
    Some (World.remove (removeAttribute e) object w) /\
  (forall box s,
     s ∈ MetavoxelData.getIntersecting (removeAttribute e) box
           (World.data (World.remove (removeAttribute e) object w)) ->
     address s <> address object).
Proof.
  intros Hid Hc Hstored held unlinked.
  assert (Halive : World.alive object w = true).
  { unfold World.alive. apply bool_decide_eq_true. eexists. exact Hc. }
  assert (Hacq : World.acquire object w = Some held).
  { unfold World.acquire. rewrite Halive. reflexivity. }
  assert (Hderef : World.deref object unlinked = Some object).
  { unfold World.deref, unlinked, held.
    rewrite (alive_after_remove _ _ _ c Hc Hstored). reflexivity. }
  assert (HB : MessagesB.RemoveSpannerEdit_apply fuel e objects w =
    (visitor ← UpdateSpannerVisitor_new
                 (Some <$> getVoxelizedAttributes object) object;
     w3 ← World.guide fuel (UpdateSpannerVisitor_visitor visitor) unlinked;
     Some (World.release object w3))).
  { unfold MessagesB.RemoveSpannerEdit_apply. rewrite Hid, Hacq. simpl.
    fold held. fold unlinked. rewrite Hderef. reflexivity. }
  split; [exact Hacq|]. split; [exact Hderef|]. split; [exact HB|].
  split; [|split].
  - intros w' box s Happly Hin. rewrite HB in Happly.
    destruct (UpdateSpannerVisitor_new _ _) as [visitor|]; [|discriminate].
    simpl in Happly.
    destruct (World.guide fuel _ unlinked) as [w3|] eqn:Hguide; [|discriminate].
    simpl in Happly. injection Happly as <-.
    destruct (World_guide_preserves _ _ _ _ Hguide) as (_ & Hsp & _ & _).
    change (World.data (World.release object w3)) with (World.data w3) in Hin.
    rewrite (getIntersecting_spanners _ _ _ _ Hsp) in Hin.
    apply (getIntersecting_remove _ _ _ _ _ Hin).
  - unfold MessagesA.RemoveSpannerEdit_apply. rewrite Hid. reflexivity.
  - intros box s Hin. apply (getIntersecting_remove _ _ _ _ _ Hin).
Qed.

(** Removing id 7, the spanner at address 5 that only the collection owns:
    the object is still alive when the pass starts, the edit returns, and
    the spanner left in the collection is the one at address 6. *)
Lemma RemoveSpannerEdit_present_id_witness :
  World.deref (Examples.spanner 5)
    (World.remove (Some Examples.spannersAttribute) (Examples.spanner 5)
       (World.retain (Examples.spanner 5) Examples.world0))
    = Some (Examples.spanner 5) /\
  (exists w',
     MessagesB.RemoveSpannerEdit_apply
       (H := Examples.registry) (H0 := Examples.libm) (H1 := Examples.spanners)
       3 Examples.remove7 Examples.objects0 Examples.world0 = Some w' /\
     MetavoxelData.getIntersecting (Some Examples.spannersAttribute)
       Examples.unitBox (World.data w') = [Examples.spanner 6] /\
     World.referenceCounts w' !! 5%positive = None) /\
  MessagesA.RemoveSpannerEdit_apply Examples.remove7 Examples.objects0 Examples.world0
    = Some (World.remove (Some Examples.spannersAttribute) (Examples.spanner 5)
              Examples.world0).
Proof.
  pose proof (RemoveSpannerEdit_present_id
                (H := Examples.registry) (H0 := Examples.libm)
                (H1 := Examples.spanners)
                3 Examples.remove7 Examples.objects0 Examples.world0
                (Examples.spanner 5) 1%nat eq_refl eq_refl
                ltac:(vm_compute; lia)) as (_ & Hderef & HB & _ & HA & _).
  split; [exact Hderef|]. split; [|exact HA].
  rewrite HB. eexists. split; [vm_compute; reflexivity|].
  split; vm_compute; reflexivity.
Defined.

(** The revision without the update visitor runs no pass over the voxelized
    attributes: after it removes id 7 no root has been written, while the
    pass of the other revision leaves a root for the colour attribute that
    spanner 5 voxelizes; and without a reference of its own the object is
    gone as soon as the collection lets go of it. *)
Lemma RemoveSpannerEdit_no_pass_counterexample :
  Examples.objects0 !! id Examples.remove7 = Some (Examples.spanner 5) /\
  (exists w',
     MessagesA.RemoveSpannerEdit_apply Examples.remove7 Examples.objects0
       Examples.world0 = Some w' /\
     MetavoxelData._roots (World.data w') !! "color"%string = None /\
     World.referenceCounts w' !! 5%positive = None) /\
  (exists w',
     MessagesB.RemoveSpannerEdit_apply
       (H := Examples.registry) (H0 := Examples.libm) (H1 := Examples.spanners)
       3 Examples.remove7 Examples.objects0 Examples.world0 = Some w' /\
     is_Some (MetavoxelData._roots (World.data w') !! "color"%string)).
Proof.
  split; [reflexivity|]. split.
  - eexists. split; [reflexivity|]. split; vm_compute; reflexivity.
  - eexists. split; [vm_compute; reflexivity|].
    vm_compute. eexists. reflexivity.
Qed.

(** ** Material edit *)

(** C7.  The colour [HeightfieldMaterialSpannerEdit::apply] hands to
    [setMaterial] for every intersecting spanner is computed from the
    average colour: when painting, the alpha is forced to full opacity and
    the colour channels are kept; otherwise an alpha below 0.5 collapses the
    colour to the fully transparent [QColor(0, 0, 0, 0)], and any other
    alpha leaves the colour as it is. *)
Theorem HeightfieldMaterialSpannerEdit_effective_color
    `{AttributeRegistry} `{SpannerInterface}
    (e : MessagesA.HeightfieldMaterialSpannerEdit)
    (objects : WeakSharedObjectHash) (w : World.t) :
  let average := MessagesA.averageColor e in
  let color := MessagesA.HeightfieldMaterialSpannerEdit_color e in
  (MessagesA.paint e = true ->
     color = QColor.mk (QColor.cspec average) QColor.USHRT_MAX (QColor.red average)
               (QColor.green average) (QColor.blue average) /\
     QColor.alphaF color = QColor.qreal_one) /\
  (MessagesA.paint e = false ->
   SFltb (QColor.alphaF average) QColor.qreal_half = true ->
     color = QColor.mk QColor.Rgb 0 0 0 0) /\
  (MessagesA.paint e = false ->
   SFltb (QColor.alphaF average) QColor.qreal_half = false ->
     color = average) /\
  MessagesA.HeightfieldMaterialSpannerEdit_apply e objects w =
    Some (foldl
            (fun acc result =>
               let newResult :=
                 setMaterial result (MessagesA.materialSpanner e)
                   (MessagesA.material e) color (MessagesA.paint e) in
               if negb (same_instance newResult result)
               then World.replace (Some getSpannersAttribute) result newResult acc
               else acc)
            w
            (MetavoxelData.getIntersecting (Some getSpannersAttribute)
               (getBounds (MessagesA.materialSpanner e)) (World.data w))).
Proof.
  intros average color. subst color average.
  unfold MessagesA.HeightfieldMaterialSpannerEdit_color.
  split; [|split; [|split]].
  - intros ->. split; reflexivity.
  - intros -> ->. reflexivity.
  - intros -> ->. reflexivity.
  - reflexivity.
Qed.

(** An average colour of alpha 0.4 is stored fully transparent, one of
    alpha 0.6 as it is, when the edit does not paint. *)
Lemma HeightfieldMaterialSpannerEdit_effective_color_witness :
  MessagesA.HeightfieldMaterialSpannerEdit_color (Examples.materialEdit 26214 false)
    = QColor.mk QColor.Rgb 0 0 0 0 /\
  MessagesA.HeightfieldMaterialSpannerEdit_color (Examples.materialEdit 39321 false)
    = Examples.orange 39321 /\
  MessagesA.HeightfieldMaterialSpannerEdit_color (Examples.materialEdit 26214 true)
    = Examples.orange 65535.
Proof.
  split; [|split].
  - apply (proj1 (proj2 (HeightfieldMaterialSpannerEdit_effective_color
             (H := Examples.registry) (H0 := Examples.spanners)
             (Examples.materialEdit 26214 false) ∅ Examples.world0)));
      vm_compute; reflexivity.
  - apply (proj1 (proj2 (proj2 (HeightfieldMaterialSpannerEdit_effective_color
             (H := Examples.registry) (H0 := Examples.spanners)
             (Examples.materialEdit 39321 false) ∅ Examples.world0))));
      vm_compute; reflexivity.
  - apply (proj1 (proj1 (HeightfieldMaterialSpannerEdit_effective_color
             (H := Examples.registry) (H0 := Examples.spanners)
             (Examples.materialEdit 26214 true) ∅ Examples.world0) eq_refl)).
Defined.

(** ** Bounds *)

(** Doubling and halving a power of two, checked on every exponent of the
    normal range. *)
Lemma mul_two_pow2 k :
  -126 <= k < 127 -> F32.mul (pow2 k) F32.two = pow2 (k + 1).
Proof.
  intros Hk.
  assert (Hall : forallb
            (fun k => bool_decide (F32.mul (pow2 k) F32.two = pow2 (k + 1)))
            ((fun i => -126 + Z.of_nat i) <$> seq 0 253) = true)
    by (vm_compute; reflexivity).
  pose proof (forallb_Z_range _ _ _ Hall k ltac:(lia)) as Hb.
  apply bool_decide_eq_true in Hb. exact Hb.
Qed.

Lemma mul_half_pow2 k :
  -125 <= k <= 127 -> F32.mul (pow2 k) F32.half = pow2 (k - 1).
Proof.
  intros Hk.
  assert (Hall : forallb
            (fun k => bool_decide (F32.mul (pow2 k) F32.half = pow2 (k - 1)))
            ((fun i => -125 + Z.of_nat i) <$> seq 0 253) = true)
    by (vm_compute; reflexivity).
  pose proof (forallb_Z_range _ _ _ Hall k ltac:(lia)) as Hb.
  apply bool_decide_eq_true in Hb. exact Hb.
Qed.

Lemma le_pow2 a b : a <= b -> F32.le (pow2 a) (pow2 b) = true.
Proof.
  intros Hab. unfold F32.le, SFleb, pow2. simpl.
  destruct (Z.compare_spec (a - 23) (b - 23)) as [Heq|Hlt|Hgt];
    try reflexivity; lia.
Qed.

Lemma le_opp_pow2 a b :
  a <= b -> F32.le (F32.opp (pow2 b)) (F32.opp (pow2 a)) = true.
Proof.
  intros Hab. unfold F32.le, SFleb, pow2. simpl.
  destruct (Z.compare_spec (b - 23) (a - 23)) as [Heq|Hlt|Hgt];
    try reflexivity; lia.
Qed.

Lemma getBounds_pow2 d k :
  MetavoxelData._size d = pow2 k -> -125 <= k <= 127 ->
  MetavoxelData.getBounds d = originCube k.
Proof.
  intros Hsize Hk. unfold MetavoxelData.getBounds, originCube.
  rewrite Hsize, (mul_half_pow2 k Hk). reflexivity.
Qed.

Lemma contains_originCube a b :
  a <= b -> Box.contains (originCube b) (originCube a) = true.
Proof.
  intros Hab.
  pose proof (le_opp_pow2 (a - 1) (b - 1) ltac:(lia)) as Hlow.
  pose proof (le_pow2 (a - 1) (b - 1) ltac:(lia)) as Hhigh.
  unfold F32.le in Hlow, Hhigh.
  unfold Box.contains, originCube, F32.ge, F32.le.
  cbn [Box.minimum Box.maximum vec3.x vec3.y vec3.z vec3.splat].
  rewrite Hlow, Hhigh. reflexivity.
Qed.

Lemma grownByDoubling_same k d d' :
  MetavoxelData._size d = pow2 k -> -125 <= k <= 127 ->
  MetavoxelData._size d' = MetavoxelData._size d ->
  grownByDoubling k None d d'.
Proof.
  intros Hsize Hk Hsame. exists O.
  assert (Hb : MetavoxelData.getBounds d' = MetavoxelData.getBounds d).
  { unfold MetavoxelData.getBounds. rewrite Hsame. reflexivity. }
  rewrite Z.add_0_r, Hb, Hsame, (getBounds_pow2 d k Hsize Hk).
  split; [reflexivity|]. split; [lia|]. split; [exact Hsize|].
  split; [reflexivity|]. split; [apply contains_originCube; lia|].
  intros box Hbox. discriminate Hbox.
Qed.

(** A traversal after the growth does not undo it. *)
Lemma grownByDoubling_then k target d d1 d2 :
  grownByDoubling k target d d1 ->
  MetavoxelData._size d2 = MetavoxelData._size d1 ->
  grownByDoubling k target d d2.
Proof.
  intros (n & Hiter & Hle & Hsize & Hbounds & Hold & Htarget) Hsame.
  assert (Hb : MetavoxelData.getBounds d2 = MetavoxelData.getBounds d1).
  { unfold MetavoxelData.getBounds. rewrite Hsame. reflexivity. }
  exists n. rewrite Hb, Hsame.
  split; [exact Hiter|]. split; [exact Hle|]. split; [exact Hsize|].
  split; [exact Hbounds|]. split; [exact Hold | exact Htarget].
Qed.

(** The expansion loop: what it returns has grown by doubling and contains
    the box, provided the box fits in the largest finite power-of-two
    cube. *)
Lemma expandToFit_grows fuel :
  forall box d k d',
    MetavoxelData._size d = pow2 k -> -125 <= k <= 127 ->
    Box.contains (originCube 127) box = true ->
    MetavoxelData.expandToFit fuel box d = Some d' ->
    grownByDoubling k (Some box) d d'.
Proof.
  induction fuel as [|fuel IH]; intros box d k d' Hsize Hk Hfits Hrun;
    simpl in Hrun;
    destruct (Box.contains (MetavoxelData.getBounds d) box) eqn:Hc;
    try discriminate.
  1, 2: injection Hrun as <-; exists O;
    rewrite Z.add_0_r, (getBounds_pow2 d k Hsize Hk);
    (split; [reflexivity|]); (split; [lia|]); (split; [exact Hsize|]);
    (split; [reflexivity|]); (split; [apply contains_originCube; lia|]);
    intros box' [= <-];
    (split; [rewrite <- (getBounds_pow2 d k Hsize Hk); exact Hc | intros j Hj; lia]).
  assert (Hlt : k < 127).
  { destruct (Z.eq_dec k 127) as [->|]; [|lia].
    rewrite (getBounds_pow2 d 127 Hsize Hk), Hfits in Hc. discriminate. }
  assert (Hsize' : MetavoxelData._size (MetavoxelData.expand d) = pow2 (k + 1)).
  { simpl. rewrite Hsize. apply mul_two_pow2. lia. }
  destruct (IH box _ (k + 1) d' Hsize' ltac:(lia) Hfits Hrun)
    as (n & Hiter & Hle & Hsz & Hbounds & _ & Htarget).
  exists (S n).
  replace (k + Z.of_nat (S n)) with (k + 1 + Z.of_nat n) by lia.
  split; [|split; [|split; [|split; [|split]]]]; try assumption.
  - rewrite Hiter. simpl MetavoxelData._size.
    rewrite Nat.iter_succ_r. reflexivity.
  - rewrite Hbounds, (getBounds_pow2 d k Hsize Hk).
    apply contains_originCube. lia.
  - intros box' Hbox. destruct (Htarget box' Hbox) as [Hin Hbefore].
    split; [exact Hin|]. intros [|j] Hj.
    + injection Hbox as <-. rewrite Z.add_0_r.
      rewrite <- (getBounds_pow2 d k Hsize Hk). exact Hc.
    + replace (k + Z.of_nat (S j)) with (k + 1 + Z.of_nat j) by lia.
      apply Hbefore. lia.
Qed.

(** The expansion loop ends: from a cube of edge [2^k] at most [127 - k]
    doublings are needed. *)
Lemma expandToFit_terminates fuel :
  forall box d k,
    MetavoxelData._size d = pow2 k -> -125 <= k <= 127 ->
    Box.contains (originCube 127) box = true ->
    (Z.to_nat (127 - k) <= fuel)%nat ->
    is_Some (MetavoxelData.expandToFit fuel box d).
Proof.
  induction fuel as [|fuel IH]; intros box d k Hsize Hk Hfits Hfuel; simpl;
    destruct (Box.contains (MetavoxelData.getBounds d) box) eqn:Hc;
    try (eexists; reflexivity).
  - replace k with 127 in * by lia.
    rewrite (getBounds_pow2 d 127 Hsize Hk), Hfits in Hc. discriminate.
  - assert (Hlt : k < 127).
    { destruct (Z.eq_dec k 127) as [->|]; [|lia].
      rewrite (getBounds_pow2 d 127 Hsize Hk), Hfits in Hc. discriminate. }
    apply (IH box _ (k + 1)); try assumption; try lia.
    simpl. rewrite Hsize. apply mul_two_pow2. lia.
Qed.

Lemma setSpanners_size a l d :
  MetavoxelData._size (MetavoxelData.setSpanners a l d) = MetavoxelData._size d.
Proof. destruct a; reflexivity. Qed.

Lemma World_replace_size a o n w :
  MetavoxelData._size (World.data (World.replace a o n w)) =
  MetavoxelData._size (World.data w).
Proof. unfold World.replace. simpl. apply setSpanners_size. Qed.

Lemma foldl_size {A : Type} (step : World.t -> A -> World.t) (l : list A) :
  (forall acc x, MetavoxelData._size (World.data (step acc x)) =
                 MetavoxelData._size (World.data acc)) ->
  forall w, MetavoxelData._size (World.data (foldl step w l)) =
            MetavoxelData._size (World.data w).
Proof.
  intros Hstep. induction l as [|x l IH]; intros w; simpl; [reflexivity|].
  rewrite IH. apply Hstep.
Qed.

Lemma World_guide_size fuel v w w' :
  World.guide fuel v w = Some w' ->
  MetavoxelData._size (World.data w') = MetavoxelData._size (World.data w).
Proof. intros Hg. apply (World_guide_preserves _ _ _ _ Hg). Qed.

(** *** Containment *)

Lemma contains_trans a b c :
  Box.contains a b = true -> Box.contains b c = true -> Box.contains a c = true.
Proof.
  unfold Box.contains, F32.ge, F32.le. intros Hab Hbc.
  repeat (apply andb_true_iff in Hab as [Hab ?]).
  repeat (apply andb_true_iff in Hbc as [Hbc ?]).
  repeat (apply andb_true_iff; split);
    eapply SFleb_trans; eassumption.
Qed.

Lemma SFleb_not_nan a b :
  SFleb a b = true -> is_nan a = false /\ is_nan b = false.
Proof.
  intros Hle. apply SFleb_key in Hle as (ka & kb & Ha & Hb & _).
  split; [destruct a|destruct b]; try reflexivity; discriminate.
Qed.

(** No box contains a box with a NaN coordinate. *)
Lemma hasNaN_not_contained b box :
  hasNaN box = true -> Box.contains b box = false.
Proof.
  intros Hnan. destruct (Box.contains b box) eqn:Hc; [|reflexivity].
  unfold Box.contains, F32.ge, F32.le in Hc.
  repeat (apply andb_true_iff in Hc as [Hc ?]).
  repeat match goal with
         | H : SFleb _ _ = true |- _ => apply SFleb_not_nan in H as [? ?]
         end.
  unfold hasNaN in Hnan.
  repeat match goal with
         | H : is_nan _ = false |- _ => rewrite H in Hnan; clear H
         end.
  discriminate Hnan.
Qed.

Lemma le_from_minus_infinity a :
  is_nan a = false -> SFleb (S754_infinity true) a = true.
Proof. destruct a as [[]|[]| |[] m e]; try reflexivity; discriminate. Qed.

Lemma le_to_plus_infinity a :
  is_nan a = false -> SFleb a (S754_infinity false) = true.
Proof. destruct a as [[]|[]| |[] m e]; try reflexivity; discriminate. Qed.

(** The cube without bounds contains every box without a NaN. *)
Lemma contains_infiniteCube box :
  hasNaN box = false -> Box.contains infiniteCube box = true.
Proof.
  unfold hasNaN. intros Hnan.
  repeat (apply orb_false_iff in Hnan as [Hnan ?]).
  unfold Box.contains, infiniteCube, F32.ge, F32.le.
  cbn [Box.minimum Box.maximum vec3.splat vec3.x vec3.y vec3.z].
  rewrite !le_from_minus_infinity, !le_to_plus_infinity by assumption.
  reflexivity.
Qed.

Lemma hasNaN_originCube j : hasNaN (originCube j) = false.
Proof. reflexivity. Qed.

(** *** The expansion loop, unrolled *)

Lemma expandToFit_iter n :
  forall fuel box d,
    (forall j, (j < n)%nat ->
       Box.contains (MetavoxelData.getBounds (Nat.iter j MetavoxelData.expand d)) box
       = false) ->
    Box.contains (MetavoxelData.getBounds (Nat.iter n MetavoxelData.expand d)) box
    = true ->
    (n <= fuel)%nat ->
    MetavoxelData.expandToFit fuel box d = Some (Nat.iter n MetavoxelData.expand d).
Proof.
  induction n as [|n IH]; intros fuel box d Hbefore Hat Hfuel.
  - simpl in Hat. destruct fuel; simpl; rewrite Hat; reflexivity.
  - destruct fuel as [|fuel]; [lia|]. simpl MetavoxelData.expandToFit.
    pose proof (Hbefore O ltac:(lia)) as Hfirst. simpl in Hfirst. rewrite Hfirst.
    rewrite Nat.iter_succ_r. apply IH; [| |lia].
    + intros j Hj. rewrite <- Nat.iter_succ_r. apply Hbefore. lia.
    + rewrite <- Nat.iter_succ_r. exact Hat.
Qed.

Lemma expandToFit_none fuel :
  forall box d,
    (forall j, (j <= fuel)%nat ->
       Box.contains (MetavoxelData.getBounds (Nat.iter j MetavoxelData.expand d)) box
       = false) ->
    MetavoxelData.expandToFit fuel box d = None.
Proof.
  induction fuel as [|fuel IH]; intros box d Hnever;
    pose proof (Hnever O ltac:(lia)) as Hfirst; simpl in Hfirst;
    simpl; rewrite Hfirst; [reflexivity|].
  apply IH. intros j Hj. rewrite <- Nat.iter_succ_r. apply Hnever. lia.
Qed.

Lemma iter_expand_size n d :
  MetavoxelData._size (Nat.iter n MetavoxelData.expand d) =
  Nat.iter n (fun s => F32.mul s F32.two) (MetavoxelData._size d).
Proof. induction n as [|n IH]; simpl; [reflexivity|]. rewrite IH. reflexivity. Qed.

Lemma iter_double_pow2 n k :
  -126 <= k -> k + Z.of_nat n <= 127 ->
  Nat.iter n (fun s => F32.mul s F32.two) (pow2 k) = pow2 (k + Z.of_nat n).
Proof.
  intros Hk. induction n as [|n IH]; intros Hn; simpl Nat.iter.
  - rewrite Z.add_0_r. reflexivity.
  - rewrite IH by lia. rewrite mul_two_pow2 by lia. f_equal. lia.
Qed.

(** Doubling the edge [2^127] gives infinity. *)
Lemma iter_double_overflow k :
  -126 <= k <= 127 ->
  Nat.iter (Z.to_nat (128 - k)) (fun s => F32.mul s F32.two) (pow2 k)
  = S754_infinity false.
Proof.
  intros Hk. replace (Z.to_nat (128 - k)) with (S (Z.to_nat (127 - k))) by lia.
  simpl Nat.iter. rewrite iter_double_pow2 by lia.
  replace (k + Z.of_nat (Z.to_nat (127 - k))) with 127 by lia. reflexivity.
Qed.

Lemma getBounds_infinite d :
  MetavoxelData._size d = S754_infinity false ->
  MetavoxelData.getBounds d = infiniteCube.
Proof. intros Hsize. unfold MetavoxelData.getBounds. rewrite Hsize. reflexivity. Qed.

(** A region that the cube of edge [2^127] does not hold is held by no
    cube on the way there. *)
Lemma not_contained_before box j :
  Box.contains (originCube 127) box = false -> j <= 127 ->
  Box.contains (originCube j) box = false.
Proof.
  intros Hfits Hj. destruct (Box.contains (originCube j) box) eqn:Hc; [|reflexivity].
  rewrite (contains_trans _ _ _ (contains_originCube j 127 Hj) Hc) in Hfits.
  discriminate.
Qed.

Lemma getBounds_iter_expand d k j :
  MetavoxelData._size d = pow2 k -> -125 <= k -> k + Z.of_nat j <= 127 ->
  MetavoxelData.getBounds (Nat.iter j MetavoxelData.expand d)
  = originCube (k + Z.of_nat j).
Proof.
  intros Hsize Hk Hj. apply getBounds_pow2; [|lia].
  rewrite iter_expand_size, Hsize. apply iter_double_pow2; lia.
Qed.

(** The loop on a region that fits into no cube of finite edge and has no
    NaN: it ends with an infinite edge. *)
Lemma expandToFit_overflows fuel box d k :
  MetavoxelData._size d = pow2 k -> -125 <= k <= 127 ->
  Box.contains (originCube 127) box = false -> hasNaN box = false ->
  (Z.to_nat (128 - k) <= fuel)%nat ->
  MetavoxelData.expandToFit fuel box d =
  Some (Nat.iter (Z.to_nat (128 - k)) MetavoxelData.expand d).
Proof.
  intros Hsize Hk Hfits Hnan Hfuel. apply expandToFit_iter; [| |exact Hfuel].
  - intros j Hj. rewrite (getBounds_iter_expand d k j Hsize) by lia.
    apply not_contained_before; [exact Hfits|lia].
  - rewrite getBounds_infinite; [apply contains_infiniteCube; exact Hnan|].
    rewrite iter_expand_size, Hsize. apply iter_double_overflow. lia.
Qed.

Lemma overflown_iter box d k :
  MetavoxelData._size d = pow2 k -> -125 <= k <= 127 ->
  Box.contains (originCube 127) box = false -> hasNaN box = false ->
  overflown k (Some box) d (Nat.iter (Z.to_nat (128 - k)) MetavoxelData.expand d).
Proof.
  intros Hsize Hk Hfits Hnan.
  assert (Hinf : MetavoxelData._size
                   (Nat.iter (Z.to_nat (128 - k)) MetavoxelData.expand d)
                 = S754_infinity false).
  { rewrite iter_expand_size, Hsize. apply iter_double_overflow. lia. }
  unfold overflown. rewrite (getBounds_infinite _ Hinf).
  split; [apply iter_expand_size|]. split; [exact Hinf|]. split; [reflexivity|].
  split.
  - rewrite (getBounds_pow2 d k Hsize Hk). apply contains_infiniteCube.
    apply hasNaN_originCube.
  - intros box' [= <-]. split; [exact Hnan|].
    split; [apply contains_infiniteCube; exact Hnan|].
    intros j Hj. apply not_contained_before; [exact Hfits|lia].
Qed.

(** Whatever the loop returns on such a region is that. *)
Lemma expandToFit_overflown fuel box d k d' :
  MetavoxelData._size d = pow2 k -> -125 <= k <= 127 ->
  Box.contains (originCube 127) box = false ->
  MetavoxelData.expandToFit fuel box d = Some d' ->
  overflown k (Some box) d d'.
Proof.
  intros Hsize Hk Hfits Hrun.
  destruct (hasNaN box) eqn:Hnan.
  { rewrite expandToFit_none in Hrun; [discriminate|].
    intros j _. apply hasNaN_not_contained. exact Hnan. }
  destruct (le_lt_dec (Z.to_nat (128 - k)) fuel) as [Hfuel|Hfuel].
  - rewrite (expandToFit_overflows fuel box d k Hsize Hk Hfits Hnan Hfuel) in Hrun.
    injection Hrun as <-. apply overflown_iter; assumption.
  - rewrite expandToFit_none in Hrun; [discriminate|].
    intros j Hj. rewrite (getBounds_iter_expand d k j Hsize) by lia.
    apply not_contained_before; [exact Hfits|lia].
Qed.

Lemma overflown_then k target d d1 d2 :
  overflown k target d d1 ->
  MetavoxelData._size d2 = MetavoxelData._size d1 ->
  overflown k target d d2.
Proof.
  intros (Hiter & Hinf & Hbounds & Hold & Htarget) Hsame.
  assert (Hb : MetavoxelData.getBounds d2 = MetavoxelData.getBounds d1).
  { unfold MetavoxelData.getBounds. rewrite Hsame. reflexivity. }
  unfold overflown. rewrite Hb, Hsame.
  split; [exact Hiter|]. split; [exact Hinf|]. split; [exact Hbounds|].
  split; [exact Hold|exact Htarget].
Qed.

(** *** The bounds an edit leaves *)

Lemma boundsAfter_expandToFit fuel box d k d' :
  MetavoxelData._size d = pow2 k -> -125 <= k <= 127 ->
  MetavoxelData.expandToFit fuel box d = Some d' ->
  boundsAfter k (Some box) d d'.
Proof.
  intros Hsize Hk Hrun. unfold boundsAfter, fitsFinite.
  destruct (Box.contains (originCube 127) box) eqn:Hfits.
  - apply (expandToFit_grows fuel box d k d' Hsize Hk Hfits Hrun).
  - apply (expandToFit_overflown fuel box d k d' Hsize Hk Hfits Hrun).
Qed.

Lemma boundsAfter_then k target d d1 d2 :
  boundsAfter k target d d1 ->
  MetavoxelData._size d2 = MetavoxelData._size d1 ->
  boundsAfter k target d d2.
Proof.
  unfold boundsAfter. destruct (fitsFinite target); intros Hd Hsame.
  - apply (grownByDoubling_then k target d d1 d2 Hd Hsame).
  - apply (overflown_then k target d d1 d2 Hd Hsame).
Qed.

Lemma boundsAfter_same k d d' :
  MetavoxelData._size d = pow2 k -> -125 <= k <= 127 ->
  MetavoxelData._size d' = MetavoxelData._size d ->
  boundsAfter k None d d'.
Proof. intros Hsize Hk Hsame. apply (grownByDoubling_same k d d' Hsize Hk Hsame). Qed.

(** The loop has a result whenever the region has no NaN, and none when it
    has one. *)
Lemma expandToFit_is_Some fuel box d k :
  MetavoxelData._size d = pow2 k -> -125 <= k <= 127 ->
  hasNaN box = false -> (Z.to_nat (128 - k) <= fuel)%nat ->
  is_Some (MetavoxelData.expandToFit fuel box d).
Proof.
  intros Hsize Hk Hnan Hfuel.
  destruct (Box.contains (originCube 127) box) eqn:Hfits.
  - apply (expandToFit_terminates fuel box d k Hsize Hk Hfits). lia.
  - rewrite (expandToFit_overflows fuel box d k Hsize Hk Hfits Hnan Hfuel).
    eexists. reflexivity.
Qed.

Lemma expandToFit_NaN fuel box d :
  hasNaN box = true -> MetavoxelData.expandToFit fuel box d = None.
Proof.
  intros Hnan. apply expandToFit_none. intros j _.
  apply hasNaN_not_contained. exact Hnan.
Qed.

Lemma World_insert_bounds fuel a s w w' k :
  MetavoxelData._size (World.data w) = pow2 k -> -125 <= k <= 127 ->
  World.insert fuel a s w = Some w' ->
  boundsAfter k (Some (getBounds s)) (World.data w) (World.data w').
Proof.
  intros Hsize Hk. unfold World.insert, MetavoxelData.insert, spannerBounds.
  destruct (MetavoxelData.expandToFit fuel (getBounds s) (World.data w))
    as [d1|] eqn:Hexp; [|discriminate].
  simpl. intros [= <-]. simpl.
  apply (boundsAfter_then k _ _ d1).
  - apply (boundsAfter_expandToFit fuel _ _ k d1 Hsize Hk Hexp).
  - apply setSpanners_size.
Qed.

(** An edit that expands to fit a box and then traverses. *)
Lemma expand_then_guide_bounds fuel box v w w' k :
  MetavoxelData._size (World.data w) = pow2 k -> -125 <= k <= 127 ->
  (w1 ← World.expandToFit fuel box w; World.guide fuel v w1) = Some w' ->
  boundsAfter k (Some box) (World.data w) (World.data w').
Proof.
  intros Hsize Hk Hrun. unfold World.expandToFit in Hrun.
  destruct (MetavoxelData.expandToFit fuel box (World.data w)) as [d|] eqn:Hexp;
    [|discriminate].
  simpl in Hrun.
  apply (boundsAfter_then k (Some box) (World.data w) d).
  - apply (boundsAfter_expandToFit fuel box _ k d Hsize Hk Hexp).
  - apply (World_guide_size _ _ _ _ Hrun).
Qed.

Lemma revisionA_edit_bounds `{AttributeRegistry} `{SpannerInterface} `{AttributeMerge}
    (fuel : nat) (edit : MessagesA.MetavoxelEdit) (objects : WeakSharedObjectHash)
    (w w' : World.t) (k : Z) :
  MetavoxelData._size (World.data w) = pow2 k -> -125 <= k <= 127 ->
  MessagesA.MetavoxelEditMessage_apply fuel edit objects w = Some w' ->
  boundsAfter k (regionOfA edit) (World.data w) (World.data w').
Proof.
  intros Hsize Hk Hrun.
  destruct edit as [e|e|e|e|e|e|e|e|]; simpl in Hrun; simpl regionOfA.
  - apply (expand_then_guide_bounds fuel (region e) _ w w' k Hsize Hk Hrun).
  - apply (boundsAfter_same k _ _ Hsize Hk).
    apply (World_guide_size _ _ _ _ Hrun).
  - apply (World_insert_bounds fuel _ _ w w' k Hsize Hk Hrun).
  - unfold MessagesA.RemoveSpannerEdit_apply in Hrun.
    apply (boundsAfter_same k _ _ Hsize Hk).
    destruct (objects !! id e); injection Hrun as <-; [|reflexivity].
    simpl. apply setSpanners_size.
  - injection Hrun as <-. apply (boundsAfter_same k _ _ Hsize Hk).
    simpl. apply setSpanners_size.
  - unfold MessagesA.SetDataEdit_apply, MetavoxelData.set in Hrun.
    destruct (MetavoxelData.expandToFit fuel _ (World.data w)) as [d1|] eqn:Hexp;
      [|discriminate].
    simpl in Hrun. injection Hrun as <-.
    apply (boundsAfter_then k _ _ d1).
    + apply (boundsAfter_expandToFit fuel _ _ k d1 Hsize Hk Hexp).
    + reflexivity.
  - injection Hrun as <-. apply (boundsAfter_same k _ _ Hsize Hk).
    apply foldl_size. intros acc x.
    destruct (negb _); [apply World_replace_size | reflexivity].
  - injection Hrun as <-. apply (boundsAfter_same k _ _ Hsize Hk).
    apply foldl_size. intros acc x.
    destruct (negb _); [apply World_replace_size | reflexivity].
  - injection Hrun as <-. apply (boundsAfter_same k _ _ Hsize Hk).
    reflexivity.
Qed.

Lemma revisionB_edit_bounds `{AttributeRegistry} `{Libm} `{SpannerInterface}
    (fuel : nat) (edit : MessagesB.MetavoxelEdit) (objects : WeakSharedObjectHash)
    (w w' : World.t) (k : Z) :
  MetavoxelData._size (World.data w) = pow2 k -> -125 <= k <= 127 ->
  MessagesB.MetavoxelEditMessage_apply fuel edit objects w = Some w' ->
  boundsAfter k (regionOfB edit) (World.data w) (World.data w').
Proof.
  intros Hsize Hk Hrun.
  destruct edit as [e|e|e|e|e|e]; simpl in Hrun; simpl regionOfB.
  - apply (expand_then_guide_bounds fuel (region e) _ w w' k Hsize Hk Hrun).
  - apply (boundsAfter_same k _ _ Hsize Hk).
    apply (World_guide_size _ _ _ _ Hrun).
  - unfold MessagesB.InsertSpannerEdit_apply in Hrun.
    destruct (World.insert fuel _ _ w) as [w1|] eqn:Hins; [|discriminate].
    simpl in Hrun.
    destruct (UpdateSpannerVisitor_new _ _) as [visitor|]; [|discriminate].
    simpl in Hrun.
    apply (boundsAfter_then k _ _ (World.data w1)).
    + apply (World_insert_bounds fuel _ _ w w1 k Hsize Hk Hins).
    + apply (World_guide_size _ _ _ _ Hrun).
  - unfold MessagesB.RemoveSpannerEdit_apply in Hrun.
    apply (boundsAfter_same k _ _ Hsize Hk).
    destruct (objects !! id e) as [object|]; [|injection Hrun as <-; reflexivity].
    unfold World.acquire, World.deref in Hrun.
    destruct (World.alive object w); [|discriminate]. simpl in Hrun.
    destruct (World.alive object _); [|discriminate]. simpl in Hrun.
    destruct (UpdateSpannerVisitor_new _ _) as [visitor|]; [|discriminate].
    simpl in Hrun.
    destruct (World.guide fuel _ _) as [w3|] eqn:Hguide; [|discriminate].
    simpl in Hrun. injection Hrun as <-. simpl.
    rewrite (World_guide_size _ _ _ _ Hguide). simpl. apply setSpanners_size.
  - injection Hrun as <-. apply (boundsAfter_same k _ _ Hsize Hk).
    simpl. apply setSpanners_size.
  - apply (expand_then_guide_bounds fuel _ _ w w' k Hsize Hk Hrun).
Qed.

Lemma World_expandToFit_NaN fuel box w :
  hasNaN box = true -> World.expandToFit fuel box w = None.
Proof.
  intros Hnan. unfold World.expandToFit.
  rewrite (expandToFit_NaN fuel box _ Hnan). reflexivity.
Qed.

Lemma World_insert_NaN fuel a s w :
  hasNaN (getBounds s) = true -> World.insert fuel a s w = None.
Proof.
  intros Hnan. unfold World.insert, MetavoxelData.insert, spannerBounds.
  rewrite (expandToFit_NaN fuel _ _ Hnan). reflexivity.
Qed.

Lemma revisionA_edit_NaN `{AttributeRegistry} `{SpannerInterface} `{AttributeMerge}
    (fuel : nat) (edit : MessagesA.MetavoxelEdit) (objects : WeakSharedObjectHash)
    (w : World.t) (box : Box.t) :
  regionOfA edit = Some box -> hasNaN box = true ->
  MessagesA.MetavoxelEditMessage_apply fuel edit objects w = None.
Proof.
  intros Hregion Hnan.
  destruct edit as [e|e|e|e|e|e|e|e|]; simpl in Hregion; try discriminate;
    injection Hregion as <-; simpl.
  - unfold BoxSetEdit_apply. rewrite (World_expandToFit_NaN _ _ _ Hnan). reflexivity.
  - apply (World_insert_NaN _ _ _ _ Hnan).
  - unfold MessagesA.SetDataEdit_apply, MetavoxelData.set.
    rewrite (expandToFit_NaN fuel _ _ Hnan). reflexivity.
Qed.

Lemma revisionB_edit_NaN `{AttributeRegistry} `{Libm} `{SpannerInterface}
    (fuel : nat) (edit : MessagesB.MetavoxelEdit) (objects : WeakSharedObjectHash)
    (w : World.t) (box : Box.t) :
  regionOfB edit = Some box -> hasNaN box = true ->
  MessagesB.MetavoxelEditMessage_apply fuel edit objects w = None.
Proof.
  intros Hregion Hnan.
  destruct edit as [e|e|e|e|e|e]; simpl in Hregion; try discriminate;
    injection Hregion as <-; simpl.
  - unfold BoxSetEdit_apply. rewrite (World_expandToFit_NaN _ _ _ Hnan). reflexivity.
  - unfold MessagesB.InsertSpannerEdit_apply.
    rewrite (World_insert_NaN _ _ _ _ Hnan). reflexivity.
  - unfold MessagesB.SetSpannerEdit_apply.
    rewrite (World_expandToFit_NaN _ _ _ Hnan). reflexivity.
Qed.

(** The edits of revision A that run no traversal return. *)
Lemma revisionA_edit_returns `{AttributeRegistry} `{SpannerInterface} `{AttributeMerge}
    (fuel : nat) (edit : MessagesA.MetavoxelEdit) (objects : WeakSharedObjectHash)
    (w : World.t) (k : Z) :
  MetavoxelData._size (World.data w) = pow2 k -> -125 <= k <= 127 ->
  traversesA edit = false ->
  (forall box, regionOfA edit = Some box -> hasNaN box = false) ->
  (Z.to_nat (128 - k) <= fuel)%nat ->
  is_Some (MessagesA.MetavoxelEditMessage_apply fuel edit objects w).
Proof.
  intros Hsize Hk Htrav Hnan Hfuel.
  destruct edit as [e|e|e|e|e|e|e|e|]; simpl in Htrav; try discriminate; simpl.
  - unfold MessagesA.InsertSpannerEdit_apply, World.insert, MetavoxelData.insert,
      spannerBounds.
    destruct (expandToFit_is_Some fuel (getBounds (insertSpanner e)) (World.data w) k
                Hsize Hk (Hnan _ eq_refl) Hfuel) as [d1 Hd1].
    rewrite Hd1. eexists. reflexivity.
  - unfold MessagesA.RemoveSpannerEdit_apply.
    destruct (objects !! id e); eexists; reflexivity.
  - eexists. reflexivity.
  - unfold MessagesA.SetDataEdit_apply, MetavoxelData.set.
    destruct (expandToFit_is_Some fuel _ (World.data w) k
                Hsize Hk (Hnan _ eq_refl) Hfuel) as [d1 Hd1].
    rewrite Hd1. eexists. reflexivity.
  - eexists. reflexivity.
  - eexists. reflexivity.
  - eexists. reflexivity.
Qed.

(** C4 (as amended).  Starting from bounds that are a power-of-two cube
    centred on the origin, of edge [2^k]:

    - whatever an edit of either revision returns has bounds that contain
      the old ones and were obtained from them by doubling the edge and by
      nothing else.  Where the region of the edit (the box of a box-set
      edit, the bounds of an inserted or set spanner, the cube of a set
      snapshot) fits into the cube of edge [2^127], the bounds are again a
      power-of-two cube centred on the origin, the first on the way that
      contains the region; where it does not, the edge was doubled up to
      infinity and the bounds are the cube without bounds;
    - the loop [while (!data.getBounds().contains(box)) data.expand()]
      ends in both cases, within [127 - k] respectively [128 - k]
      doublings, and does not end when the box has a NaN coordinate;
    - [BoxSetEdit::apply] and [SetSpannerEdit::apply] are that loop, on the
      edit region respectively the spanner's bounds, followed by the
      traversal;
    - an edit whose region has a NaN coordinate does not return, and the
      edits of revision A that run no traversal return otherwise. *)
Theorem edits_grow_bounds_by_doubling
    `{AttributeRegistry} `{Libm} `{SpannerInterface} `{AttributeMerge}
    (objects : WeakSharedObjectHash) (w : World.t) (k : Z) :
  MetavoxelData._size (World.data w) = pow2 k -> -125 <= k <= 127 ->
  (forall fuel edit w',
     MessagesA.MetavoxelEditMessage_apply fuel edit objects w = Some w' ->
     boundsAfter k (regionOfA edit) (World.data w) (World.data w')) /\
  (forall fuel edit w',
     MessagesB.MetavoxelEditMessage_apply fuel edit objects w = Some w' ->
     boundsAfter k (regionOfB edit) (World.data w) (World.data w')) /\
  (forall fuel box,
     (Box.contains (originCube 127) box = true ->
      (Z.to_nat (127 - k) <= fuel)%nat ->
      exists w1, World.expandToFit fuel box w = Some w1 /\
        grownByDoubling k (Some box) (World.data w) (World.data w1)) /\
     (Box.contains (originCube 127) box = false -> hasNaN box = false ->
      (Z.to_nat (128 - k) <= fuel)%nat ->
      exists w1, World.expandToFit fuel box w = Some w1 /\
        overflown k (Some box) (World.data w) (World.data w1)) /\
     (hasNaN box = true -> World.expandToFit fuel box w = None)) /\
  (forall fuel e,
     MessagesA.MetavoxelEditMessage_apply fuel (MessagesA.BoxSet e) objects w =
       (w1 ← World.expandToFit fuel (region e) w;
        World.guide fuel (BoxSetEditVisitor e) w1) /\
     MessagesB.MetavoxelEditMessage_apply fuel (MessagesB.BoxSet e) objects w =
       (w1 ← World.expandToFit fuel (region e) w;
        World.guide fuel (BoxSetEditVisitor e) w1)) /\
  (forall fuel e,
     MessagesB.MetavoxelEditMessage_apply fuel (MessagesB.SetSpanner e) objects w =
       (w1 ← World.expandToFit fuel (getBounds (MessagesB.setSpanner e)) w;
        World.guide fuel
          (SetSpannerEditVisitor
             (Some <$> getAttributes (MessagesB.setSpanner e))
             (MessagesB.setSpanner e)) w1)) /\
  (forall fuel box,
     hasNaN box = true ->
     (forall edit, regionOfA edit = Some box ->
        MessagesA.MetavoxelEditMessage_apply fuel edit objects w = None) /\
     (forall edit, regionOfB edit = Some box ->
        MessagesB.MetavoxelEditMessage_apply fuel edit objects w = None)) /\
  (forall fuel edit,
     traversesA edit = false ->
     (forall box, regionOfA edit = Some box -> hasNaN box = false) ->
     (Z.to_nat (128 - k) <= fuel)%nat ->
     is_Some (MessagesA.MetavoxelEditMessage_apply fuel edit objects w)).
Proof.
  intros Hsize Hk.
  split; [|split; [|split; [|split; [|split; [|split]]]]].
  - intros fuel edit w' Hrun.
    apply (revisionA_edit_bounds fuel edit objects w w' k Hsize Hk Hrun).
  - intros fuel edit w' Hrun.
    apply (revisionB_edit_bounds fuel edit objects w w' k Hsize Hk Hrun).
  - intros fuel box. split; [|split].
    + intros Hfits Hfuel.
      destruct (expandToFit_terminates fuel box (World.data w) k Hsize Hk Hfits Hfuel)
        as [d Hd].
      exists (World.withData d w). split.
      * unfold World.expandToFit. rewrite Hd. reflexivity.
      * apply (expandToFit_grows fuel box _ k d Hsize Hk Hfits Hd).
    + intros Hfits Hnan Hfuel.
      exists (World.withData
                (Nat.iter (Z.to_nat (128 - k)) MetavoxelData.expand (World.data w)) w).
      split.
      * unfold World.expandToFit.
        rewrite (expandToFit_overflows fuel box _ k Hsize Hk Hfits Hnan Hfuel).
        reflexivity.
      * apply (overflown_iter box _ k Hsize Hk Hfits Hnan).
    + intros Hnan. apply (World_expandToFit_NaN fuel box w Hnan).
  - intros fuel e. split; reflexivity.
  - intros fuel e. reflexivity.
  - intros fuel box Hnan. split; intros edit Hregion.
    + apply (revisionA_edit_NaN fuel edit objects w box Hregion Hnan).
    + apply (revisionB_edit_NaN fuel edit objects w box Hregion Hnan).
  - intros fuel edit Htrav Hnan Hfuel.
    apply (revisionA_edit_returns fuel edit objects w k Hsize Hk Htrav Hnan Hfuel).
Qed.

(** A world of edge 1 painted over [[0, 3]^3]: the edge doubles three
    times, to 8.  Setting a spanner over [[0, 1]^3] doubles it once, and
    inserting one in revision A returns. *)
Lemma edits_grow_bounds_by_doubling_witness :
  (exists w',
     MessagesA.MetavoxelEditMessage_apply
       (H := Examples.registry) (H0 := Examples.spanners) (H1 := Examples.merge)
       3 (MessagesA.BoxSet Examples.farEdit) ∅ Examples.world0 = Some w' /\
     MetavoxelData._size (World.data w') = Examples.f 8 /\
     boundsAfter 0 (Some (region Examples.farEdit))
       (World.data Examples.world0) (World.data w')) /\
  (exists w',
     MessagesB.MetavoxelEditMessage_apply
       (H := Examples.registry) (H0 := Examples.libm) (H1 := Examples.spanners)
       1 (MessagesB.SetSpanner (MessagesB.mkSetSpannerEdit (Examples.spanner 9)))
       ∅ Examples.world0 = Some w' /\
     MetavoxelData._size (World.data w') = Examples.f 2) /\
  is_Some
    (MessagesA.MetavoxelEditMessage_apply
       (H := Examples.registry) (H0 := Examples.spanners) (H1 := Examples.merge)
       128 (MessagesA.InsertSpanner Examples.insert9) ∅ Examples.world0).
Proof.
  pose proof (edits_grow_bounds_by_doubling
                (H := Examples.registry) (H0 := Examples.libm)
                (H1 := Examples.spanners) (H2 := Examples.merge)
                ∅ Examples.world0 0 eq_refl ltac:(lia)) as Hedits.
  split; [|split].
  - eexists. split; [vm_compute; reflexivity|]. split; [reflexivity|].
    apply (proj1 Hedits 3%nat (MessagesA.BoxSet Examples.farEdit)).
    vm_compute. reflexivity.
  - eexists. split; [vm_compute; reflexivity|]. reflexivity.
  - apply (proj2 (proj2 (proj2 (proj2 (proj2 (proj2 Hedits)))))
             128%nat (MessagesA.InsertSpanner Examples.insert9)).
    + reflexivity.
    + intros box [= <-]. reflexivity.
    + simpl. lia.
Defined.

(** The bounds do not always remain a power-of-two cube: setting a spanner
    whose bounds reach [2^127] in a world of edge 1 doubles the edge 128
    times, the last doubling gives infinity, and the edit returns with
    bounds that are no cube of edge [2^k]. *)
Lemma edits_bounds_overflow_counterexample :
  MetavoxelData._size (World.data Examples.world0) = pow2 0 /\
  exists w',
    MessagesB.MetavoxelEditMessage_apply
      (H := Examples.registry) (H0 := Examples.libm) (H1 := Examples.spanners)
      128 (MessagesB.SetSpanner (MessagesB.mkSetSpannerEdit MoreExamples.hugeSpanner))
      ∅ Examples.world0 = Some w' /\
    MetavoxelData._size (World.data w') = S754_infinity false /\
    MetavoxelData.getBounds (World.data w') = infiniteCube /\
    forall k, MetavoxelData._size (World.data w') <> pow2 k.
Proof.
  split; [reflexivity|]. eexists. split; [vm_compute; reflexivity|].
  split; [reflexivity|]. split; [reflexivity|].
  intros k. simpl. unfold pow2. discriminate.
Qed.

(** With a NaN among the bounds of the spanner the loop of
    [SetSpannerEdit::apply] has no end, however long it runs. *)
Example edits_NaN_region_no_result (fuel : nat) :
  MessagesB.MetavoxelEditMessage_apply
    (H := Examples.registry) (H0 := Examples.libm) (H1 := Examples.spanners)
    fuel (MessagesB.SetSpanner (MessagesB.mkSetSpannerEdit MoreExamples.nanSpanner))
    ∅ Examples.world0 = None.
Proof.
  apply (revisionB_edit_NaN fuel _ ∅ Examples.world0
           (getBounds MoreExamples.nanSpanner)); reflexivity.
Qed.

(** ** Paint-heightfield-height edit *)

Lemma same_instance_eq a b : same_instance a b = true <-> address a = address b.
Proof. unfold same_instance. apply Pos.eqb_eq. Qed.

Lemma same_instance_neq a b : same_instance a b = false <-> address a <> address b.
Proof. unfold same_instance. apply Pos.eqb_neq. Qed.

Section ReplaceLoop.
Variable fresh : Spanner -> Spanner.
Variable stored : list Spanner.
Variable queried : Spanner -> Prop.

(** An address identifies one stored object. *)
Hypothesis stored_once :
  forall s t, s ∈ stored -> t ∈ stored -> address s = address t -> s = t.
(** A new instance is not an object that is already stored. *)
Hypothesis fresh_new :
  forall s t, s ∈ stored -> queried s -> t ∈ stored ->
    same_instance (fresh s) s = false -> address (fresh s) <> address t.

Lemma replaceStep_entryAfter done r :
  Forall (fun s => s ∈ stored /\ queried s) done ->
  r ∈ stored -> queried r ->
  replaceStep fresh (entryAfter fresh done <$> stored) r =
  entryAfter fresh (done ++ [r]) <$> stored.
Proof.
  intros Hdone Hr Hq. unfold replaceStep.
  destruct (same_instance (fresh r) r) eqn:Hsame; simpl.
  - (* the same instance came back: nothing is replaced *)
    apply Forall_fmap_ext, Forall_forall. intros s Hs. unfold entryAfter.
    destruct (decide (Exists _ done)) as [He|He];
      destruct (decide (Exists _ (done ++ [r]))) as [He'|He'];
      try reflexivity.
    + exfalso. apply He'. apply Exists_app. left. exact He.
    + apply Exists_app in He' as [He'|He']; [contradiction|].
      apply Exists_exists in He' as (r' & Hin & Haddr).
      apply list_elem_of_singleton in Hin. subst r'.
      rewrite <- (stored_once r s Hr Hs Haddr), Hsame. reflexivity.
  - (* a new instance replaces the entries at the address of [r] *)
    rewrite <- list_fmap_compose.
    apply Forall_fmap_ext, Forall_forall. intros s Hs. simpl. unfold entryAfter.
    destruct (decide (Exists _ done)) as [He|He];
      destruct (decide (Exists _ (done ++ [r]))) as [He'|He'].
    + destruct (same_instance (fresh s) s) eqn:Hs'; simpl.
      * destruct (same_instance s r) eqn:Hsr; [|reflexivity].
        apply same_instance_eq in Hsr.
        rewrite (stored_once s r Hs Hr Hsr) in Hs'. congruence.
      * assert (Hq' : queried s).
        { apply Exists_exists in He as (d & Hin & Haddr).
          rewrite Forall_forall in Hdone. destruct (Hdone d Hin) as [Hd Hqd].
          rewrite <- (stored_once d s Hd Hs Haddr). exact Hqd. }
        pose proof (fresh_new s r Hs Hq' Hr Hs') as Hne.
        apply same_instance_neq in Hne. rewrite Hne. reflexivity.
    + exfalso. apply He'. apply Exists_app. left. exact He.
    + apply Exists_app in He' as [He'|He']; [contradiction|].
      apply Exists_exists in He' as (r' & Hin & Haddr).
      apply list_elem_of_singleton in Hin. subst r'.
      rewrite <- (stored_once r s Hr Hs Haddr).
      rewrite Hsame. simpl.
      replace (same_instance r r) with true
        by (symmetry; apply same_instance_eq; reflexivity).
      reflexivity.
    + destruct (same_instance s r) eqn:Hsr; [|reflexivity].
      exfalso. apply He'. apply Exists_app. right.
      apply Exists_exists. exists r. split; [apply list_elem_of_singleton; reflexivity|].
      apply same_instance_eq in Hsr. congruence.
Qed.

Lemma foldl_replaceStep rs :
  forall done,
    Forall (fun s => s ∈ stored /\ queried s) done ->
    Forall (fun s => s ∈ stored /\ queried s) rs ->
    foldl (replaceStep fresh) (entryAfter fresh done <$> stored) rs =
    entryAfter fresh (done ++ rs) <$> stored.
Proof.
  induction rs as [|r rs IH]; intros done Hdone Hrs; simpl.
  - rewrite app_nil_r. reflexivity.
  - inversion Hrs as [|? ? [Hr Hq] Hrs']; subst.
    rewrite (replaceStep_entryAfter done r Hdone Hr Hq).
    rewrite (IH (done ++ [r])); [rewrite <- app_assoc; reflexivity | | exact Hrs'].
    apply Forall_app. split; [exact Hdone|]. apply Forall_singleton. tauto.
Qed.

End ReplaceLoop.

Lemma NoDup_address_once (l : list Spanner) :
  NoDup (address <$> l) ->
  forall s t, s ∈ l -> t ∈ l -> address s = address t -> s = t.
Proof.
  induction l as [|x l IH]; intros Hnd s t Hs Ht Haddr.
  - inversion Hs.
  - rewrite fmap_cons in Hnd. apply NoDup_cons in Hnd as [Hx Hnd].
    apply elem_of_cons in Hs as [->|Hs]; apply elem_of_cons in Ht as [->|Ht].
    + reflexivity.
    + exfalso. apply Hx. rewrite Haddr. apply list_elem_of_fmap_2. exact Ht.
    + exfalso. apply Hx. rewrite <- Haddr. apply list_elem_of_fmap_2. exact Hs.
    + apply (IH Hnd s t Hs Ht Haddr).
Qed.

Lemma spannersOf_replace a o n w :
  MetavoxelData.spannersOf (Some a) (World.data (World.replace (Some a) o n w)) =
  (fun s => if same_instance s o then n else s)
    <$> MetavoxelData.spannersOf (Some a) (World.data w).
Proof.
  unfold World.replace, MetavoxelData.replace. simpl.
  rewrite lookup_insert_eq. reflexivity.
Qed.

(** The loop of the paint edit, seen on the collection of the spanners
    attribute. *)
Lemma paint_loop_collection (a : Attribute) (fresh : Spanner -> Spanner) rs :
  forall w,
    MetavoxelData.spannersOf (Some a)
      (World.data
         (foldl (fun acc s =>
                   if negb (same_instance (fresh s) s)
                   then World.replace (Some a) s (fresh s) acc else acc) w rs)) =
    foldl (replaceStep fresh) (MetavoxelData.spannersOf (Some a) (World.data w)) rs.
Proof.
  induction rs as [|r rs IH]; intros w; cbn [foldl]; [reflexivity|].
  rewrite IH. f_equal. unfold replaceStep.
  destruct (negb (same_instance (fresh r) r)); [|reflexivity].
  apply spannersOf_replace.
Qed.

Lemma elem_of_getIntersecting a box d s :
  s ∈ MetavoxelData.getIntersecting a box d <->
  s ∈ MetavoxelData.spannersOf a d /\ Box.intersects (getBounds s) box = true.
Proof.
  unfold MetavoxelData.getIntersecting. rewrite list_elem_of_filter.
  unfold boundsIntersect. rewrite Is_true_true. tauto.
Qed.

(** C8.  [PaintHeightfieldHeightEdit::apply] queries the spanners of the
    spanners attribute whose bounds intersect the box
    [position -/+ radius * 1.1f], calls [paintHeight(position, radius,
    height)] on each result in turn, and replaces a result in the data
    exactly when the instance returned is not the result itself.  When no
    object is stored twice and a new instance is not one already stored,
    the collection afterwards holds, for each stored spanner, the new
    instance if it intersects the box and returned one, and the spanner
    itself otherwise. *)
Theorem PaintHeightfieldHeightEdit_replaces `{AttributeRegistry} `{SpannerInterface}
    (e : MessagesA.PaintHeightfieldHeightEdit) (objects : WeakSharedObjectHash)
    (w : World.t) :
  let attribute := Some getSpannersAttribute in
  let stored := MetavoxelData.spannersOf attribute (World.data w) in
  let results := MetavoxelData.getIntersecting attribute (paintBox e) (World.data w) in
  let painted s :=
    paintHeight s (MessagesA.position e) (MessagesA.radius e) (MessagesA.height e) in
  (forall s, s ∈ results <->
     s ∈ stored /\ Box.intersects (getBounds s) (paintBox e) = true) /\
  MessagesA.PaintHeightfieldHeightEdit_apply e objects w =
    Some (foldl (fun acc s =>
                   if negb (same_instance (painted s) s)
                   then World.replace attribute s (painted s) acc
                   else acc) w results) /\
  (NoDup (address <$> stored) ->
   Forall (fun s => same_instance (painted s) s = false ->
                    address (painted s) ∉ (address <$> stored)) results ->
   exists w',
     MessagesA.PaintHeightfieldHeightEdit_apply e objects w = Some w' /\
     MetavoxelData.spannersOf attribute (World.data w') =
       (fun s => if Box.intersects (getBounds s) (paintBox e)
                    && negb (same_instance (painted s) s)
                 then painted s else s) <$> stored).
Proof.
  intros attribute stored results painted.
  split; [intros s; apply elem_of_getIntersecting|].
  split; [reflexivity|].
  intros Hnodup Hfresh. eexists. split; [reflexivity|].
  unfold attribute. rewrite paint_loop_collection. fold attribute. fold stored.
  pose proof (NoDup_address_once stored Hnodup) as Honce.
  set (queried := fun s : Spanner => Box.intersects (getBounds s) (paintBox e) = true).
  assert (Hnew : forall s t, s ∈ stored -> queried s -> t ∈ stored ->
            same_instance (painted s) s = false ->
            address (painted s) <> address t).
  { intros s t Hs Hq Ht Hsame Heq.
    rewrite Forall_forall in Hfresh.
    apply (Hfresh s); [apply elem_of_getIntersecting; split; assumption | exact Hsame |].
    rewrite Heq. apply list_elem_of_fmap_2. exact Ht. }
  assert (Hresults : Forall (fun s => s ∈ stored /\ queried s) results).
  { apply Forall_forall. intros s Hs. apply elem_of_getIntersecting in Hs. exact Hs. }
  assert (Hstart : stored = entryAfter painted [] <$> stored).
  { rewrite <- (list_fmap_id stored) at 1.
    apply Forall_fmap_ext, Forall_forall. intros s _. unfold entryAfter.
    destruct (decide (Exists _ [])) as [Hex|_]; [inversion Hex | reflexivity]. }
  rewrite Hstart at 1.
  change (foldl (replaceStep painted) (entryAfter painted [] <$> stored) results =
          (fun s => if Box.intersects (getBounds s) (paintBox e)
                       && negb (same_instance (painted s) s)
                    then painted s else s) <$> stored).
  rewrite (foldl_replaceStep painted stored queried Honce Hnew results []
             (Forall_nil_2 _) Hresults).
  simpl. apply Forall_fmap_ext, Forall_forall. intros s Hs. unfold entryAfter.
  destruct (Box.intersects (getBounds s) (paintBox e)) eqn:Hint; simpl.
  - destruct (decide (Exists _ results)) as [_|Hex]; [reflexivity|].
    exfalso. apply Hex. apply Exists_exists. exists s.
    split; [apply elem_of_getIntersecting; split; assumption | reflexivity].
  - destruct (decide (Exists _ results)) as [Hex|_]; [|reflexivity].
    exfalso. apply Exists_exists in Hex as (r & Hr & Haddr).
    apply elem_of_getIntersecting in Hr as [Hr Hq].
    rewrite (Honce r s Hr Hs Haddr) in Hq. congruence.
Qed.

(** Painting around the centre of the unit cube in a world that stores the
    spanners 5 and 6: spanner 5 returns itself and stays, spanner 6 returns
    a new instance at address 106 and is replaced by it. *)
Lemma PaintHeightfieldHeightEdit_replaces_witness :
  exists w',
    MessagesA.PaintHeightfieldHeightEdit_apply
      (H := Examples.registry) (H0 := Examples.spanners)
      Examples.paintEdit ∅ Examples.world0 = Some w' /\
    MetavoxelData.spannersOf (Some Examples.spannersAttribute) (World.data w') =
      [Examples.spanner 5; Examples.successor (Examples.spanner 6)].
Proof.
  destruct (proj2 (proj2 (PaintHeightfieldHeightEdit_replaces
              (H := Examples.registry) (H0 := Examples.spanners)
              Examples.paintEdit ∅ Examples.world0)))
    as (w' & Happly & Hstored).
  - apply (bool_decide_unpack _). vm_compute. exact I.
  - apply (bool_decide_unpack _). vm_compute. exact I.
  - exists w'. split; [exact Happly|].
    etransitivity; [exact Hstored|]. vm_compute. reflexivity.
Defined.

(** * Further properties *)

(** ** Network packets *)

Lemma copyContents_accepted MAX node bytes this log :
  0 < NetworkPacket.size bytes <= MAX ->
  NetworkPacket.copyContents MAX node bytes (this, log) =
  (NetworkPacket.mk node bytes, log).
Proof.
  intros Hsize. unfold NetworkPacket.copyContents.
  replace (NetworkPacket.size bytes =? 0) with false by lia.
  replace (NetworkPacket.size bytes <=? MAX) with true by lia.
  reflexivity.
Qed.

Lemma copyContents_rejected MAX node bytes this log :
  ~ (0 < NetworkPacket.size bytes <= MAX) ->
  NetworkPacket.copyContents MAX node bytes (this, log) =
  (this,
   log ++ [(">>> NetworkPacket::copyContents() unexpected length = %d"%string,
            NetworkPacket.size bytes)]).
Proof.
  intros Hsize. unfold NetworkPacket.copyContents.
  assert (Hnonneg : 0 <= NetworkPacket.size bytes)
    by (unfold NetworkPacket.size; lia).
  destruct (Z.eqb_spec (NetworkPacket.size bytes) 0) as [Hz|Hz]; simpl;
    [reflexivity|].
  replace (NetworkPacket.size bytes <=? MAX) with false by lia.
  reflexivity.
Qed.

Lemma copyContents_wellFormed MAX node bytes this log :
  NetworkPacket.wellFormed MAX this ->
  NetworkPacket.wellFormed MAX
    (fst (NetworkPacket.copyContents MAX node bytes (this, log))).
Proof.
  intros Hthis.
  destruct (decide (0 < NetworkPacket.size bytes <= MAX)) as [Hsize|Hsize].
  - rewrite (copyContents_accepted MAX node bytes this log Hsize).
    right. exact Hsize.
  - rewrite (copyContents_rejected MAX node bytes this log Hsize).
    exact Hthis.
Qed.

(** X1.  Whatever [MAX_PACKET_SIZE] is and whatever it is given, a packet
    built by a constructor is unassigned (no sender, no bytes) or holds
    between one and [MAX_PACKET_SIZE] bytes, and an assignment keeps that:
    an empty or oversized byte array never gets into a packet, and a sender
    is never recorded without its bytes. *)
Theorem NetworkPacket_always_wellFormed (MAX : Z) :
  (forall node bytes log,
     NetworkPacket.wellFormed MAX (fst (NetworkPacket.construct MAX node bytes log))) /\
  (forall packet log,
     NetworkPacket.wellFormed MAX (fst (NetworkPacket.copy_construct MAX packet log)) /\
     NetworkPacket.wellFormed MAX (fst (NetworkPacket.move_construct MAX packet log))) /\
  (forall this other log,
     NetworkPacket.wellFormed MAX this ->
     NetworkPacket.wellFormed MAX (fst (NetworkPacket.assign MAX this other log)) /\
     NetworkPacket.wellFormed MAX (fst (NetworkPacket.move_assign MAX this other log))) /\
  (forall p,
     NetworkPacket.wellFormed MAX p ->
     NetworkPacket.getSendingNode p <> None ->
     0 < NetworkPacket.size (NetworkPacket.getByteArray p) <= MAX).
Proof.
  assert (Hun : NetworkPacket.wellFormed MAX NetworkPacket.unassigned)
    by (left; reflexivity).
  split; [|split; [|split]].
  - intros node bytes log. apply copyContents_wellFormed, Hun.
  - intros packet log. split; apply copyContents_wellFormed, Hun.
  - intros this other log Hthis. split; apply copyContents_wellFormed, Hthis.
  - intros p [->|Hsize] Hnode; [contradiction Hnode; reflexivity | exact Hsize].
Qed.

(** A packet of 1501 bytes under a limit of 1500 is dropped with its
    sender; assigning it to a two-byte packet changes nothing. *)
Lemma NetworkPacket_always_wellFormed_witness :
  fst (NetworkPacket.construct 1500 (Some 9%positive) (replicate 1501 Byte.x00) [])
    = NetworkPacket.unassigned /\
  NetworkPacket.wellFormed 1500
    (fst (NetworkPacket.assign 1500 MoreExamples.twoBytes
            (NetworkPacket.mk (Some 9%positive) (replicate 1501 Byte.x00)) [])) /\
  0 < NetworkPacket.size (NetworkPacket.getByteArray MoreExamples.twoBytes) <= 1500.
Proof.
  split; [vm_compute; reflexivity|].
  pose proof (NetworkPacket_always_wellFormed 1500) as (_ & _ & Hassign & Hsender).
  assert (Hwf : NetworkPacket.wellFormed 1500 MoreExamples.twoBytes)
    by (right; vm_compute; split; [reflexivity | discriminate]).
  split.
  - apply (Hassign MoreExamples.twoBytes _ [] Hwf).
  - apply (Hsender MoreExamples.twoBytes Hwf). discriminate.
Defined.

(** X2.  Copying a well-formed packet gives a packet equal to it, sender
    and bytes; the copy is silent when the packet holds bytes, and logs an
    unexpected length of 0 when the packet is unassigned. *)
Theorem NetworkPacket_copy_round_trip (MAX : Z) (p : NetworkPacket.t)
    (log : list (string * Z)) :
  NetworkPacket.wellFormed MAX p ->
  fst (NetworkPacket.copy_construct MAX p log) = p /\
  (NetworkPacket.getByteArray p <> [] ->
     snd (NetworkPacket.copy_construct MAX p log) = log) /\
  (NetworkPacket.getByteArray p = [] ->
     snd (NetworkPacket.copy_construct MAX p log) =
     log ++ [(">>> NetworkPacket::copyContents() unexpected length = %d"%string, 0)]).
Proof.
  intros [->|Hsize]; unfold NetworkPacket.copy_construct.
  - rewrite copyContents_rejected by (vm_compute; intros [H _]; discriminate H).
    split; [reflexivity|]. split; [intros Hne; contradiction Hne; reflexivity|].
    intros _. reflexivity.
  - rewrite (copyContents_accepted MAX _ _ _ log Hsize).
    split; [destruct p; reflexivity|]. split; [reflexivity|].
    intros Hnil. rewrite Hnil in Hsize. vm_compute in Hsize.
    destruct Hsize as [H _]. discriminate H.
Qed.

Lemma NetworkPacket_copy_round_trip_witness :
  NetworkPacket.copy_construct 1500 MoreExamples.twoBytes [] =
  (MoreExamples.twoBytes, []).
Proof.
  assert (Hwf : NetworkPacket.wellFormed 1500 MoreExamples.twoBytes)
    by (right; vm_compute; split; [reflexivity | discriminate]).
  destruct (NetworkPacket_copy_round_trip 1500 MoreExamples.twoBytes [] Hwf)
    as (Hfst & Hsnd & _).
  rewrite (surjective_pairing (NetworkPacket.copy_construct 1500 _ [])).
  rewrite Hfst, Hsnd by discriminate. reflexivity.
Defined.

(** X3.  Assignment from a well-formed packet copies it only if it holds
    bytes: assigning an unassigned packet leaves the target as it was, with
    its old sender and bytes, and logs an unexpected length of 0. *)
Theorem NetworkPacket_assign_keeps_or_copies (MAX : Z) (this other : NetworkPacket.t)
    (log : list (string * Z)) :
  NetworkPacket.wellFormed MAX other ->
  (NetworkPacket.getByteArray other <> [] ->
     NetworkPacket.assign MAX this other log = (other, log)) /\
  (NetworkPacket.getByteArray other = [] ->
     NetworkPacket.assign MAX this other log =
     (this,
      log ++ [(">>> NetworkPacket::copyContents() unexpected length = %d"%string, 0)])).
Proof.
  intros [->|Hsize]; unfold NetworkPacket.assign.
  - split; [intros Hne; contradiction Hne; reflexivity|]. intros _.
    rewrite copyContents_rejected by (vm_compute; intros [H _]; discriminate H).
    reflexivity.
  - rewrite (copyContents_accepted MAX _ _ this log Hsize). split.
    + intros _. destruct other; reflexivity.
    + intros Hnil. rewrite Hnil in Hsize. vm_compute in Hsize.
      destruct Hsize as [H _]. discriminate H.
Qed.

Lemma NetworkPacket_assign_keeps_or_copies_witness :
  NetworkPacket.assign 1500 MoreExamples.twoBytes MoreExamples.threeBytes []
    = (MoreExamples.threeBytes, []) /\
  NetworkPacket.assign 1500 MoreExamples.twoBytes NetworkPacket.unassigned []
    = (MoreExamples.twoBytes,
       [(">>> NetworkPacket::copyContents() unexpected length = %d"%string, 0)]).
Proof.
  split.
  - apply (proj1 (NetworkPacket_assign_keeps_or_copies 1500 MoreExamples.twoBytes
                    MoreExamples.threeBytes []
                    ltac:(right; vm_compute; split; [reflexivity | discriminate]))).
    discriminate.
  - apply (proj2 (NetworkPacket_assign_keeps_or_copies 1500 MoreExamples.twoBytes
                    NetworkPacket.unassigned [] ltac:(left; reflexivity))).
    reflexivity.
Defined.

(** ** Box-set visitor, continued *)

(** The visit in one equation over the extent and the volume fraction. *)
Lemma BoxSetEditVisitor_visit_eq (e : BoxSetEdit) (info : MetavoxelInfo.t) :
  (0 < length (MetavoxelInfo.outputValues info))%nat ->
  BoxSetEditVisitor_visit e info =
  if degenerate (intersectionExtent e info) then Some (STOP_RECURSION, info)
  else if F32.ge (overlapVolume e info) F32.one
       then Some (STOP_RECURSION, assigned (value e) info)
       else if F32.le (MetavoxelInfo.size info) (granularity e)
            then (if F32.ge (overlapVolume e info) F32.half
                  then Some (STOP_RECURSION, assigned (value e) info)
                  else Some (STOP_RECURSION, info))
            else Some (DEFAULT_ORDER, info).
Proof.
  intros Hout.
  pose proof (setOutputValue_in_range 0 (value e) info Hout) as Hset.
  unfold BoxSetEditVisitor_visit, degenerate, overlapVolume, cube.
  fold (intersectionExtent e info).
  destruct (_ || _); [reflexivity|].
  destruct (F32.ge _ F32.one); [rewrite Hset; reflexivity|].
  destruct (F32.le _ (granularity e)); [|reflexivity].
  destruct (F32.ge _ F32.half); [rewrite Hset|]; reflexivity.
Qed.

Lemma cube_ratio_pow2 k :
  -42 <= k <= 42 -> F32.div (cube (pow2 k)) (cube (pow2 k)) = F32.one.
Proof.
  intros Hk.
  assert (Hall : forallb
            (fun k => bool_decide
               (F32.div (cube (pow2 k)) (cube (pow2 k)) = F32.one))
            ((fun i => -42 + Z.of_nat i) <$> seq 0 85) = true)
    by (vm_compute; reflexivity).
  pose proof (forallb_Z_range _ _ _ Hall k ltac:(lia)) as Hb.
  apply bool_decide_eq_true in Hb. exact Hb.
Qed.

Lemma axis_extent_inside lo hi m s :
  axisInside lo hi m s = true -> axisExact m s ->
  F32.sub (F32.min (F32.add m s) hi) (F32.max m lo) = s.
Proof.
  unfold axisInside, axisExact, F32.le. intros Hin Hexact.
  apply andb_true_iff in Hin as [Hlo Hhi].
  unfold F32.min, F32.max, F32.lt.
  rewrite (SFleb_not_SFltb m lo Hlo), (SFleb_not_SFltb hi (F32.add m s) Hhi).
  exact Hexact.
Qed.

(** X4.  A node whose edge is a power of two, whose upper corner is exact,
    and which lies within the edit region on every axis is covered in
    full: the visitor assigns the edit's value and stops, whatever the
    granularity. *)
Theorem BoxSetEditVisitor_assigns_contained (e : BoxSetEdit)
    (info : MetavoxelInfo.t) (k : Z) :
  MetavoxelInfo.size info = pow2 k -> -42 <= k <= 42 ->
  (0 < length (MetavoxelInfo.outputValues info))%nat ->
  cornerExact info ->
  nodeInside (region e) info = true ->
  overlapVolume e info = F32.one /\
  BoxSetEditVisitor_visit e info =
  Some (STOP_RECURSION, assigned (value e) info).
Proof.
  intros Hsize Hk Hout (Hx & Hy & Hz) Hin.
  unfold nodeInside in Hin.
  apply andb_true_iff in Hin as [Hin Hinz].
  apply andb_true_iff in Hin as [Hinx Hiny].
  assert (Hext : intersectionExtent e info = vec3.splat (pow2 k)).
  { unfold intersectionExtent, vec3.sub, vec3.min, vec3.max, vec3.add,
      vec3.map2, vec3.splat.
    cbn [vec3.x vec3.y vec3.z].
    rewrite (axis_extent_inside _ _ _ _ Hinx Hx).
    rewrite (axis_extent_inside _ _ _ _ Hiny Hy).
    rewrite (axis_extent_inside _ _ _ _ Hinz Hz).
    rewrite Hsize. reflexivity. }
  assert (Hvol : overlapVolume e info = F32.one).
  { unfold overlapVolume. rewrite Hext, Hsize. cbn [vec3.x vec3.y vec3.z vec3.splat].
    apply (cube_ratio_pow2 k Hk). }
  split; [exact Hvol|].
  rewrite (BoxSetEditVisitor_visit_eq e info Hout), Hext, Hvol.
  reflexivity.
Qed.

Lemma BoxSetEditVisitor_assigns_contained_witness :
  BoxSetEditVisitor_visit MoreExamples.wideEdit MoreExamples.halfNode =
  Some (STOP_RECURSION, assigned Examples.red MoreExamples.halfNode).
Proof.
  apply (BoxSetEditVisitor_assigns_contained MoreExamples.wideEdit
           MoreExamples.halfNode (-1)).
  - reflexivity.
  - lia.
  - simpl. lia.
  - repeat split; reflexivity.
  - reflexivity.
Defined.

(** X5.  A node larger than the granularity is never given a best guess:
    the visitor writes the value only if the region covers the node in
    full, and subdivides every node that is covered in part.  With a
    granularity of 0 this holds for every node of positive size. *)
Theorem BoxSetEditVisitor_no_guess_above_granularity (e : BoxSetEdit)
    (info : MetavoxelInfo.t) :
  F32.gt (MetavoxelInfo.size info) (granularity e) = true ->
  (0 < length (MetavoxelInfo.outputValues info))%nat ->
  (degenerate (intersectionExtent e info) = false ->
   F32.ge (overlapVolume e info) F32.one = false ->
     BoxSetEditVisitor_visit e info = Some (DEFAULT_ORDER, info)) /\
  (forall info',
     BoxSetEditVisitor_visit e info = Some (STOP_RECURSION, info') ->
     (degenerate (intersectionExtent e info) = true /\ info' = info) \/
     (F32.ge (overlapVolume e info) F32.one = true /\
      info' = assigned (value e) info)).
Proof.
  intros Hgt Hout.
  assert (Hle : F32.le (MetavoxelInfo.size info) (granularity e) = false)
    by (apply SFltb_not_SFleb; exact Hgt).
  rewrite (BoxSetEditVisitor_visit_eq e info Hout), Hle.
  split.
  - intros -> ->. reflexivity.
  - intros info'.
    destruct (degenerate _); [intros [= <-]; left; split; reflexivity|].
    destruct (F32.ge _ F32.one); [intros [= <-]; right; split; reflexivity|].
    discriminate.
Qed.

(** The unit node under the half-covering region at granularity 1/2 is
    subdivided, where at granularity 1 it was assigned. *)
Lemma BoxSetEditVisitor_no_guess_above_granularity_witness :
  BoxSetEditVisitor_visit (withGranularity F32.half Examples.halfEdit)
    Examples.unitNode = Some (DEFAULT_ORDER, Examples.unitNode).
Proof.
  apply (proj1 (BoxSetEditVisitor_no_guess_above_granularity
                  (withGranularity F32.half Examples.halfEdit) Examples.unitNode
                  eq_refl ltac:(simpl; lia)));
    reflexivity.
Defined.

(** X6.  Raising the granularity never changes what a stopped node got: if
    the visitor stops at a node under one granularity, it stops there with
    the same outputs under every granularity that is at least as large. *)
Theorem BoxSetEditVisitor_stop_monotone (e : BoxSetEdit) (g : float)
    (info info' : MetavoxelInfo.t) :
  F32.le (granularity e) g = true ->
  BoxSetEditVisitor_visit e info = Some (STOP_RECURSION, info') ->
  BoxSetEditVisitor_visit (withGranularity g e) info = Some (STOP_RECURSION, info').
Proof.
  intros Hle. unfold BoxSetEditVisitor_visit, withGranularity.
  cbn [region granularity value].
  destruct (_ || _); [intros H; exact H|].
  destruct (F32.ge _ F32.one); [intros H; exact H|].
  destruct (F32.le (MetavoxelInfo.size info) (granularity e)) eqn:Hsize;
    [|discriminate].
  assert (Hsize' : F32.le (MetavoxelInfo.size info) g = true)
    by (apply (SFleb_trans _ _ _ Hsize Hle)).
  rewrite Hsize'. intros H; exact H.
Qed.

Lemma BoxSetEditVisitor_stop_monotone_witness :
  BoxSetEditVisitor_visit (withGranularity (F32.of_Z 4) Examples.halfEdit)
    Examples.unitNode =
  Some (STOP_RECURSION, assigned Examples.red Examples.unitNode).
Proof.
  apply (BoxSetEditVisitor_stop_monotone Examples.halfEdit (F32.of_Z 4)
           Examples.unitNode); reflexivity.
Defined.

(** ** Update visitor, continued *)

Lemma blendAll_size `{SpannerInterface} (set : list Spanner) :
  keepsSize ->
  forall info, MetavoxelInfo.size (blendAll set info) = MetavoxelInfo.size info.
Proof.
  intros Hkeep. unfold blendAll.
  induction set as [|s set IH]; intros info; simpl; [reflexivity|].
  rewrite IH. apply Hkeep.
Qed.

Lemma resetOutputs_size outputs :
  forall i info info',
    resetOutputs outputs i info = Some info' ->
    MetavoxelInfo.size info' = MetavoxelInfo.size info.
Proof.
  induction outputs as [|a outputs IH]; intros i info info'; simpl.
  - intros [= <-]. reflexivity.
  - unfold MetavoxelInfo.setOutputValue.
    destruct (decide _); [|discriminate]. simpl.
    intros Hrest. rewrite (IH _ _ _ Hrest). reflexivity.
Qed.

(** With blends that keep the size, the order a visit returns is decided
    by the node as it was handed in. *)
Lemma UpdateSpannerVisitor_visit_order `{SpannerInterface}
    (v : UpdateSpannerVisitor) (info r : MetavoxelInfo.t) (o : VisitOrder) :
  keepsSize ->
  UpdateSpannerVisitor_visit v info = Some (o, r) ->
  o = if Box.intersects (MetavoxelInfo.getBounds info) (getBounds (_spanner v))
      then subdivideWhileLarger v info else STOP_RECURSION.
Proof.
  intros Hkeep. unfold UpdateSpannerVisitor_visit, subdivideWhileLarger.
  destruct (Box.intersects _ _); simpl negb; cbv iota.
  - destruct (resetOutputs _ _ _) as [info1|] eqn:Hreset; [|discriminate].
    apply resetOutputs_size in Hreset. simpl.
    destruct (MetavoxelInfo.parentInfo info ≫= walkParents (_steps v) 0)
      as [p|]; simpl.
    + destruct (MetavoxelInfo.inputValues p !! length (_outputs v)); simpl;
        [|discriminate].
      intros [= <- _]. rewrite (blendAll_size _ Hkeep), Hreset. reflexivity.
    + intros [= <- _]. rewrite Hreset. reflexivity.
  - intros [= <- _]. reflexivity.
Qed.

(** X9.  With spanners whose blending leaves the size of the node info as
    it is: once the update visitor has stopped at a node that intersects
    the spanner, it asks for subdivision at no node of that size or
    smaller. *)
Theorem UpdateSpannerVisitor_stop_monotone `{SpannerInterface}
    (v : UpdateSpannerVisitor) (info smaller r r' : MetavoxelInfo.t) :
  keepsSize ->
  Box.intersects (MetavoxelInfo.getBounds info) (getBounds (_spanner v)) = true ->
  UpdateSpannerVisitor_visit v info = Some (STOP_RECURSION, r) ->
  F32.le (MetavoxelInfo.size smaller) (MetavoxelInfo.size info) = true ->
  UpdateSpannerVisitor_visit v smaller <> Some (DEFAULT_ORDER, r').
Proof.
  intros Hkeep Hint Hstop Hle Hmore.
  apply (UpdateSpannerVisitor_visit_order _ _ _ _ Hkeep) in Hstop.
  apply (UpdateSpannerVisitor_visit_order _ _ _ _ Hkeep) in Hmore.
  rewrite Hint in Hstop. unfold subdivideWhileLarger, F32.gt in *.
  destruct (Box.intersects (MetavoxelInfo.getBounds smaller) _); [|discriminate].
  destruct (SFltb (_voxelizationSize v) (MetavoxelInfo.size smaller)) eqn:Hlt;
    [|discriminate].
  rewrite (SFltb_SFleb_trans _ _ _ Hlt Hle) in Hstop. discriminate.
Qed.

Lemma UpdateSpannerVisitor_stop_monotone_witness :
  UpdateSpannerVisitor_visit (H := Examples.spanners)
    Examples.updateVisitor Examples.grandchildInfo <>
  Some (DEFAULT_ORDER, Examples.grandchildInfo).
Proof.
  apply (UpdateSpannerVisitor_stop_monotone (H := Examples.spanners)
           Examples.updateVisitor Examples.childInfo Examples.grandchildInfo
           (MetavoxelInfo.mk Examples.origin F32.half (Some Examples.rootInfo)
              [Examples.colorInput; Examples.setValue [Examples.spanner 1]]
              [AttributeValue_of (Some Examples.colorAttribute)])
           Examples.grandchildInfo);
    [intros s info force; reflexivity | reflexivity | reflexivity | reflexivity].
Defined.

(** A blend that rewrites the size decides the order itself: the
    grandchild of the root is not larger than the voxelization size of
    [Examples.insertVisitor] and still subdivided, [MoreExamples.growing]
    having doubled the size it holds. *)
Example UpdateSpannerVisitor_order_after_blend :
  fst <$> UpdateSpannerVisitor_visit (H := Examples.spanners)
            Examples.insertVisitor Examples.grandchildInfo
    = Some STOP_RECURSION /\
  fst <$> UpdateSpannerVisitor_visit (H := MoreExamples.growing)
            Examples.insertVisitor Examples.grandchildInfo
    = Some DEFAULT_ORDER.
Proof. split; reflexivity. Qed.

Lemma walkParents_nonpositive steps p :
  steps <= 0 -> walkParents steps 0 p = Some p.
Proof.
  intros Hsteps. destruct p; simpl.
  destruct (0 <? steps) eqn:Hlt; [apply Z.ltb_lt in Hlt; lia|reflexivity].
Qed.

(** X10.  A step count that is negative counts as none: the ancestor loop
    is not entered, and the visit is the one of the same visitor with a
    step count of 0, which blends the spanners of the node's parent. *)
Theorem UpdateSpannerVisitor_nonpositive_steps `{SpannerInterface}
    (v : UpdateSpannerVisitor) (info : MetavoxelInfo.t) :
  _steps v <= 0 ->
  (p ← MetavoxelInfo.parentInfo info; walkParents (_steps v) 0 p) =
    MetavoxelInfo.parentInfo info /\
  UpdateSpannerVisitor_visit v info =
  UpdateSpannerVisitor_visit (withSteps 0 v) info.
Proof.
  intros Hsteps.
  assert (Hwalk : forall n, n <= 0 ->
            (p ← MetavoxelInfo.parentInfo info; walkParents n 0 p) =
            MetavoxelInfo.parentInfo info).
  { intros n Hn. destruct (MetavoxelInfo.parentInfo info) as [p|]; simpl;
      [apply walkParents_nonpositive; exact Hn|reflexivity]. }
  split; [apply Hwalk; exact Hsteps|].
  unfold UpdateSpannerVisitor_visit, withSteps.
  cbn [_inputs _outputs _spanner _voxelizationSize _steps].
  rewrite (Hwalk (_steps v) Hsteps), (Hwalk 0 ltac:(lia)). reflexivity.
Qed.

(** With a step count of -3 the grandchild blends the set of the child,
    spanner 1. *)
Lemma UpdateSpannerVisitor_nonpositive_steps_witness :
  UpdateSpannerVisitor_visit (H := Examples.spanners)
    (withSteps (-3) Examples.updateVisitor) Examples.grandchildInfo =
  UpdateSpannerVisitor_visit (H := Examples.spanners)
    (withSteps 0 (withSteps (-3) Examples.updateVisitor)) Examples.grandchildInfo.
Proof.
  apply (UpdateSpannerVisitor_nonpositive_steps (H := Examples.spanners)
           (withSteps (-3) Examples.updateVisitor) Examples.grandchildInfo).
  simpl. lia.
Defined.

(** X11.  The input slot [UpdateSpannerVisitor::visit] reads the spanner
    set from, the one at index [_outputs.size()], is the slot the
    constructor appended for the spanners attribute: the inputs of a
    constructed visitor are its outputs followed by that attribute. *)
Theorem UpdateSpannerVisitor_new_spanners_input
    `{AttributeRegistry} `{Libm} `{SpannerInterface}
    (attributes : list AttributePointer) (spanner : Spanner)
    (v : UpdateSpannerVisitor) :
  UpdateSpannerVisitor_new attributes spanner = Some v ->
  getOutputs (UpdateSpannerVisitor_visitor v) = attributes /\
  getInputs (UpdateSpannerVisitor_visitor v) =
    attributes ++ [Some getSpannersAttribute] /\
  getInputs (UpdateSpannerVisitor_visitor v)
    !! length (getOutputs (UpdateSpannerVisitor_visitor v)) =
    Some (Some getSpannersAttribute) /\
  length (getInputs (UpdateSpannerVisitor_visitor v)) =
    S (length (getOutputs (UpdateSpannerVisitor_visitor v))).
Proof.
  unfold UpdateSpannerVisitor_new.
  destruct (F32.to_int _) as [steps|]; [|discriminate].
  simpl. intros [= <-]. simpl.
  split; [reflexivity|]. split; [reflexivity|]. split.
  - apply list_lookup_middle. reflexivity.
  - rewrite length_app. simpl. lia.
Qed.

Lemma UpdateSpannerVisitor_new_spanners_input_witness :
  getInputs (UpdateSpannerVisitor_visitor (H := Examples.spanners)
               Examples.insertVisitor) !! 1%nat =
  Some (Some Examples.spannersAttribute).
Proof.
  apply (UpdateSpannerVisitor_new_spanners_input
           (H := Examples.registry) (H0 := Examples.libm) (H1 := Examples.spanners)
           [Some Examples.colorAttribute] (Examples.spanner 9)
           Examples.insertVisitor).
  vm_compute. reflexivity.
Defined.

(** ** Paint and material edits, continued *)

Lemma foldl_unchanged {A : Type} (f : World.t -> A -> World.t) (w : World.t)
    (l : list A) :
  (forall acc s, s ∈ l -> f acc s = acc) -> foldl f w l = w.
Proof.
  induction l as [|s l IH]; intros Hkeep; [reflexivity|]. simpl.
  rewrite (Hkeep w s) by (apply elem_of_cons; left; reflexivity).
  apply IH. intros acc t Ht. apply Hkeep. apply elem_of_cons. right. exact Ht.
Qed.

(** X12.  When [paintHeight] returns the receiver itself for every spanner
    the query of [PaintHeightfieldHeightEdit::apply] finds, the edit calls
    [replace] for none: the collection stores the same objects in the same
    order, and the reference counts, the log and the bounds are those the
    edit started with. *)
Theorem PaintHeightfieldHeightEdit_replaces_nothing
    `{AttributeRegistry} `{SpannerInterface}
    (e : MessagesA.PaintHeightfieldHeightEdit) (objects : WeakSharedObjectHash)
    (w : World.t) :
  (forall s,
     s ∈ MetavoxelData.getIntersecting (Some getSpannersAttribute) (paintBox e)
           (World.data w) ->
     same_instance
       (paintHeight s (MessagesA.position e) (MessagesA.radius e)
          (MessagesA.height e)) s = true) ->
  exists w',
    MessagesA.PaintHeightfieldHeightEdit_apply e objects w = Some w' /\
    sameObjects (Some getSpannersAttribute) w w'.
Proof.
  intros Hkeep. exists w. split; [|repeat split].
  unfold MessagesA.PaintHeightfieldHeightEdit_apply. f_equal.
  apply foldl_unchanged. intros acc s Hs.
  rewrite (Hkeep s Hs). reflexivity.
Qed.

Lemma PaintHeightfieldHeightEdit_replaces_nothing_witness :
  exists w',
    MessagesA.PaintHeightfieldHeightEdit_apply
      (H := Examples.registry) (H0 := Examples.spanners)
      Examples.paintEdit ∅ MoreExamples.oddWorld = Some w' /\
    sameObjects (Some Examples.spannersAttribute) MoreExamples.oddWorld w'.
Proof.
  apply (PaintHeightfieldHeightEdit_replaces_nothing
           (H := Examples.registry) (H0 := Examples.spanners)
           Examples.paintEdit ∅ MoreExamples.oddWorld).
  intros s Hs. vm_compute in Hs.
  apply elem_of_cons in Hs as [->|Hs]; [reflexivity|].
  apply elem_of_cons in Hs as [->|Hs]; [reflexivity|].
  inversion Hs.
Defined.

(** X13.  When [setMaterial] returns the receiver itself for every spanner
    that intersects the edit's spanner,
    [HeightfieldMaterialSpannerEdit::apply] calls [replace] for none: the
    collection stores the same objects in the same order, and the
    reference counts, the log and the bounds are those the edit started
    with. *)
Theorem HeightfieldMaterialSpannerEdit_replaces_nothing
    `{AttributeRegistry} `{SpannerInterface}
    (e : MessagesA.HeightfieldMaterialSpannerEdit) (objects : WeakSharedObjectHash)
    (w : World.t) :
  (forall s,
     s ∈ MetavoxelData.getIntersecting (Some getSpannersAttribute)
           (getBounds (MessagesA.materialSpanner e)) (World.data w) ->
     same_instance
       (setMaterial s (MessagesA.materialSpanner e) (MessagesA.material e)
          (MessagesA.HeightfieldMaterialSpannerEdit_color e) (MessagesA.paint e))
       s = true) ->
  exists w',
    MessagesA.HeightfieldMaterialSpannerEdit_apply e objects w = Some w' /\
    sameObjects (Some getSpannersAttribute) w w'.
Proof.
  intros Hkeep. exists w. split; [|repeat split].
  unfold MessagesA.HeightfieldMaterialSpannerEdit_apply. f_equal.
  apply foldl_unchanged. intros acc s Hs.
  rewrite (Hkeep s Hs). reflexivity.
Qed.

Lemma HeightfieldMaterialSpannerEdit_replaces_nothing_witness :
  exists w',
    MessagesA.HeightfieldMaterialSpannerEdit_apply
      (H := Examples.registry) (H0 := Examples.spanners)
      (Examples.materialEdit 26214 false) ∅ MoreExamples.oddWorld = Some w' /\
    sameObjects (Some Examples.spannersAttribute) MoreExamples.oddWorld w'.
Proof.
  apply (HeightfieldMaterialSpannerEdit_replaces_nothing
           (H := Examples.registry) (H0 := Examples.spanners)
           (Examples.materialEdit 26214 false) ∅ MoreExamples.oddWorld).
  intros s Hs. vm_compute in Hs.
  apply elem_of_cons in Hs as [->|Hs]; [reflexivity|].
  apply elem_of_cons in Hs as [->|Hs]; [reflexivity|].
  inversion Hs.
Defined.

(** ** Material colour, continued *)

(** X14.  The transparency rule of [HeightfieldMaterialSpannerEdit::apply]
    is idempotent: a colour that went through it goes through it
    unchanged. *)
Theorem HeightfieldMaterialSpannerEdit_color_idempotent
    (e : MessagesA.HeightfieldMaterialSpannerEdit) :
  MessagesA.HeightfieldMaterialSpannerEdit_color
    (withAverageColor (MessagesA.HeightfieldMaterialSpannerEdit_color e) e) =
  MessagesA.HeightfieldMaterialSpannerEdit_color e.
Proof.
  unfold MessagesA.HeightfieldMaterialSpannerEdit_color, withAverageColor.
  cbn [MessagesA.paint MessagesA.averageColor].
  destruct (MessagesA.paint e); [reflexivity|].
  destruct (SFltb (QColor.alphaF (MessagesA.averageColor e)) QColor.qreal_half)
    eqn:Hlow.
  - reflexivity.
  - rewrite Hlow. reflexivity.
Qed.

Lemma alphaF_below_half_8bit a :
  0 <= a <= 255 ->
  SFltb (SFdiv QColor.prec QColor.emax (QColor.qreal_of_Z (a * 257))
           (QColor.qreal_of_Z QColor.USHRT_MAX)) QColor.qreal_half = (a <? 128).
Proof.
  intros Ha.
  assert (Hall : forallb
            (fun a => Bool.eqb
               (SFltb (SFdiv QColor.prec QColor.emax (QColor.qreal_of_Z (a * 257))
                         (QColor.qreal_of_Z QColor.USHRT_MAX)) QColor.qreal_half)
               (a <? 128))
            ((fun i => 0 + Z.of_nat i) <$> seq 0 256) = true)
    by (vm_compute; reflexivity).
  pose proof (forallb_Z_range _ _ _ Hall a ltac:(lia)) as Hb.
  apply Bool.eqb_prop in Hb. exact Hb.
Qed.

(** X15.  For an average colour given by its four 8-bit channels and an
    edit that does not paint, the colour handed to [setMaterial] is the
    fully transparent black when the alpha channel is below 128 and the
    average colour itself from 128 on. *)
Theorem HeightfieldMaterialSpannerEdit_color_8bit
    (e : MessagesA.HeightfieldMaterialSpannerEdit) (r g b a : Z) :
  0 <= a <= 255 ->
  MessagesA.paint e = false ->
  MessagesA.averageColor e = QColor.of_rgba r g b a ->
  MessagesA.HeightfieldMaterialSpannerEdit_color e =
  if a <? 128 then QColor.of_rgba 0 0 0 0 else QColor.of_rgba r g b a.
Proof.
  intros Ha Hpaint Hcolor.
  unfold MessagesA.HeightfieldMaterialSpannerEdit_color.
  rewrite Hpaint, Hcolor. unfold QColor.alphaF, QColor.of_rgba.
  cbn [QColor.alpha].
  rewrite (alphaF_below_half_8bit a Ha). reflexivity.
Qed.

Lemma HeightfieldMaterialSpannerEdit_color_8bit_witness :
  MessagesA.HeightfieldMaterialSpannerEdit_color
    (withAverageColor (QColor.of_rgba 255 128 0 127)
       (Examples.materialEdit 0 false)) = QColor.of_rgba 0 0 0 0 /\
  MessagesA.HeightfieldMaterialSpannerEdit_color
    (withAverageColor (QColor.of_rgba 255 128 0 128)
       (Examples.materialEdit 0 false)) = QColor.of_rgba 255 128 0 128.
Proof.
  split.
  - apply (HeightfieldMaterialSpannerEdit_color_8bit
             (withAverageColor (QColor.of_rgba 255 128 0 127)
                (Examples.materialEdit 0 false)) 255 128 0 127);
      [lia|reflexivity|reflexivity].
  - apply (HeightfieldMaterialSpannerEdit_color_8bit
             (withAverageColor (QColor.of_rgba 255 128 0 128)
                (Examples.materialEdit 0 false)) 255 128 0 128);
      [lia|reflexivity|reflexivity].
Defined.

